(** * duech-online-app: word and comment routes, comment section helpers

    A shallow embedding of
    - [src/app/api/words/[lemma]/route.ts] (GET, POST, PUT, DELETE and the
      payload normalisers),
    - [src/app/api/words/[lemma]/comments/[commentId]/route.ts] (PATCH, DELETE),
    - [components/word/comment/globe] (hashString, getPaletteForUser),
    - [components/word/comment/section] (addComment, canEditComment,
      canDeleteComment, saveEditing, deleteComment),
    - [src/lib/report-words-utils.ts] (the report helpers and the email
      helpers) with the report route and the exported words page,
    followed by the properties established about them. *)

From Stdlib Require Import ZArith NArith Lia Ascii String DecimalString.
From stdpp Require Import base option list strings gmap.

Set Warnings "-register-all".
Local Open Scope string_scope.
Local Open Scope list_scope.
Local Open Scope N_scope.

(** ** The JavaScript values the handlers work on *)

Module Js.

(** A JavaScript string is a sequence of UTF-16 code units. *)
Definition str : Type := list N.

(** [WhiteSpace] and [LineTerminator] code units of ECMAScript:
    what [trim] strips and what [parseInt] skips. *)
Definition is_white_space (c : N) : bool :=
  bool_decide (c ∈ [9; 10; 11; 12; 13; 32; 160; 5760; 8232; 8233; 8239; 8287;
                    12288; 65279])
  || ((8192 <=? c) && (c <=? 8202)).

Fixpoint trimStart (s : str) : str :=
  match s with
  | c :: rest => if is_white_space c then trimStart rest else s
  | [] => []
  end.

Definition trimEnd (s : str) : str := reverse (trimStart (reverse s)).

Definition trim (s : str) : str := trimEnd (trimStart s).

(** *** Percent-decoding and UTF-8 *)

Definition hex_val (c : N) : option N :=
  if (48 <=? c) && (c <=? 57) then Some (c - 48)
  else if (65 <=? c) && (c <=? 70) then Some (c - 55)
  else if (97 <=? c) && (c <=? 102) then Some (c - 87)
  else None.

Inductive uri_token : Type :=
  | Raw (c : N)
  | Octet (b : N).

(** Every [%XY] escape becomes an octet; a [%] that is not followed by
    two hexadecimal digits is malformed. *)
Fixpoint uri_tokens (s : str) : option (list uri_token) :=
  match s with
  | [] => Some []
  | 37 :: rest =>
      match rest with
      | h :: l :: rest' =>
          match hex_val h, hex_val l with
          | Some a, Some b => (fun ts => Octet (16 * a + b) :: ts) <$> uri_tokens rest'
          | _, _ => None
          end
      | _ => None
      end
  | c :: rest => (fun ts => Raw c :: ts) <$> uri_tokens rest
  end.

Definition continuation (b : N) : option N :=
  if (128 <=? b) && (b <=? 191) then Some (b - 128) else None.

Definition utf16_encode (cp : N) : str :=
  if cp <? 65536 then [cp]
  else [55296 + (cp - 65536) / 1024; 56320 + (cp - 65536) mod 1024].

(** The code point of a UTF-8 sequence, when it is well formed: no
    overlong form, no surrogate, nothing above U+10FFFF. *)
Definition utf8_check (lo hi cp : N) : option str :=
  if (lo <=? cp) && (cp <=? hi) && negb ((55296 <=? cp) && (cp <=? 57343))
  then Some (utf16_encode cp) else None.

Fixpoint utf8_units (ts : list uri_token) : option str :=
  match ts with
  | [] => Some []
  | Raw c :: rest => (fun out => c :: out) <$> utf8_units rest
  | Octet b :: rest =>
      if b <? 128 then (fun out => b :: out) <$> utf8_units rest
      else if b <? 192 then None
      else if b <? 224 then
        match rest with
        | Octet b1 :: rest' =>
            c1 ← continuation b1;
            u ← utf8_check 128 2047 ((b - 192) * 64 + c1);
            out ← utf8_units rest';
            Some (u ++ out)
        | _ => None
        end
      else if b <? 240 then
        match rest with
        | Octet b1 :: Octet b2 :: rest' =>
            c1 ← continuation b1;
            c2 ← continuation b2;
            u ← utf8_check 2048 65535 (((b - 224) * 64 + c1) * 64 + c2);
            out ← utf8_units rest';
            Some (u ++ out)
        | _ => None
        end
      else if b <? 248 then
        match rest with
        | Octet b1 :: Octet b2 :: Octet b3 :: rest' =>
            c1 ← continuation b1;
            c2 ← continuation b2;
            c3 ← continuation b3;
            u ← utf8_check 65536 1114111 ((((b - 240) * 64 + c1) * 64 + c2) * 64 + c3);
            out ← utf8_units rest';
            Some (u ++ out)
        | _ => None
        end
      else None
  end.

(** [decodeURIComponent s]; [None] stands for the [URIError] thrown on
    a malformed escape. *)
Definition decodeURIComponent (s : str) : option str :=
  uri_tokens s ≫= utf8_units.

(** The code units of a string literal of this file, which is UTF-8. *)
Definition lit (s : string) : str :=
  default [] (utf8_units ((fun a => Octet (N_of_ascii a)) <$> list_ascii_of_string s)).

(** Numbers. An integral value is kept as the integer it denotes, an
    other finite value by its canonical decimal rendering (the text
    [Number::toString] gives, which identifies it). Integers beyond
    2^53 are rounded by the engine; the handlers only compare, test and
    print numbers, so the integer itself is kept here. *)
Inductive number : Type :=
  | NInt (z : Z)
  | NFrac (repr : str)
  | NNaN
  | NInf (negative : bool).

#[global] Instance number_eq_dec : EqDecision number.
Proof. solve_decision. Defined.

Definition Number_isInteger (n : number) : bool :=
  match n with NInt _ => true | _ => false end.

Definition Number_isNaN (n : number) : bool :=
  match n with NNaN => true | _ => false end.

(** [a === b] on numbers: NaN differs from everything, itself included. *)
Definition number_strict_eq (a b : number) : bool :=
  match a, b with
  | NNaN, _ | _, NNaN => false
  | _, _ => bool_decide (a = b)
  end.

(** [n <= 0] on numbers (false on NaN). *)
Definition number_le_zero (n : number) : bool :=
  match n with
  | NInt z => (z <=? 0)%Z
  | NFrac r => match r with 45 :: _ => true | _ => false end
  | NNaN => false
  | NInf negative => negative
  end.

(** A number is falsy when it is 0 or NaN. *)
Definition number_truthy (n : number) : bool :=
  match n with
  | NInt z => negb (z =? 0)%Z
  | NNaN => false
  | _ => true
  end.

Definition Z_to_str (z : Z) : str := lit (NilZero.string_of_int (Z.to_int z)).

Definition number_to_string (n : number) : str :=
  match n with
  | NInt z => Z_to_str z
  | NFrac r => r
  | NNaN => lit "NaN"
  | NInf false => lit "Infinity"
  | NInf true => lit "-Infinity"
  end.

Definition digit_val (c : N) : option Z :=
  if (48 <=? c) && (c <=? 57) then Some (Z.of_N (c - 48)) else None.

(** The longest prefix of decimal digits, read most significant first. *)
Fixpoint parse_digits (acc : option Z) (s : str) : option Z :=
  match s with
  | c :: rest =>
      match digit_val c with
      | Some d => parse_digits (Some (10 * default 0%Z acc + d)%Z) rest
      | None => acc
      end
  | [] => acc
  end.

(** [parseInt(s, 10)] / [Number.parseInt(s, 10)]. *)
Definition parseInt10 (s : str) : number :=
  let t := trimStart s in
  let '(negative, body) :=
    match t with
    | 45 :: rest => (true, rest)
    | 43 :: rest => (false, rest)
    | _ => (false, t)
    end in
  match parse_digits None body with
  | Some m => NInt (if negative then - m else m)%Z
  | None => NNaN
  end.

(** JSON-shaped values, with [undefined] for what a missing property
    reads as. *)
Inductive JsVal : Type :=
  | JUndefined
  | JNull
  | JBool (b : bool)
  | JNum (n : number)
  | JStr (s : str)
  | JArr (items : list JsVal)
  | JObj (props : list (str * JsVal)).

Inductive JsType : Type :=
  | TUndefined | TObject | TBoolean | TNumber | TString.

#[global] Instance JsType_eq_dec : EqDecision JsType.
Proof. solve_decision. Defined.

Definition typeof (v : JsVal) : JsType :=
  match v with
  | JUndefined => TUndefined
  | JNull | JArr _ | JObj _ => TObject
  | JBool _ => TBoolean
  | JNum _ => TNumber
  | JStr _ => TString
  end.

Definition Array_isArray (v : JsVal) : bool :=
  match v with JArr _ => true | _ => false end.

Definition truthy (v : JsVal) : bool :=
  match v with
  | JUndefined | JNull => false
  | JBool b => b
  | JNum n => number_truthy n
  | JStr s => negb (bool_decide (s = []))
  | JArr _ | JObj _ => true
  end.

Fixpoint assoc (k : str) (props : list (str * JsVal)) : option JsVal :=
  match props with
  | (k', v) :: rest => if bool_decide (k = k') then Some v else assoc k rest
  | [] => None
  end.

(** A canonical array index: decimal digits without a leading zero. *)
Definition array_index (k : str) : option nat :=
  match k with
  | [] => None
  | [48] => Some 0%nat
  | 48 :: _ => None
  | _ =>
      if forallb (fun c => (48 <=? c) && (c <=? 57)) k
      then Z.to_nat <$> parse_digits None k
      else None
  end.

(** [v[k]] for a value that is neither [null] nor [undefined]. Own
    properties only: what a JSON value inherits from its prototype is a
    function or a prototype object, never a string, a number or an
    array, and the code below asks nothing else of a property. *)
Definition own_prop (v : JsVal) (k : str) : JsVal :=
  match v with
  | JObj props => default JUndefined (assoc k props)
  | JArr items =>
      if bool_decide (k = lit "length") then JNum (NInt (Z.of_nat (length items)))
      else default JUndefined (array_index k ≫= fun i => items !! i)
  | JStr s =>
      if bool_decide (k = lit "length") then JNum (NInt (Z.of_nat (length s)))
      else default JUndefined (array_index k ≫= fun i => (fun c => JStr [c]) <$> s !! i)
  | _ => JUndefined
  end.

(** *** 32-bit integer arithmetic *)

(** [ToInt32]: reduce modulo 2^32 into [-2^31, 2^31). *)
Definition toInt32 (z : Z) : Z :=
  ((z + 2 ^ 31) mod 2 ^ 32 - 2 ^ 31)%Z.

(** [a << k] on 32-bit integers. *)
Definition shl32 (a : Z) (k : Z) : Z :=
  toInt32 (Z.shiftl (toInt32 a) (k mod 32)).

Arguments lit : simpl never.
Arguments trim : simpl never.
Arguments parseInt10 : simpl never.
Arguments decodeURIComponent : simpl never.
Arguments Z_to_str : simpl never.

End Js.

Import Js.

(** An object literal with ASCII or accented keys. *)
Definition obj (props : list (string * JsVal)) : JsVal :=
  JObj ((fun p => (lit p.1, p.2)) <$> props).

(** ** Requests, responses and the effects of a route handler *)

(** A thrown value, kept by the text the handlers report for it
    ([error.message] for an [Error], [String(error)] otherwise). *)
Record exn : Type := Exn { exn_details : str }.

Inductive Outcome (A : Type) : Type :=
  | Returned (a : A)
  | Thrown (e : exn).
Arguments Returned {A} a.
Arguments Thrown {A} e.

Inductive Body : Type :=
  | TextBody (text : str)
  | JsonBody (json : JsVal).

Record Response : Type := mkResponse { body : Body; status : Z }.

(** [NextResponse.json(v, { status })]; the status defaults to 200. *)
Definition NextResponse_json (v : JsVal) (st : option Z) : Response :=
  mkResponse (JsonBody v) (default 200%Z st).

Record Request : Type := mkRequest {
  headers : list (str * str);
  searchParams : list (str * str);
  (** what [await request.json()] gives *)
  request_json : Outcome JsVal;
}.

(** [url.searchParams.get(name)]: the first value, [null] when absent. *)
Fixpoint searchParams_get (name : str) (ps : list (str * str)) : option str :=
  match ps with
  | (k, v) :: rest => if bool_decide (k = name) then Some v else searchParams_get name rest
  | [] => None
  end.

(** The session user of [@/lib/auth], as far as the routes read it. *)
Record SessionUser : Type := mkSessionUser {
  user_id : option str;
  user_role : option str;
}.

(** A [Meaning] is built as an object: the fixed fields, then the
    marker values spread over them. *)
Abbreviation Meaning := (gmap str JsVal).

Record Word : Type := mkWord {
  word_lemma : str;
  word_root : str;
  word_values : list Meaning;
}.

Record CreateWordOptions : Type := mkCreateWordOptions {
  opt_letter : option str;
  opt_assignedTo : option number;
  opt_status : option str;
  opt_createdBy : option number;
}.

Record CreateWordResult : Type := mkCreateWordResult {
  result_wordId : number;
  result_lemma : str;
  result_letter : str;
}.

Record QueryOptions : Type := mkQueryOptions { includeDrafts : bool }.

Record NoteUser : Type := mkNoteUser { noteuser_id : number; noteuser_username : str }.

(** What [addNoteToWord] and [updateNoteValue] resolve to. A [Date] is
    kept by its [toISOString()] text, the only use made of it. *)
Record SavedNote : Type := mkSavedNote {
  saved_id : number;
  saved_note : str;
  saved_createdAt : str;
  saved_user : option NoteUser;
}.

(** What [getNoteWithDetails] resolves to. *)
Record NoteDetails : Type := mkNoteDetails {
  note_userId : option number;
  note_word_lemma : option str;
  note_user : option NoteUser;
}.

(** The calls a handler makes outside its own file, in order. *)
Inductive Call : Type :=
  | CallApplyRateLimit
  | CallGetSessionUser
  | CallGetWordByLemma (lemma : str) (options : option QueryOptions)
  | CallCreateWord (word : Word) (options : CreateWordOptions)
  | CallUpdateWordByLemma (lemma : str) (word statusField assignedTo : JsVal)
  | CallAddNoteToWord (lemma : str) (note : str) (userId : option number)
  | CallDeleteWordByLemma (lemma : str)
  | CallGetNoteWithDetails (id : number)
  | CallUpdateNoteValue (id : number) (value : str)
  | CallDeleteNoteById (id : number).

(** Calls that reach the database: the queries and the mutations. *)
Definition is_database_call (c : Call) : bool :=
  match c with
  | CallApplyRateLimit | CallGetSessionUser => false
  | _ => true
  end.

Section Effects.
Context {Db : Type}.

Record World : Type := mkWorld { db : Db; trace : list Call }.

(** A handler run: the database it leaves and the calls it made,
    with the value it returned or threw. *)
Definition M (A : Type) : Type := World -> Outcome A * World.

Definition ret {A} (a : A) : M A := fun w => (Returned a, w).

Definition throw {A} (e : exn) : M A := fun w => (Thrown e, w).

Definition bind {A B} (m : M A) (k : A -> M B) : M B :=
  fun w =>
    match m w with
    | (Returned a, w') => k a w'
    | (Thrown e, w') => (Thrown e, w')
    end.

(** [try { m } catch (error) { handler error }] *)
Definition try_catch {A} (m : M A) (handler : exn -> M A) : M A :=
  fun w =>
    match m w with
    | (Thrown e, w') => handler e w'
    | r => r
    end.

Definition record_call (c : Call) (w : World) : World :=
  mkWorld (db w) (trace w ++ [c]).

(** Awaiting a call that does not touch the database. *)
Definition call_env {A} (c : Call) (result : Outcome A) : M A :=
  fun w => (result, record_call c w).

(** Awaiting a query. *)
Definition call_query {A} (c : Call) (q : Db -> Outcome A) : M A :=
  fun w => (q (db w), record_call c w).

(** Awaiting a mutation. *)
Definition call_mutation {A} (c : Call) (f : Db -> Outcome A * Db) : M A :=
  fun w => let '(r, d) := f (db w) in (r, mkWorld d (trace w ++ [c])).

(** Awaiting what is already settled ([request.json()]). *)
Definition settle {A} (o : Outcome A) : M A := fun w => (o, w).

(** [v.k]: reading a property of [null] or [undefined] throws. *)
Definition prop (v : JsVal) (k : string) : M JsVal :=
  match v with
  | JNull | JUndefined =>
      throw (Exn (lit "Cannot read properties of null or undefined"))
  | _ => ret (own_prop v (lit k))
  end.
End Effects.

Arguments World Db : clear implicits.
Arguments M Db A : clear implicits.

Declare Scope handler_scope.
Delimit Scope handler_scope with handler.
Notation "x <- m ;; k" := (bind m (fun x => k))
  (at level 100, m at next level, right associativity,
   format "x  <-  m  ;;  '//' k") : handler_scope.

Local Open Scope handler_scope.

(** [decodeURIComponent] as a handler step: a malformed escape throws. *)
Definition decode_or_throw {Db} (s : str) : M Db str :=
  match decodeURIComponent s with
  | Some d => ret d
  | None => throw (Exn (lit "URI malformed"))
  end.

(** The string behind a value whose [typeof] is ['string']. *)
Definition string_of (v : JsVal) : str :=
  match v with JStr s => s | _ => [] end.

Definition is_string (v : JsVal) : bool := bool_decide (typeof v = TString).

Definition is_null (v : JsVal) : bool :=
  match v with JNull => true | _ => false end.

(** ** src/app/api/words/[lemma]/route.ts *)

Module WordsRoute.
Section Route.
Context {Db : Type}.

(** [@/lib/rate-limiting]: the [success] flag of the result. *)
Variable applyRateLimit : Request -> Outcome bool.
(** [@/lib/editor-mode-server] *)
Variable isEditorModeFromHeaders : list (str * str) -> bool.
(** [@/lib/auth]: the user of the session the request carries. *)
Variable getSessionUser : Request -> Outcome (option SessionUser).
(** [@/lib/queries] *)
Variable getWordByLemma : str -> option QueryOptions -> Db -> Outcome (option JsVal).
(** [@/lib/editor-mutations] *)
Variable createWord : Word -> CreateWordOptions -> Db -> Outcome CreateWordResult * Db.
Variable updateWordByLemma : str -> JsVal -> JsVal -> JsVal -> Db -> Outcome unit * Db.
Variable deleteWordByLemma : str -> Db -> Outcome unit * Db.
Variable addNoteToWord : str -> str -> option number -> Db -> Outcome SavedNote * Db.
(** [@/lib/definitions] *)
Variable MEANING_MARKER_KEYS : list str.

Definition too_many_requests : Response :=
  mkResponse (TextBody (lit "Too Many Requests")) 429.

Definition error_response (message : string) (st : Z) : Response :=
  NextResponse_json (obj [("error", JStr (lit message))]) (Some st).

Definition error_details (message : string) (e : exn) : Response :=
  NextResponse_json
    (obj [("error", JStr (lit message)); ("details", JStr (exn_details e))])
    (Some 500%Z).

(** [!lemma || typeof lemma !== 'string' || lemma.trim().length === 0] *)
Definition invalid_lemma (lemma : JsVal) : bool :=
  negb (truthy lemma) || negb (is_string lemma)
  || bool_decide (length (trim (string_of lemma)) = 0%nat).

Definition GET (request : Request) (lemma : JsVal) : M Db Response :=
  rateLimitResult <- call_env CallApplyRateLimit (applyRateLimit request) ;;
  if negb rateLimitResult then ret too_many_requests
  else
    try_catch
      (if invalid_lemma lemma then ret (error_response "Invalid lemma parameter" 400)
       else
         decodedLemma <- decode_or_throw (trim (string_of lemma)) ;;
         if (100 <? length decodedLemma)%nat
         then ret (error_response "Lemma too long" 400)
         else
           let editorMode :=
             isEditorModeFromHeaders (headers request)
             || bool_decide (searchParams_get (lit "editorMode") (searchParams request)
                             = Some (lit "true")) in
           wordData <- call_query
               (CallGetWordByLemma decodedLemma
                  (if editorMode then Some (mkQueryOptions true) else None))
               (getWordByLemma decodedLemma
                  (if editorMode then Some (mkQueryOptions true) else None)) ;;
           match wordData with
           | None => ret (error_response "Word not found" 404)
           | Some data =>
               ret (NextResponse_json (obj [("success", JBool true); ("data", data)]) None)
           end)
      (fun _ => ret (error_response "Internal server error" 500)).

(** [typeof v === 'string' ? v : null] *)
Definition string_or_null (v : JsVal) : JsVal :=
  if is_string v then v else JNull.

Definition extractMarkerValues (source : JsVal) : Meaning :=
  foldl (fun acc key =>
           let rawValue := own_prop source key in
           if is_string rawValue then <[key := rawValue]> acc
           else <[key := JNull]> acc)
        ∅ MEANING_MARKER_KEYS.

Definition extractExamples (source : JsVal) : list JsVal :=
  let legacyExample := own_prop source (lit "example") in
  let newExamples := own_prop source (lit "examples") in
  match newExamples with
  | JArr items => items
  | _ =>
      match legacyExample with
      | JArr items => items
      | _ =>
          if truthy legacyExample && bool_decide (typeof legacyExample = TObject)
          then [legacyExample]
          else []
      end
  end.

(** The fixed fields of a meaning, as the object literal lists them. *)
Definition meaning_fields
    (number meaning origin grammarCategory remission observation examples variant : JsVal)
    : Meaning :=
  list_to_map
    [(lit "number", number); (lit "meaning", meaning); (lit "origin", origin);
     (lit "grammarCategory", grammarCategory); (lit "remission", remission);
     (lit "observation", observation); (lit "examples", examples);
     (lit "variant", variant)].

(** [{ ...fields, ...markerValues }]: a spread property wins over an
    earlier one of the same name. *)
Definition spread (fields markerValues : Meaning) : Meaning :=
  markerValues ∪ fields.

(** [typeof item === 'object' && item !== null] *)
Definition is_record (item : JsVal) : bool :=
  bool_decide (typeof item = TObject) && negb (is_null item).
(** The callback [normalizeMeanings] maps over the filtered items. *)
Definition normalize_item (index : nat) (def : JsVal) : Meaning :=
  let number :=
    match own_prop def (lit "number") with
    | JNum n => n
    | _ => NInt (Z.of_nat index + 1)
    end in
  let meaning :=
    if is_string (own_prop def (lit "meaning"))
       && negb (bool_decide (trim (string_of (own_prop def (lit "meaning"))) = []))
    then own_prop def (lit "meaning")
    else JStr (lit "Definición " ++ number_to_string number) in
  let markerValues := extractMarkerValues def in
  let examples := extractExamples def in
  spread
    (meaning_fields
       (JNum number)
       meaning
       (string_or_null (own_prop def (lit "origin")))
       (string_or_null (own_prop def (lit "grammarCategory")))
       (string_or_null (own_prop def (lit "remission")))
       (string_or_null (own_prop def (lit "observation")))
       (if (0 <? length examples)%nat then JArr examples else JNull)
       (string_or_null (own_prop def (lit "variant"))))
    markerValues.

Definition normalizeMeanings (input : JsVal) : list Meaning :=
  match input with
  | JArr items => imap normalize_item (List.filter is_record items)
  | _ => []
  end.

Fixpoint resolveAssignedTo (rawValue : JsVal) : option number :=
  match rawValue with
  | JNum n => if Number_isInteger n then Some n else None
  | JStr s =>
      let parsed := parseInt10 s in
      if Number_isNaN parsed then None else Some parsed
  | JArr (first :: _) => resolveAssignedTo first
  | _ => None
  end.

Definition createEmptyMarkerValues : Meaning :=
  foldl (fun acc key => <[key := JNull]> acc) ∅ MEANING_MARKER_KEYS.

Definition pending_meaning : Meaning :=
  spread
    (meaning_fields (JNum (NInt 1)) (JStr (lit "Definición pendiente"))
       JNull JNull JNull JNull JNull JNull)
    createEmptyMarkerValues.

Definition POST (request : Request) : M Db Response :=
  rateLimitResult <- call_env CallApplyRateLimit (applyRateLimit request) ;;
  if negb rateLimitResult then ret too_many_requests
  else
    try_catch
      (payload <- settle (request_json request) ;;
       payload_lemma <- prop payload "lemma" ;;
       let lemma := if is_string payload_lemma then trim (string_of payload_lemma) else [] in
       if bool_decide (lemma = []) then ret (error_response "El lema es obligatorio" 400)
       else
         payload_root <- prop payload "root" ;;
         let root := if is_string payload_root then string_of payload_root else [] in
         payload_letter <- prop payload "letter" ;;
         let letter :=
           if is_string payload_letter then Some (trim (string_of payload_letter)) else None in
         payload_assignedTo <- prop payload "assignedTo" ;;
         let assignedTo := resolveAssignedTo payload_assignedTo in
         payload_status <- prop payload "status" ;;
         let status :=
           if is_string payload_status then Some (string_of payload_status) else None in
         payload_values <- prop payload "values" ;;
         let values := normalizeMeanings payload_values in
         payload_createdBy <- prop payload "createdBy" ;;
         let createdBy := resolveAssignedTo payload_createdBy in
         let finalValues := if (0 <? length values)%nat then values else [pending_meaning] in
         let word := mkWord lemma root finalValues in
         let options := mkCreateWordOptions letter assignedTo status createdBy in
         result <- call_mutation (CallCreateWord word options) (createWord word options) ;;
         ret (NextResponse_json
                (obj [("success", JBool true);
                      ("data", obj [("wordId", JNum (result_wordId result));
                                    ("lemma", JStr (result_lemma result));
                                    ("letter", JStr (result_letter result))])])
                (Some 201%Z)))
      (fun error => ret (error_details "Error al crear la palabra" error)).

(** [session?.id ? Number.parseInt(session.id, 10) : NaN] *)
Definition session_id_number (session : option SessionUser) : number :=
  match session ≫= user_id with
  | Some (c :: rest) => parseInt10 (c :: rest)
  | _ => NNaN
  end.

Definition comment_json (created : SavedNote) : JsVal :=
  obj [("id", JNum (saved_id created));
       ("note", JStr (saved_note created));
       ("createdAt", JStr (saved_createdAt created));
       ("user", match saved_user created with
                | Some u => obj [("id", JNum (noteuser_id u));
                                 ("username", JStr (noteuser_username u))]
                | None => JNull
                end)].

Definition PUT (request : Request) (lemma : str) : M Db Response :=
  try_catch
    (decodedLemma <- decode_or_throw lemma ;;
     body <- settle (request_json request) ;;
     if negb (truthy body) || negb (bool_decide (typeof body = TObject))
     then ret (error_response "Solicitud inválida: se esperaba un objeto JSON" 400)
     else
       let updatedWord := own_prop body (lit "word") in
       let status := own_prop body (lit "status") in
       let assignedTo := own_prop body (lit "assignedTo") in
       let comment := own_prop body (lit "comment") in
       responseData_comment <-
         (if is_string comment && (0 <? length (trim (string_of comment)))%nat
          then
            session <- call_env CallGetSessionUser (getSessionUser request) ;;
            let maybeId := session_id_number session in
            let userId := if Number_isInteger maybeId then Some maybeId else None in
            created <- call_mutation
                (CallAddNoteToWord decodedLemma (trim (string_of comment)) userId)
                (addNoteToWord decodedLemma (trim (string_of comment)) userId) ;;
            ret (Some (comment_json created))
          else ret None) ;;
       let success :=
         NextResponse_json
           (obj (("success", JBool true)
                 :: match responseData_comment with
                    | Some c => [("data", obj [("comment", c)])]
                    | None => []
                    end))
           None in
       if truthy updatedWord
       then
         _ <- call_mutation
             (CallUpdateWordByLemma decodedLemma updatedWord status assignedTo)
             (updateWordByLemma decodedLemma updatedWord status assignedTo) ;;
         ret success
       else
         match responseData_comment with
         | None => ret (error_response "No se proporcionaron cambios para actualizar" 400)
         | Some _ => ret success
         end)
    (fun error => ret (error_details "Error al actualizar la palabra" error)).

Definition DELETE (request : Request) (lemma : str) : M Db Response :=
  try_catch
    (user <- call_env CallGetSessionUser (getSessionUser request) ;;
     match user with
     | None => ret (error_response "Authentication required" 401)
     | Some user =>
         if negb (bool_decide (user_role user = Some (lit "admin")))
            && negb (bool_decide (user_role user = Some (lit "superadmin")))
         then ret (error_response "Forbidden: Admin permission required to delete words" 403)
         else
           decodedLemma <- decode_or_throw lemma ;;
           _ <- call_mutation (CallDeleteWordByLemma decodedLemma)
                  (deleteWordByLemma decodedLemma) ;;
           ret (NextResponse_json (obj [("success", JBool true)]) None)
     end)
    (fun error => ret (error_details "Error al eliminar la palabra" error)).
End Route.
End WordsRoute.

(** ** src/app/api/words/[lemma]/comments/[commentId]/route.ts *)

Module CommentsRoute.
Section Route.
Context {Db : Type}.

(** [@/lib/auth] *)
Variable getSessionUser : Request -> Outcome (option SessionUser).
(** [@/lib/editor-mutations] *)
Variable getNoteWithDetails : number -> Db -> Outcome (option NoteDetails).
Variable updateNoteValue : number -> str -> Db -> Outcome SavedNote * Db.
Variable deleteNoteById : number -> Db -> Outcome unit * Db.

Definition error_response (message : string) (st : Z) : Response :=
  NextResponse_json (obj [("error", JStr (lit message))]) (Some st).

Definition error_details (message : string) (e : exn) : Response :=
  NextResponse_json
    (obj [("error", JStr (lit message)); ("details", JStr (exn_details e))])
    (Some 500%Z).

Definition parseCommentId (rawId : str) : option number :=
  let parsed := parseInt10 rawId in
  if Number_isNaN parsed || number_le_zero parsed then None else Some parsed.

Definition normalizeLemma (rawLemma : str) : str :=
  match decodeURIComponent rawLemma with
  | Some decoded => decoded
  | None => rawLemma
  end.

Definition getAuthorizedNote (lemma : str) (commentId : number)
    : M Db (option NoteDetails) :=
  note <- call_query (CallGetNoteWithDetails commentId) (getNoteWithDetails commentId) ;;
  match note with
  | None => ret None
  | Some n =>
      if negb (bool_decide (note_word_lemma n = Some lemma)) then ret None
      else ret (Some n)
  end.

(** [user.id ? Number.parseInt(user.id, 10) : null] *)
Definition requesterId (user : SessionUser) : option number :=
  match user_id user with
  | Some (c :: rest) => Some (parseInt10 (c :: rest))
  | _ => None
  end.

(** [requesterId !== null && note.userId === requesterId] *)
Definition isOwner (user : SessionUser) (note : NoteDetails) : bool :=
  match requesterId user with
  | Some r =>
      match note_userId note with
      | Some owner => number_strict_eq owner r
      | None => false
      end
  | None => false
  end.

Definition canEdit (user : SessionUser) (note : NoteDetails) : bool :=
  let role := default [] (user_role user) in
  isOwner user note
  && (bool_decide (role = lit "lexicographer") || bool_decide (role = lit "admin")
      || bool_decide (role = lit "superadmin")).

Definition canDelete (user : SessionUser) (note : NoteDetails) : bool :=
  let isLexicographer := bool_decide (user_role user = Some (lit "lexicographer")) in
  let isAdmin :=
    bool_decide (user_role user = Some (lit "admin"))
    || bool_decide (user_role user = Some (lit "superadmin")) in
  (isLexicographer && isOwner user note) || isAdmin.

(** [!noteId] *)
Definition falsy_id (noteId : option number) : bool :=
  match noteId with
  | Some n => negb (number_truthy n)
  | None => true
  end.

Definition PATCH (request : Request) (lemma commentId : str) : M Db Response :=
  try_catch
    (user <- call_env CallGetSessionUser (getSessionUser request) ;;
     match user with
     | None => ret (error_response "Autenticación requerida." 401)
     | Some user =>
         let normalizedLemma := normalizeLemma lemma in
         let noteId := parseCommentId commentId in
         if falsy_id noteId
         then ret (error_response "Identificador de comentario inválido." 400)
         else
           let noteId := default NNaN noteId in
           payload <- settle (request_json request) ;;
           payload_note <- prop payload "note" ;;
           let noteValue :=
             if is_string payload_note then trim (string_of payload_note) else [] in
           if bool_decide (noteValue = [])
           then ret (error_response "El comentario no puede estar vacío." 400)
           else
             note <- getAuthorizedNote normalizedLemma noteId ;;
             match note with
             | None => ret (error_response "Comentario no encontrado." 404)
             | Some note =>
                 if negb (canEdit user note)
                 then ret (error_response "Solo puedes editar tus propios comentarios." 403)
                 else
                   updated <- call_mutation (CallUpdateNoteValue noteId noteValue)
                                (updateNoteValue noteId noteValue) ;;
                   ret (NextResponse_json
                          (obj [("success", JBool true);
                                ("data",
                                 obj [("comment",
                                       obj [("id", JNum (saved_id updated));
                                            ("note", JStr (saved_note updated));
                                            ("createdAt", JStr (saved_createdAt updated));
                                            ("user",
                                             match note_user note with
                                             | Some u =>
                                                 obj [("id", JNum (noteuser_id u));
                                                      ("username", JStr (noteuser_username u))]
                                             | None => JNull
                                             end)])])])
                          None)
             end
     end)
    (fun error => ret (error_details "Error al actualizar el comentario." error)).

Definition DELETE (request : Request) (lemma commentId : str) : M Db Response :=
  try_catch
    (user <- call_env CallGetSessionUser (getSessionUser request) ;;
     match user with
     | None => ret (error_response "Autenticación requerida." 401)
     | Some user =>
         let normalizedLemma := normalizeLemma lemma in
         let noteId := parseCommentId commentId in
         if falsy_id noteId
         then ret (error_response "Identificador de comentario inválido." 400)
         else
           let noteId := default NNaN noteId in
           note <- getAuthorizedNote normalizedLemma noteId ;;
           match note with
           | None => ret (error_response "Comentario no encontrado." 404)
           | Some note =>
               if negb (canDelete user note)
               then ret (error_response "No tienes permiso para eliminar este comentario." 403)
               else
                 _ <- call_mutation (CallDeleteNoteById noteId) (deleteNoteById noteId) ;;
                 ret (NextResponse_json
                        (obj [("success", JBool true);
                              ("data", obj [("id", JNum noteId)])])
                        None)
           end
     end)
    (fun error => ret (error_details "Error al eliminar el comentario." error)).
End Route.
End CommentsRoute.

Local Close Scope handler_scope.

(** ** components/word/comment/globe *)

Module Globe.

Record Palette : Type := mkPalette {
  avatarBg : str;
  avatarText : str;
  accentFrom : str;
  accentVia : str;
  accentTo : str;
  bubbleBorder : str;
  bubbleBg : str;
  label : str;
  cardBorder : str;
  cardBg : str;
}.

Definition COLOR_PALETTE : list Palette :=
    [
      mkPalette
        (lit "bg-blue-500/15")
        (lit "text-blue-700")
        (lit "from-blue-500")
        (lit "via-blue-400/80")
        (lit "to-blue-300/70")
        (lit "border-blue-100")
        (lit "bg-blue-50/80")
        (lit "text-blue-600")
        (lit "border-blue-100")
        (lit "bg-blue-50/40");
      mkPalette
        (lit "bg-emerald-500/15")
        (lit "text-emerald-700")
        (lit "from-emerald-500")
        (lit "via-emerald-400/80")
        (lit "to-emerald-300/70")
        (lit "border-emerald-100")
        (lit "bg-emerald-50/80")
        (lit "text-emerald-600")
        (lit "border-emerald-100")
        (lit "bg-emerald-50/40");
      mkPalette
        (lit "bg-amber-500/15")
        (lit "text-amber-700")
        (lit "from-amber-500")
        (lit "via-amber-400/80")
        (lit "to-amber-300/70")
        (lit "border-amber-100")
        (lit "bg-amber-50/80")
        (lit "text-amber-600")
        (lit "border-amber-100")
        (lit "bg-amber-50/40");
      mkPalette
        (lit "bg-purple-500/15")
        (lit "text-purple-700")
        (lit "from-purple-500")
        (lit "via-purple-400/80")
        (lit "to-purple-300/70")
        (lit "border-purple-100")
        (lit "bg-purple-50/80")
        (lit "text-purple-600")
        (lit "border-purple-100")
        (lit "bg-purple-50/40");
      mkPalette
        (lit "bg-rose-500/15")
        (lit "text-rose-700")
        (lit "from-rose-500")
        (lit "via-rose-400/80")
        (lit "to-rose-300/70")
        (lit "border-rose-100")
        (lit "bg-rose-50/80")
        (lit "text-rose-600")
        (lit "border-rose-100")
        (lit "bg-rose-50/40");
      mkPalette
        (lit "bg-slate-500/15")
        (lit "text-slate-700")
        (lit "from-slate-500")
        (lit "via-slate-400/80")
        (lit "to-slate-300/70")
        (lit "border-slate-200")
        (lit "bg-slate-50/80")
        (lit "text-slate-600")
        (lit "border-slate-200")
        (lit "bg-slate-50/40")
    ].

(** One turn of the loop: [hash = (hash << 5) - hash + value.charCodeAt(i);
    hash |= 0]. *)
Definition hash_step (hash : Z) (charCode : N) : Z :=
  toInt32 (shl32 hash 5 - hash + Z.of_N charCode)%Z.

Definition hashString (value : str) : Z :=
  Z.abs (foldl hash_step 0%Z value).

(** The palette entry at [hashString(userKey) % length]; [None] stands
    for [undefined]. On non-negative operands [%] is [Z.rem]. *)
Definition getPaletteForUser (userKey : str) : option Palette :=
  COLOR_PALETTE !! Z.to_nat (Z.rem (hashString userKey) (Z.of_nat (length COLOR_PALETTE))).

End Globe.

(** ** components/word/comment/section *)

Module CommentSection.

Record CommentUser : Type := mkCommentUser {
  comment_user_id : option number;
  comment_user_username : option str;
}.

(** [WordComment], the [WordNote] of [@/lib/definitions]. *)
Record WordComment : Type := mkWordComment {
  id : number;
  user : option CommentUser;
  note : str;
  createdAt : str;
}.

(** The body of the PUT response, as the component types it:
    [{ data?: { comment?: WordComment } }]. *)
Record PutData : Type := mkPutData { data_comment : option WordComment }.
Record PutPayload : Type := mkPutPayload { payload_data : option PutData }.

(** What [await fetch(...)] gives: a rejection, or a response with its
    [ok] flag, its status and what [res.json()] gives. *)
Inductive FetchResult : Type :=
  | FetchRejected (e : exn)
  | FetchResponse (ok : bool) (status : Z) (json : Outcome (option PutPayload)).

(** The two pieces of component state [addComment] writes. *)
Record State : Type := mkState {
  comments : list WordComment;
  error : option str;
}.

Definition setComments (update : list WordComment -> list WordComment) (st : State) : State :=
  mkState (update (comments st)) (error st).

Definition setError (e : option str) (st : State) : State :=
  mkState (comments st) e.

(** What [loadComments] does to the two pieces of state when its
    response arrives with the array [loaded]:
    [setComments(body.data.comments)]. *)
Definition loadComments_arrives (loaded : list WordComment) (st : State) : State :=
  setComments (fun _ => loaded) st.

(** [prev.findIndex(p)]; [None] stands for [-1]. *)
Fixpoint findIndex {A} (p : A -> bool) (prev : list A) : option nat :=
  match prev with
  | [] => None
  | x :: rest => if p x then Some 0%nat else S <$> findIndex p rest
  end.

Section Component.
(** props *)
Variable editorMode : bool.
Variable lemma : str.
(** [useUserRole(editorMode)] *)
Variable isAdmin isLexicographer : bool.
Variable currentId : option number.
Variable username : option str.

Definition optimisticUser : option CommentUser :=
  match currentId with
  | Some n =>
      Some (mkCommentUser (Some n)
              (Some (match username with
                     | Some (c :: rest) => c :: rest
                     | _ => lit "Tú"
                     end)))
  | None =>
      match username with
      | Some (c :: rest) => Some (mkCommentUser None (Some (c :: rest)))
      | _ => None
      end
  end.

(** The comment shown while the request is in flight. [now] is
    [Date.now()], [nowIso] is [new Date().toISOString()]. *)
Definition optimistic_comment (now : Z) (nowIso : str) (trimmed : str) : WordComment :=
  mkWordComment (NInt now) optimisticUser trimmed nowIso.

(** The [try] block after the optimistic update: the saved comment, or
    the jump to [catch]. *)
Definition saved_comment (res : FetchResult) : Outcome WordComment :=
  match res with
  | FetchRejected e => Thrown e
  | FetchResponse ok st json =>
      if negb ok then Thrown (Exn (lit "Failed to create comment. Status " ++ Z_to_str st))
      else
        match json with
        | Thrown e => Thrown e
        | Returned payload =>
            match (payload ≫= payload_data) ≫= data_comment with
            | Some saved => Returned saved
            | None => Thrown (Exn (lit "Missing comment payload"))
            end
        end
  end.

Definition prepend_optimistic (optimistic : WordComment) (prev : list WordComment)
    : list WordComment :=
  optimistic :: prev.

Definition replace_optimistic (optimistic saved : WordComment) (prev : list WordComment)
    : list WordComment :=
  match findIndex (fun comment => number_strict_eq (id comment) (id optimistic)) prev with
  | None => saved :: prev
  | Some index => <[index := saved]> prev
  end.

Definition remove_optimistic (optimistic : WordComment) (prev : list WordComment)
    : list WordComment :=
  List.filter (fun comment => negb (number_strict_eq (id comment) (id optimistic))) prev.

(** [addComment] up to its [await]: either it has returned, or the
    optimistic comment is in the list and the request is in flight. *)
Definition addComment_begin (now : Z) (nowIso : str) (text : str) (st : State)
    : State + (WordComment * State) :=
  let trimmed := trim text in
  if bool_decide (trimmed = []) then inl st
  else if bool_decide (lemma = [])
  then inl (setError (Some (lit "No pudimos asociar el comentario a la palabra actual.")) st)
  else
    let optimistic := optimistic_comment now nowIso trimmed in
    inr (optimistic, setComments (prepend_optimistic optimistic) (setError None st)).

(** [addComment] from the point the request settles. *)
Definition addComment_settle (optimistic : WordComment) (res : FetchResult) (st : State)
    : State :=
  match saved_comment res with
  | Returned saved => setComments (replace_optimistic optimistic saved) st
  | Thrown _ =>
      setError (Some (lit "No pudimos guardar el comentario. Vuelve a intentarlo."))
        (setComments (remove_optimistic optimistic) st)
  end.

(** A whole call. The updaters placed after the [await] run on the state
    of the moment the request settles, not on the state the call left
    when it started waiting: [during] is what the other writers of the
    state (the [initial] effect, [loadComments], the other handlers)
    did to it while the request was in flight. *)
Definition addComment (now : Z) (nowIso : str) (during : State -> State)
    (res : FetchResult) (text : str) (st : State) : State :=
  match addComment_begin now nowIso text st with
  | inl done => done
  | inr (optimistic, pending) => addComment_settle optimistic res (during pending)
  end.

(** [typeof currentId === 'number' && typeof comment.user?.id === 'number'
    && comment.user.id === currentId] *)
Definition owns (comment : WordComment) : bool :=
  match currentId, user comment ≫= comment_user_id with
  | Some mine, Some theirs => number_strict_eq theirs mine
  | _, _ => false
  end.

Definition canEditComment (comment : WordComment) : bool :=
  if negb editorMode then false
  else
    let ownsComment := owns comment in
    if negb ownsComment then false
    else isLexicographer || isAdmin.

Definition canDeleteComment (comment : WordComment) : bool :=
  if negb editorMode then false
  else
    let ownComment := owns comment in
    (isLexicographer && ownComment) || isAdmin.
End Component.

End CommentSection.

(** ** A small store to run the handlers on

    Stand-ins for the modules the routes import ([@/lib/rate-limiting],
    [@/lib/auth], [@/lib/queries], [@/lib/editor-mutations]), used to
    run the handlers on concrete requests. The properties below are
    stated for every implementation of those modules. *)

Module Sample.

Record Store : Type := mkStore {
  store_words : list str;
  store_notes : list (number * NoteDetails);
}.

Definition applyRateLimit_open (_ : Request) : Outcome bool := Returned true.
Definition applyRateLimit_closed (_ : Request) : Outcome bool := Returned false.

Definition isEditorModeFromHeaders (hs : list (str * str)) : bool :=
  bool_decide ((lit "x-editor-mode", lit "true") ∈ hs).

Definition session (u : option SessionUser) (_ : Request) : Outcome (option SessionUser) :=
  Returned u.

Definition getWordByLemma (lemma : str) (_ : option QueryOptions) (d : Store)
    : Outcome (option JsVal) :=
  Returned (if bool_decide (lemma ∈ store_words d)
            then Some (obj [("lemma", JStr lemma)]) else None).

Definition createWord (w : Word) (o : CreateWordOptions) (d : Store)
    : Outcome CreateWordResult * Store :=
  (Returned (mkCreateWordResult
               (NInt (Z.of_nat (length (store_words d)) + 1))
               (word_lemma w)
               (default (take 1 (word_lemma w)) (opt_letter o))),
   mkStore (word_lemma w :: store_words d) (store_notes d)).

Definition updateWordByLemma (lemma : str) (_ _ _ : JsVal) (d : Store)
    : Outcome unit * Store :=
  (Returned tt, d).

Definition deleteWordByLemma (lemma : str) (d : Store) : Outcome unit * Store :=
  (Returned tt,
   mkStore (List.filter (fun l => negb (bool_decide (l = lemma))) (store_words d))
           (store_notes d)).

Definition stamp : str := lit "2025-11-26T12:00:00.000Z".

Definition addNoteToWord (lemma note : str) (userId : option number) (d : Store)
    : Outcome SavedNote * Store :=
  let n := NInt (Z.of_nat (length (store_notes d)) + 1) in
  (Returned (mkSavedNote n note stamp None),
   mkStore (store_words d)
           (store_notes d ++ [(n, mkNoteDetails userId (Some lemma) None)])).

Fixpoint find_note (id : number) (notes : list (number * NoteDetails)) : option NoteDetails :=
  match notes with
  | (k, n) :: rest => if bool_decide (k = id) then Some n else find_note id rest
  | [] => None
  end.

Definition getNoteWithDetails (id : number) (d : Store) : Outcome (option NoteDetails) :=
  Returned (find_note id (store_notes d)).

Definition updateNoteValue (id : number) (value : str) (d : Store)
    : Outcome SavedNote * Store :=
  (Returned (mkSavedNote id value stamp None), d).

Definition deleteNoteById (id : number) (d : Store) : Outcome unit * Store :=
  (Returned tt,
   mkStore (store_words d)
           (List.filter (fun kn => negb (bool_decide (kn.1 = id))) (store_notes d))).

Definition admin : SessionUser := mkSessionUser (Some (lit "7")) (Some (lit "admin")).
Definition lexicographer : SessionUser :=
  mkSessionUser (Some (lit "12")) (Some (lit "lexicographer")).

(** One word, and one note on it written by user 12. *)
Definition store : Store :=
  mkStore [lit "casa"]
          [(NInt 3, mkNoteDetails (Some (NInt 12)) (Some (lit "casa"))
                      (Some (mkNoteUser (NInt 12) (lit "ana"))))].

Definition request (payload : JsVal) : Request := mkRequest [] [] (Returned payload).

Definition MEANING_MARKER_KEYS : list str :=
  [lit "socialValuations"; lit "styleMarkers"; lit "geographicalMarkers"].

End Sample.

(** A [values] array: a number, [null], a blank meaning and a full one. *)
Definition sample_values : JsVal :=
  JArr [JNum (NInt 4); JNull;
        obj [("meaning", JStr (lit "  "))];
        obj [("number", JNum (NInt 7)); ("meaning", JStr (lit "vivienda"));
             ("styleMarkers", JStr (lit "coloquial"));
             ("examples", JArr [obj [("value", JStr (lit "mi casa"))]])]].

(** A comment list as the section holds it, and a failed PUT. *)
Definition sample_comments : CommentSection.State :=
  CommentSection.mkState
    [CommentSection.mkWordComment (NInt 3)
       (Some (CommentSection.mkCommentUser (Some (NInt 12)) (Some (lit "ana"))))
       (lit "revisar la marca") Sample.stamp]
    None.

Definition failed_put : CommentSection.FetchResult :=
  CommentSection.FetchResponse false 500 (Returned None).

(** The note of the sample store. *)
Definition sample_note : NoteDetails :=
  mkNoteDetails (Some (NInt 12)) (Some (lit "casa"))
    (Some (mkNoteUser (NInt 12) (lit "ana"))).

(** A request made from the editor: [?editorMode=true]. *)
Definition editor_request : Request :=
  mkRequest [] [(lit "editorMode", lit "true")] (Returned JNull).

(** A run starts with an empty list of calls. *)
Definition fresh {Db} (d : Db) : World Db := mkWorld d [].

Definition status_of (o : Outcome Response) : option Z :=
  match o with
  | Returned r => Some (status r)
  | Thrown _ => None
  end.

(** [depth] arrays around [v], each holding it as its first element
    before [padding]. *)
Fixpoint nested (depth : nat) (padding : list JsVal) (v : JsVal) : JsVal :=
  match depth with
  | O => v
  | S depth' => JArr (nested depth' padding v :: padding)
  end.

(** The names of the fixed fields of a [Meaning]. *)
Definition FIXED_FIELDS : list str :=
  [lit "number"; lit "meaning"; lit "origin"; lit "grammarCategory";
   lit "remission"; lit "observation"; lit "examples"; lit "variant"].

Definition delete_called (calls : list Call) : Prop :=
  exists l, CallDeleteWordByLemma l ∈ calls.

Definition has_admin_role (u : SessionUser) : Prop :=
  user_role u = Some (lit "admin") \/ user_role u = Some (lit "superadmin").

(** A run that was turned away by the rate limiter: 429, no call that
    reaches the database, and the database as it was. *)
Definition turned_away {Db} (run : Outcome Response * World Db) (d : Db) : Prop :=
  status_of run.1 = Some 429%Z
  /\ (forall c, c ∈ trace run.2 -> is_database_call c = false)
  /\ db run.2 = d.

(** A computation only ever adds to the list of calls. *)
Definition appends {Db A} (m : M Db A) : Prop :=
  forall w, exists calls, trace (m w).2 = trace w ++ calls.

(** What [extractMarkerValues] binds a key to. *)
Definition marker_of (source : JsVal) (k : str) : JsVal :=
  match own_prop source k with
  | JStr s => JStr s
  | _ => JNull
  end.

(** The note's [userId] is the requester's parsed id. *)
Definition owns_note (u : SessionUser) (note : NoteDetails) : Prop :=
  exists s z, user_id u = Some s /\ s <> [] /\ parseInt10 s = NInt z
              /\ note_userId note = Some (NInt z).

Definition may_delete_note (u : SessionUser) (note : NoteDetails) : Prop :=
  (user_role u = Some (lit "lexicographer") /\ owns_note u note) \/ has_admin_role u.

Definition may_edit_note (u : SessionUser) (note : NoteDetails) : Prop :=
  owns_note u note
  /\ (user_role u = Some (lit "lexicographer") \/ has_admin_role u).

(** The comment's author is the current user. *)
Definition owns_comment (currentId : option number) (comment : CommentSection.WordComment)
    : Prop :=
  exists n, n <> NNaN /\ currentId = Some n
            /\ CommentSection.user comment ≫= CommentSection.comment_user_id = Some n.

(** The answers of the comment handlers on success. *)
Definition deleted_response (noteId : number) : Response :=
  NextResponse_json
    (obj [("success", JBool true); ("data", obj [("id", JNum noteId)])]) None.

Definition updated_response (updated : SavedNote) (note : NoteDetails) : Response :=
  NextResponse_json
    (obj [("success", JBool true);
          ("data",
           obj [("comment",
                 obj [("id", JNum (saved_id updated));
                      ("note", JStr (saved_note updated));
                      ("createdAt", JStr (saved_createdAt updated));
                      ("user",
                       match note_user note with
                       | Some u =>
                           obj [("id", JNum (noteuser_id u));
                                ("username", JStr (noteuser_username u))]
                       | None => JNull
                       end)])])])
    None.

(** The options GET passes to [getWordByLemma]: drafts are included
    exactly in editor mode. *)
Definition query_options (editorMode : bool) : option QueryOptions :=
  if editorMode then Some (mkQueryOptions true) else None.

Definition found_response (data : JsVal) : Response :=
  NextResponse_json (obj [("success", JBool true); ("data", data)]) None.

(** A body whose properties can be read: any JSON value but [null]. *)
Definition readable (payload : JsVal) : Prop :=
  match payload with
  | JNull | JUndefined => False
  | _ => True
  end.

Definition created_response (result : CreateWordResult) : Response :=
  NextResponse_json
    (obj [("success", JBool true);
          ("data", obj [("wordId", JNum (result_wordId result));
                        ("lemma", JStr (result_lemma result));
                        ("letter", JStr (result_letter result))])])
    (Some 201%Z).

Definition create_called (calls : list Call) : Prop :=
  exists word options, CallCreateWord word options ∈ calls.

(** A handler that answers whenever it returns, with a status among
    [codes]. *)
Definition within {Db} (codes : list Z) (m : M Db Response) : Prop :=
  forall w, match (m w).1 with
            | Returned r => status r ∈ codes
            | Thrown _ => True
            end.

(** A handler that always answers, with a status among [codes]. *)
Definition answers {Db} (codes : list Z) (m : M Db Response) : Prop :=
  forall w, exists r, (m w).1 = Returned r /\ status r ∈ codes.

(** A body PUT accepts: an object or an array. *)
Definition is_object (body : JsVal) : Prop :=
  typeof body = TObject /\ body <> JNull.

(** PUT's answer on success, with the created comment when there is one. *)
Definition put_success (comment : option JsVal) : Response :=
  NextResponse_json
    (obj (("success", JBool true)
          :: match comment with
             | Some c => [("data", obj [("comment", c)])]
             | None => []
             end))
    None.

(** The body carries no comment to add. *)
Definition no_comment (body : JsVal) : Prop :=
  forall c, own_prop body (lit "comment") = JStr c -> trim c = [].

(** Bodies for PUT: a word alone, a comment alone, and both. *)
Definition put_word_body : JsVal :=
  obj [("word", obj [("lemma", JStr (lit "casa"))]); ("status", JStr (lit "redacted"))].

Definition put_comment_body : JsVal :=
  obj [("comment", JStr (lit " revisar "))].

Definition put_both_body : JsVal :=
  obj [("word", obj [("lemma", JStr (lit "casa"))]); ("comment", JStr (lit " revisar "))].

(** A PATCH body with a note. *)
Definition patch_body : JsVal := obj [("note", JStr (lit " corregido "))].

(** A request without a body, as the section sends for a DELETE:
    [request.json()] rejects. *)
Definition bodiless_request : Request :=
  mkRequest [] [] (Thrown (Exn (lit "Unexpected end of JSON input"))).

(** A [values] array whose items carry no number. *)
Definition unnumbered_values : JsVal :=
  JArr [JNull; obj [("meaning", JStr (lit "uno"))]; JNum (NInt 9);
        obj [("meaning", JStr (lit "dos"))]].

(** The blank meaning of [sample_values] comes out with a text. *)
Definition forall_filled_sample : Prop :=
  exists s,
    WordsRoute.normalize_item Sample.MEANING_MARKER_KEYS 0
      (obj [("meaning", JStr (lit "  "))]) !! lit "meaning" = Some (JStr s)
    /\ trim s <> [].

(** ** src/lib/report-words-utils.ts and the report route

    The helpers of the words report and the [GET] handler that serves
    the PDF. [getSessionUser] reads the session from the cookies of the
    request being served, [getWordsByStatus] is a query of
    [@/lib/queries] and [generatePDFreport] comes from [@/lib/pdf-utils]. *)

Module Report.

(** The session user, as far as the report reads it. *)
Record User : Type := mkUser { email : str; name : option str }.

Record RawNoteUser : Type := mkRawNoteUser { raw_username : option str }.

(** A note as the query returns it. The [Date] of [createdAt] is kept
    by its [toISOString()] text. *)
Record RawNote : Type := mkRawNote {
  raw_note : option str;
  raw_createdAt : option str;
  raw_user : option RawNoteUser;
}.

Record RawRedactedWord : Type := mkRawRedactedWord {
  raw_lemma : str;
  raw_root : str;
  raw_letter : str;
  raw_meanings : JsVal;
  raw_notes : option (list RawNote);
  raw_status : str;
}.

Record PDFNote : Type := mkPDFNote {
  pdf_note : option str;
  pdf_date : option str;
  pdf_user : option str;
}.

Record PDFWord : Type := mkPDFWord {
  pdf_lemma : str;
  pdf_root : str;
  pdf_letter : str;
  pdf_meanings : JsVal;
  pdf_notes : option (list PDFNote);
  pdf_status : str;
}.

(** The calls made outside the two files, in order. *)
Inductive Event : Type :=
  | GetSessionUser
  | GetWordsByStatus (statuses : list str)
  | GeneratePDFreport (words : list PDFWord) (type : str).

(** A run: what it returned or threw, and the calls it made. *)
Definition Run (A : Type) : Type := Outcome A * list Event.

Definition done {A} (a : A) : Run A := (Returned a, []).

Definition call {A} (c : Event) (result : Outcome A) : Run A := (result, [c]).

Definition and_then {A B} (m : Run A) (k : A -> Run B) : Run B :=
  match m with
  | (Returned a, calls) => let r := k a in (r.1, calls ++ r.2)
  | (Thrown e, calls) => (Thrown e, calls)
  end.

(** [try { m } catch (error) { return handler }] *)
Definition catch {A} (m : Run A) (handler : exn -> A) : Run A :=
  match m with
  | (Thrown e, calls) => (Returned (handler e), calls)
  | r => r
  end.

(** What [authenticateAndFetchWordsByStatus] resolves to:
    [{ success: false, response }] or [{ success: true, user, words }]. *)
Inductive AuthResult : Type :=
  | Failure (response : Response)
  | Success (user : User) (words : list RawRedactedWord).

(** What the route answers: a JSON response, or the file built with
    [new Response(bytes, { status, headers })]. *)
Inductive Reply : Type :=
  | Json (response : Response)
  | File (content : list N) (status : Z) (contentType : str)
         (contentDisposition : option str).

Definition reply_status (r : Reply) : Z :=
  match r with
  | Json response => status response
  | File _ st _ _ => st
  end.

Definition mapNotes (notes : option (list RawNote)) : option (list PDFNote) :=
  match notes with
  | None | Some [] => None
  | Some notes =>
      Some ((fun note =>
               mkPDFNote (raw_note note) (raw_createdAt note)
                 (raw_user note ≫= raw_username)) <$> notes)
  end.

Definition mapWordsByStatusToPdf (words : list RawRedactedWord) : list PDFWord :=
  (fun word =>
     mkPDFWord (raw_lemma word) (raw_root word) (raw_letter word) (raw_meanings word)
       (mapNotes (raw_notes word)) (raw_status word)) <$> words.

Definition filenameMap : list (str * str) :=
  [(lit "redacted", lit "reporte_redactadas.pdf");
   (lit "reviewedLex", lit "reporte_revisadas.pdf");
   (lit "both", lit "reporte_completo.pdf")].

(** [map[key]] for a key the object literal lists. *)
Fixpoint own_key (key : str) (map : list (str * str)) : option str :=
  match map with
  | (k, v) :: rest => if bool_decide (key = k) then Some v else own_key key rest
  | [] => None
  end.

(** The [Content-Disposition] header for a [type] that is a key of
    [filenameMap]. For another [type] the template prints what the
    lookup finds along the prototype chain; that text is not modelled,
    and the header is [None] here. *)
Definition contentDisposition (type : str) : option str :=
  (fun filename => lit "attachment; filename=" ++ [34] ++ filename ++ [34])
    <$> own_key type filenameMap.

Section Route.
Variable getSessionUser : Outcome (option User).
Variable getWordsByStatus : list str -> Outcome (list RawRedactedWord).
Variable generatePDFreport : list PDFWord -> str -> Outcome (list N).

Definition authenticateAndFetchWordsByStatus (filter : str) : Run AuthResult :=
  and_then (call GetSessionUser getSessionUser) (fun user =>
  match user with
  | None =>
      done (Failure (NextResponse_json
                       (obj [("error", JStr (lit "Authentication required"))])
                       (Some 401%Z)))
  | Some user =>
      let statuses :=
        if bool_decide (filter = lit "both") then [lit "redacted"; lit "reviewedLex"]
        else [filter] in
      and_then (call (GetWordsByStatus statuses) (getWordsByStatus statuses)) (fun words =>
      done (Success (mkUser (email user) (name user)) words))
  end).

Definition authenticateAndFetchRedactedWords : Run AuthResult :=
  authenticateAndFetchWordsByStatus (lit "redacted").

(** [searchParams.get('type') || 'redacted'] *)
Definition report_type (request : Request) : str :=
  match searchParams_get (lit "type") (searchParams request) with
  | Some (c :: rest) => c :: rest
  | _ => lit "redacted"
  end.

Definition GET (request : Request) : Run Reply :=
  catch
    (let type := report_type request in
     and_then (authenticateAndFetchWordsByStatus type) (fun result =>
     match result with
     | Failure response => done (Json response)
     | Success _ words =>
         let pdfReadyWords := mapWordsByStatusToPdf words in
         and_then (call (GeneratePDFreport pdfReadyWords type)
                     (generatePDFreport pdfReadyWords type)) (fun pdfBytes =>
         done (File pdfBytes 200 (lit "application/pdf") (contentDisposition type)))
     end))
    (fun _ =>
       Json (NextResponse_json (obj [("error", JStr (lit "Failed to generate report"))])
               (Some 500%Z))).
End Route.

End Report.

(** ** Promises

    What an awaited promise settles to, for the code that inspects the
    value it catches ([error instanceof Error ? error.message : ...]). *)

Inductive Reason : Type :=
  | ErrorInstance (message : str)
  | NotAnError.

Inductive Settled (A : Type) : Type :=
  | Fulfilled (a : A)
  | Rejected (reason : Reason).
Arguments Fulfilled {A} a.
Arguments Rejected {A} reason.

(** ** src/lib/report-words-utils.ts, the email helpers

    [Resend] is the client of the [resend] package, [render] comes from
    [@react-email/components], [PasswordEmail] and [WordsReportEmail] are
    the templates of [@/components/emails] and [formatSpanishDate] comes
    from [@/lib/date-utils]. What is written to the console is left
    out. *)

Module Email.

Definition FROM_EMAIL : str := lit "soporte@duech.cl".

Record Attachment : Type := mkAttachment { filename : str; content : list N }.

(** The argument of [resend.emails.send]. *)
Record Message : Type := mkMessage {
  from : str;
  to : str;
  subject : str;
  html : str;
  attachments : option (list Attachment);
}.

(** What [resend.emails.send] resolves to, as far as it is read:
    [result.error], kept by its [message]. *)
Record SendResult : Type := mkSendResult { result_error : option str }.

(** [{ success: boolean; error?: string }] *)
Record Sent : Type := mkSent { success : bool; error : option str }.

Inductive PasswordEmailVariant : Type := welcome | reset | changed.

Definition variant_name (variant : PasswordEmailVariant) : str :=
  match variant with
  | welcome => lit "welcome"
  | reset => lit "reset"
  | changed => lit "changed"
  end.

Record PasswordEmailParagraph : Type := mkParagraph {
  text : str;
  className : option str;
}.

(** [React.createElement(Text, { className }, children)] *)
Record TextElement : Type := mkTextElement {
  element_className : str;
  element_children : str;
}.

Record PasswordEmailProps : Type := mkPasswordEmailProps {
  props_username : str;
  props_variant : PasswordEmailVariant;
  paragraphs : list PasswordEmailParagraph;
  buttonText : option str;
  buttonLink : option str;
  showInfoBox : option bool;
  infoBoxContent : option TextElement;
  alertContent : option TextElement;
}.

Record WordsReportEmailProps : Type := mkWordsReportEmailProps {
  report_username : str;
  dateStr : str;
}.

Record Config : Type := mkConfig {
  config_subject : str;
  getParagraphs : option str -> list PasswordEmailParagraph;
  needsButton : bool;
  getButtonText : option str;
  config_showInfoBox : option bool;
  getInfoBoxContent : option TextElement;
  getAlertContent : option TextElement;
}.

Definition createEmailParagraph (text : str) (className : option str)
    : PasswordEmailParagraph :=
  mkParagraph text className.

(** [value.split(separator)[0]] *)
Fixpoint before_first (separator : N) (value : str) : str :=
  match value with
  | c :: rest => if bool_decide (c = separator) then [] else c :: before_first separator rest
  | [] => []
  end.

Section Mailer.
(** [Date], the [Resend] client and what the templates return *)
Variable Date Resend Element : Type.
(** [process.env] *)
Variable RESEND_API_KEY HOST_URL : option str.
(** [new Resend(key)] and [resend.emails.send(message)] *)
Variable newResend : option str -> Settled Resend.
Variable emails_send : Resend -> Message -> Settled SendResult.
(** the templates applied to their props, and [render] *)
Variable PasswordEmail : PasswordEmailProps -> Settled Element.
Variable WordsReportEmail : WordsReportEmailProps -> Settled Element.
Variable render : Element -> Settled str.
Variable formatSpanishDate : Date -> str.
(** [date.toISOString()] and
    [date.toLocaleString('es-CL', { timeZone: 'America/Santiago', ... })] *)
Variable toISOString : Date -> str.
Variable toLocaleString : Date -> str.

(** The calls made outside the file, in order. *)
Inductive Event : Type :=
  | NewResend (key : option str)
  | EmailsSend (resend : Resend) (message : Message)
  | CallPasswordEmail (props : PasswordEmailProps)
  | CallWordsReportEmail (props : WordsReportEmailProps)
  | Render (element : Element).

(** A run from a value of [resendInstance]: what it settles to, the
    [resendInstance] it leaves and the calls it made. *)
Definition Mail (A : Type) : Type :=
  option Resend -> Settled A * option Resend * list Event.

Definition ret {A} (a : A) : Mail A := fun instance => (Fulfilled a, instance, []).

Definition bind {A B} (m : Mail A) (k : A -> Mail B) : Mail B :=
  fun instance =>
    match m instance with
    | (Fulfilled a, instance', calls) =>
        let '(r, instance'', calls') := k a instance' in (r, instance'', calls ++ calls')
    | (Rejected reason, instance', calls) => (Rejected reason, instance', calls)
    end.

Definition try_catch {A} (m : Mail A) (handler : Reason -> Mail A) : Mail A :=
  fun instance =>
    match m instance with
    | (Rejected reason, instance', calls) =>
        let '(r, instance'', calls') := handler reason instance' in
        (r, instance'', calls ++ calls')
    | r => r
    end.

Definition call {A} (c : Event) (result : Settled A) : Mail A :=
  fun instance => (result, instance, [c]).

Definition getResend : Mail Resend :=
  fun resendInstance =>
    match resendInstance with
    | Some resend => (Fulfilled resend, resendInstance, [])
    | None =>
        match newResend RESEND_API_KEY with
        | Fulfilled resend => (Fulfilled resend, Some resend, [NewResend RESEND_API_KEY])
        | Rejected reason => (Rejected reason, None, [NewResend RESEND_API_KEY])
        end
    end.

Definition sendEmail (to subject htmlContent logPrefix : str)
    (attachments : option (list Attachment)) : Mail Sent :=
  try_catch
    (bind getResend (fun resend =>
     let message :=
       mkMessage FROM_EMAIL to subject htmlContent
         ((fun atts : list Attachment => (fun att => mkAttachment (filename att) (content att)) <$> atts)
            <$> attachments) in
     bind (call (EmailsSend resend message) (emails_send resend message)) (fun result =>
     match result_error result with
     | Some message => ret (mkSent false (Some message))
     | None => ret (mkSent true None)
     end)))
    (fun error =>
       ret (mkSent false
              (Some (match error with
                     | ErrorInstance message => message
                     | NotAnError => lit "Unknown error"
                     end)))).

Definition createResetLink (resetToken : str) : str :=
  let editorHost :=
    match HOST_URL with
    | Some (c :: rest) => c :: rest
    | _ => lit "editor.localhost:3000"
    end in
  lit "http://" ++ editorHost ++ lit "/cambiar-contrasena?token=" ++ resetToken.

Definition PASSWORD_EMAIL_CONFIGS (now : Date) (variant : PasswordEmailVariant) : Config :=
  match variant with
  | welcome =>
      mkConfig (lit "Bienvenido a DUECh en línea")
        (fun _ =>
           [createEmailParagraph
              (lit "Tu cuenta en el Diccionario de Uso del Español de Chile (DUECh) ha sido creada exitosamente.")
              None;
            createEmailParagraph
              (lit "Para comenzar a usar tu cuenta, necesitas establecer tu contraseña. Haz clic en el botón de abajo para crear tu contraseña:")
              None])
        true (Some (lit "Establecer mi contraseña")) None None None
  | reset =>
      mkConfig (lit "Restablece tu contraseña de DUECh en línea")
        (fun _ =>
           [createEmailParagraph
              (lit "Hemos recibido una solicitud para restablecer tu contraseña en DUECh en línea.")
              None;
            createEmailParagraph
              (lit "Haz clic en el botón de abajo para establecer una nueva contraseña:")
              None])
        true (Some (lit "Restablecer contraseña")) None None
        (Some (mkTextElement (lit "m-0")
                 (lit "Si no solicitaste restablecer tu contraseña, puedes ignorar este correo de forma segura.")))
  | changed =>
      mkConfig (lit "Tu contraseña ha sido actualizada")
        (fun _ =>
           [createEmailParagraph
              (lit "Tu contraseña ha sido actualizada exitosamente. Ya puedes iniciar sesión con tu nueva contraseña.")
              None])
        false None (Some true)
        (Some (mkTextElement (lit "m-0 text-sm leading-relaxed text-gray-600")
                 (lit "Fecha: " ++ toLocaleString now)))
        (Some (mkTextElement (lit "m-0 text-sm text-red-600")
                 (lit "Si no realizaste este cambio, por favor contacta inmediatamente a nuestro equipo de soporte en soporte@duech.cl")))
  end.

(** The props built by [sendPasswordEmailWithVariant]. [now] is the
    [new Date()] of the information box. *)
Definition emailProps (now : Date) (username : str) (variant : PasswordEmailVariant)
    (resetLink : option str) : PasswordEmailProps :=
  let config := PASSWORD_EMAIL_CONFIGS now variant in
  let button :=
    match resetLink with
    | Some (c :: rest) => if needsButton config then Some (c :: rest) else None
    | _ => None
    end in
  let infoBox := bool_decide (config_showInfoBox config = Some true) in
  mkPasswordEmailProps username variant (getParagraphs config resetLink)
    (button ≫= fun _ => getButtonText config)
    button
    (if infoBox then Some true else None)
    (if infoBox then getInfoBoxContent config else None)
    (getAlertContent config).

Definition sendPasswordEmailWithVariant (now : Date) (to username : str)
    (variant : PasswordEmailVariant) (resetLink : option str) : Mail Sent :=
  let config := PASSWORD_EMAIL_CONFIGS now variant in
  let emailProps := emailProps now username variant resetLink in
  bind (call (CallPasswordEmail emailProps) (PasswordEmail emailProps)) (fun element =>
  bind (call (Render element) (render element)) (fun emailHtml =>
  sendEmail to (config_subject config) emailHtml (variant_name variant ++ lit " email") None)).

Definition sendWelcomeEmail (now : Date) (email username resetToken : str) : Mail Sent :=
  let resetLink := createResetLink resetToken in
  sendPasswordEmailWithVariant now email username welcome (Some resetLink).

Definition sendPasswordChangeConfirmation (now : Date) (email username : str) : Mail Sent :=
  sendPasswordEmailWithVariant now email username changed None.

Definition sendPasswordResetEmail (now : Date) (email username resetToken : str)
    : Mail Sent :=
  let resetLink := createResetLink resetToken in
  sendPasswordEmailWithVariant now email username reset (Some resetLink).

Definition sendWordsReport (now : Date) (email username : str) (pdfBuffer : list N)
    : Mail Sent :=
  let dateStr := formatSpanishDate now in
  let props := mkWordsReportEmailProps username dateStr in
  bind (call (CallWordsReportEmail props) (WordsReportEmail props)) (fun element =>
  bind (call (Render element) (render element)) (fun emailHtml =>
  sendEmail email (lit "Reporte de palabras - DUECh en línea") emailHtml (lit "words report")
    (Some [mkAttachment
             (lit "reporte_palabras_" ++ before_first 84 (toISOString now) ++ lit ".pdf")
             pdfBuffer]))).
End Mailer.

Arguments NewResend {Resend Element} key.
Arguments EmailsSend {Resend Element} resend message.
Arguments CallPasswordEmail {Resend Element} props.
Arguments CallWordsReportEmail {Resend Element} props.
Arguments Render {Resend Element} element.

End Email.

(** The arguments of one [sendEmail] call. *)
Record SendEmailArgs : Type := mkSendEmailArgs {
  args_to : str;
  args_subject : str;
  args_htmlContent : str;
  args_logPrefix : str;
  args_attachments : option (list Email.Attachment);
}.

(** Runs made one after the other, each from the [resendInstance] the
    one before left: the last [resendInstance] and all the calls. *)
Fixpoint in_turn {Resend Element A : Type} (runs : list (Email.Mail Resend Element A))
    (instance : option Resend) : option Resend * list (Email.Event Resend Element) :=
  match runs with
  | [] => (instance, [])
  | run :: rest =>
      let '(_, instance', calls) := run instance in
      let '(final, calls') := in_turn rest instance' in
      (final, calls ++ calls')
  end.

(** What [await fetch(...)] followed by [await response.json()] gives a
    component: a rejected request, or a response with its [ok] flag
    and the settled body. *)
Inductive Fetched (P : Type) : Type :=
  | FetchRejected (reason : Reason)
  | Responded (ok : bool) (json : Settled P).
Arguments FetchRejected {P} reason.
Arguments Responded {P} ok json.

(** ** components/export-words/exported-words-client *)

Module ExportedWords.

(** ['all' | 'redacted' | 'reviewed'] *)
Inductive Tab : Type := all | redacted | reviewed.

Record ExportedWord : Type := mkExportedWord {
  id : number;
  lemma : str;
  status : str;
  notes : option (list (number * option str));
}.

Record State : Type := mkState {
  activeTab : Tab;
  isSending : bool;
  successMessage : option str;
  (** typed [string | null]; it holds whatever [data.error] is *)
  errorMessage : option JsVal;
}.

Definition setActiveTab (tab : Tab) (st : State) : State :=
  mkState tab (isSending st) (successMessage st) (errorMessage st).
Definition setIsSending (b : bool) (st : State) : State :=
  mkState (activeTab st) b (successMessage st) (errorMessage st).
Definition setSuccessMessage (m : option str) (st : State) : State :=
  mkState (activeTab st) (isSending st) m (errorMessage st).
Definition setErrorMessage (m : option JsVal) (st : State) : State :=
  mkState (activeTab st) (isSending st) (successMessage st) m.

(** [data.key] on a parsed body: reading a property of [null] throws. *)
Definition read (data : JsVal) (key : string) : Settled JsVal :=
  match data with
  | JNull | JUndefined =>
      Rejected (ErrorInstance (lit "Cannot read properties of null or undefined"))
  | _ => Fulfilled (own_prop data (lit key))
  end.

Section Component.
(** props *)
Variable redactedWords reviewedLexWords : list ExportedWord.
(** the text a template literal gives for a value, or what the
    conversion throws for a value that has none *)
Variable template_text : JsVal -> Settled str.

Definition allWords : list ExportedWord := redactedWords ++ reviewedLexWords.

Definition displayWords (st : State) : list ExportedWord :=
  match activeTab st with
  | redacted => redactedWords
  | reviewed => reviewedLexWords
  | all => allWords
  end.

Definition getReportType (st : State) : str :=
  match activeTab st with
  | redacted => lit "redacted"
  | reviewed => lit "reviewedLex"
  | all => lit "both"
  end.

(** The query of the download link,
    [/api/words/report?type=${getReportType()}]. *)
Definition download_query (st : State) : list (str * str) :=
  [(lit "type", getReportType st)].

(** The [try] block of [handleSendEmail] once the request has settled:
    the state it leaves, or what it throws. *)
Definition send_attempt (res : Fetched JsVal) (st : State) : Settled State :=
  match res with
  | FetchRejected reason => Rejected reason
  | Responded ok (Rejected reason) => Rejected reason
  | Responded ok (Fulfilled data) =>
      let failed :=
        if negb ok then Fulfilled true
        else match read data "success" with
             | Fulfilled success => Fulfilled (negb (truthy success))
             | Rejected reason => Rejected reason
             end in
      match failed with
      | Rejected reason => Rejected reason
      | Fulfilled true =>
          match read data "error" with
          | Fulfilled error =>
              Fulfilled
                (setErrorMessage
                   (Some (if truthy error then error
                          else JStr (lit "Error al enviar el correo")))
                   st)
          | Rejected reason => Rejected reason
          end
      | Fulfilled false =>
          match read data "email" with
          | Fulfilled email =>
              match template_text email with
              | Fulfilled text =>
                  Fulfilled
                    (setSuccessMessage
                       (Some (lit "Reporte enviado exitosamente a " ++ text)) st)
              | Rejected reason => Rejected reason
              end
          | Rejected reason => Rejected reason
          end
      end
  end.

(** [handleSendEmail] up to its [await]. *)
Definition handleSendEmail_begin (st : State) : str * State :=
  let type := getReportType st in
  (type, setErrorMessage None (setSuccessMessage None (setIsSending true st))).

(** [handleSendEmail] from the point the request settles. *)
Definition handleSendEmail_settle (res : Fetched JsVal) (st : State) : State :=
  setIsSending false
    match send_attempt res st with
    | Fulfilled st' => st'
    | Rejected _ =>
        setErrorMessage
          (Some (JStr (lit "Error al enviar el correo. Por favor, intenta nuevamente.")))
          st
    end.

Definition handleSendEmail (res : Fetched JsVal) (st : State) : State :=
  handleSendEmail_settle res (handleSendEmail_begin st).2.

Definition getStatusLabel (status : str) : str :=
  if bool_decide (status = lit "redacted") then lit "Redactada"
  else lit "Revisada por lexicógrafo".

Definition getStatusBadgeColor (status : str) : str :=
  if bool_decide (status = lit "redacted") then lit "bg-yellow-100 text-yellow-800"
  else lit "bg-green-100 text-green-800".
End Component.

End ExportedWords.

(** ** components/word/comment/section, editing and deleting

    The section's state in full, and the handlers that edit and delete
    a comment. A handler reads the state of the render it was created
    in, and its updates after the [await] apply to the state of that
    moment. *)

Module CommentEditing.

Record State : Type := mkState {
  comments : list CommentSection.WordComment;
  loading : bool;
  error : option str;
  editingId : option number;
  editingValue : str;
  savingEdit : bool;
  deletingId : option number;
}.

Definition setComments
    (update : list CommentSection.WordComment -> list CommentSection.WordComment)
    (st : State) : State :=
  mkState (update (comments st)) (loading st) (error st) (editingId st) (editingValue st)
    (savingEdit st) (deletingId st).
Definition setError (e : option str) (st : State) : State :=
  mkState (comments st) (loading st) e (editingId st) (editingValue st) (savingEdit st)
    (deletingId st).
Definition setEditingId (n : option number) (st : State) : State :=
  mkState (comments st) (loading st) (error st) n (editingValue st) (savingEdit st)
    (deletingId st).
Definition setEditingValue (v : str) (st : State) : State :=
  mkState (comments st) (loading st) (error st) (editingId st) v (savingEdit st)
    (deletingId st).
Definition setSavingEdit (b : bool) (st : State) : State :=
  mkState (comments st) (loading st) (error st) (editingId st) (editingValue st) b
    (deletingId st).
Definition setDeletingId (update : option number -> option number) (st : State) : State :=
  mkState (comments st) (loading st) (error st) (editingId st) (editingValue st)
    (savingEdit st) (update (deletingId st)).

(** [{ success?: boolean; error?: string; data?: { comment?: WordComment } }] *)
Record PatchPayload : Type := mkPatchPayload {
  patch_success : option bool;
  patch_error : option str;
  patch_data : option CommentSection.PutData;
}.

(** [{ success?: boolean; error?: string }] *)
Record DeletePayload : Type := mkDeletePayload {
  delete_success : option bool;
  delete_error : option str;
}.

(** The request of [saveEditing]: a PATCH to
    [/api/words/<lemma>/comments/<commentId>] with the body [{ note }]. *)
Record PatchRequest : Type := mkPatchRequest {
  patch_lemma : str;
  patch_commentId : number;
  patch_note : str;
}.

(** The request of [deleteComment]: a DELETE to
    [/api/words/<lemma>/comments/<commentId>]. *)
Record DeleteRequest : Type := mkDeleteRequest {
  delete_lemma : str;
  delete_commentId : number;
}.

(** [a === b] for a state that holds a number or [null]. *)
Definition is_number (current : option number) (n : number) : bool :=
  match current with
  | Some c => number_strict_eq c n
  | None => false
  end.

Section Component.
(** props *)
Variable lemma : str.
(** the message of the [TypeError] raised for reading the named
    property of [null] *)
Variable null_read_message : string -> str.

Definition startEditing (comment : CommentSection.WordComment) (st : State) : State :=
  setEditingValue (CommentSection.note comment)
    (setEditingId (Some (CommentSection.id comment)) (setError None st)).

Definition cancelEditing (st : State) : State :=
  setEditingValue [] (setEditingId None st).

(** The [try] block of [saveEditing] once the request has settled: the
    updated comment, or what is thrown. The body is typed as an object;
    [None] is a body that parsed to [null]. *)
Definition patched_comment (res : Fetched (option PatchPayload))
    : Settled CommentSection.WordComment :=
  match res with
  | FetchRejected reason => Rejected reason
  | Responded ok (Rejected reason) => Rejected reason
  | Responded ok (Fulfilled None) =>
      Rejected (ErrorInstance
                  (null_read_message (if negb ok then "error" else "success")))
  | Responded ok (Fulfilled (Some payload)) =>
      match patch_data payload ≫= CommentSection.data_comment with
      | Some updated =>
          if negb ok || negb (bool_decide (patch_success payload = Some true))
          then Rejected (ErrorInstance
                           (default (lit "No pudimos actualizar el comentario.")
                              (patch_error payload)))
          else Fulfilled updated
      | None =>
          Rejected (ErrorInstance
                      (default (lit "No pudimos actualizar el comentario.")
                         (patch_error payload)))
      end
  end.

(** [saveEditing] up to its [await]: either it has returned, or the
    request is in flight. *)
Definition saveEditing_begin (st : State) : State + (PatchRequest * State) :=
  match editingId st with
  | None => inl st
  | Some editing =>
      if negb (number_truthy editing) then inl st
      else
        let trimmed := trim (editingValue st) in
        if bool_decide (trimmed = [])
        then inl (setError (Some (lit "El comentario no puede estar vacío.")) st)
        else inr (mkPatchRequest lemma editing trimmed,
                  setError None (setSavingEdit true st))
  end.

(** [saveEditing] from the point the request settles. *)
Definition saveEditing_settle (res : Fetched (option PatchPayload)) (st : State) : State :=
  setSavingEdit false
    match patched_comment res with
    | Fulfilled updated =>
        setEditingValue []
          (setEditingId None
             (setComments
                (fun prev =>
                   (fun c =>
                      if number_strict_eq (CommentSection.id c) (CommentSection.id updated)
                      then updated else c) <$> prev)
                st))
    | Rejected reason =>
        setError
          (Some match reason with
                | ErrorInstance message => message
                | NotAnError => lit "No pudimos actualizar el comentario."
                end)
          st
    end.

(** The [try] block of [deleteComment] once the request has settled. *)
Definition deleted (res : Fetched (option DeletePayload)) : Settled unit :=
  match res with
  | FetchRejected reason => Rejected reason
  | Responded ok (Rejected reason) => Rejected reason
  | Responded ok (Fulfilled None) =>
      Rejected (ErrorInstance
                  (null_read_message (if negb ok then "error" else "success")))
  | Responded ok (Fulfilled (Some payload)) =>
      if negb ok || negb (bool_decide (delete_success payload = Some true))
      then Rejected (ErrorInstance
                       (default (lit "No pudimos eliminar el comentario.")
                          (delete_error payload)))
      else Fulfilled tt
  end.

(** [deleteComment] up to its [await]; [confirmDelete] is the answer
    of [window.confirm]. *)
Definition deleteComment_begin (confirmDelete : bool) (commentId : number) (st : State)
    : State + (DeleteRequest * State) :=
  if negb confirmDelete then inl st
  else inr (mkDeleteRequest lemma commentId,
            setError None (setDeletingId (fun _ => Some commentId) st)).

(** [deleteComment] from the point the request settles. [editing] is
    the [editingId] of the render the handler was created in. *)
Definition deleteComment_settle (editing : option number) (commentId : number)
    (res : Fetched (option DeletePayload)) (st : State) : State :=
  setDeletingId
    (fun current => if is_number current commentId then None else current)
    match deleted res with
    | Fulfilled _ =>
        let removed :=
          setComments
            (List.filter
               (fun comment => negb (number_strict_eq (CommentSection.id comment) commentId)))
            st in
        if is_number editing commentId
        then setEditingValue [] (setEditingId None removed)
        else removed
    | Rejected reason =>
        setError
          (Some match reason with
                | ErrorInstance message => message
                | NotAnError => lit "No pudimos eliminar el comentario."
                end)
          st
    end.
End Component.

End CommentEditing.

(** ** components/word/comment/globe, the card *)

Module GlobeCard.

(** The local-time fields of a valid [Date], as its getters give them. *)
Record LocalTime : Type := mkLocalTime {
  getDate : Z;
  getMonth : Z;
  getFullYear : Z;
  getMinutes : Z;
  getHours : Z;
}.

(** [text.padStart(2, '0')] *)
Definition padStart2 (text : str) : str :=
  replicate (2 - length text) 48 ++ text.

Definition formatDateTime (date : LocalTime) : str :=
  let day := padStart2 (Z_to_str (getDate date)) in
  let month := padStart2 (Z_to_str (getMonth date + 1)) in
  let year := getFullYear date in
  let minutes := padStart2 (Z_to_str (getMinutes date)) in
  let hours := getHours date in
  let period := if (12 <=? hours)%Z then lit "p.m." else lit "a.m." in
  let hours := if (Z.rem hours 12 =? 0)%Z then 12%Z else Z.rem hours 12 in
  day ++ lit "-" ++ month ++ lit "-" ++ Z_to_str year ++ lit ", "
    ++ Z_to_str hours ++ lit ":" ++ minutes ++ lit " " ++ period.

(** [comment.user?.username?.trim() || 'Anónimo'] *)
Definition username (comment : CommentSection.WordComment) : str :=
  match CommentSection.user comment ≫= CommentSection.comment_user_username with
  | Some name => if bool_decide (trim name = []) then lit "Anónimo" else trim name
  | None => lit "Anónimo"
  end.

(** [comment.user?.id ? String(comment.user.id) : username] *)
Definition userKey (comment : CommentSection.WordComment) : str :=
  match CommentSection.user comment ≫= CommentSection.comment_user_id with
  | Some n => if number_truthy n then number_to_string n else username comment
  | None => username comment
  end.

Definition palette (comment : CommentSection.WordComment) : option Globe.Palette :=
  Globe.getPaletteForUser (userKey comment).

End GlobeCard.

(** The fields of a local time are in their ranges. *)
Definition valid_time (date : GlobeCard.LocalTime) : Prop :=
  (1 <= GlobeCard.getDate date <= 31)%Z
  /\ (0 <= GlobeCard.getMonth date <= 11)%Z
  /\ (0 <= GlobeCard.getMinutes date <= 59)%Z
  /\ (0 <= GlobeCard.getHours date <= 23)%Z.

(** [n] prints as two digits that read back as [n]. *)
Definition two_digits (n : Z) : bool :=
  let text := GlobeCard.padStart2 (Z_to_str n) in
  bool_decide (length text = 2%nat) && bool_decide (parseInt10 text = NInt n).

(** ** Stand-ins to run the report and the email helpers on *)

Module SampleReport.

Definition user : Report.User := Report.mkUser (lit "ana@duech.cl") (Some (lit "ana")).

Definition word : Report.RawRedactedWord :=
  Report.mkRawRedactedWord (lit "casa") (lit "casa") (lit "c") (JArr [])
    (Some [Report.mkRawNote (Some (lit "revisar la marca")) (Some Sample.stamp)
             (Some (Report.mkRawNoteUser (Some (lit "ana"))))])
    (lit "redacted").

Definition getSessionUser : Outcome (option Report.User) := Returned (Some user).

Definition getWordsByStatus (statuses : list str) : Outcome (list Report.RawRedactedWord) :=
  Returned (if bool_decide (lit "redacted" ∈ statuses) then [word] else []).

Definition generatePDFreport (words : list Report.PDFWord) (type : str)
    : Outcome (list N) :=
  Returned [37; 80; 68; 70].

Definition request (type : str) : Request :=
  mkRequest [] [(lit "type", type)] (Returned JNull).

(** A mailer whose client is its API key, whose dates are ISO texts
    and whose templates give the text they are rendered to. *)
Definition newResend (key : option str) : Settled str :=
  match key with
  | Some k => Fulfilled k
  | None => Rejected (ErrorInstance (lit "Missing API key"))
  end.

Definition emails_send (resend : str) (message : Email.Message)
    : Settled Email.SendResult :=
  Fulfilled (Email.mkSendResult None).

Definition WordsReportEmail (props : Email.WordsReportEmailProps) : Settled str :=
  Fulfilled (lit "Estimado/a " ++ Email.report_username props).

Definition render (element : str) : Settled str := Fulfilled element.

Definition formatSpanishDate (date : str) : str := take 10 date.

Definition toISOString (date : str) : str := date.

End SampleReport.

(** Midnight, 26 November 2025. *)
Definition sample_midnight : GlobeCard.LocalTime := GlobeCard.mkLocalTime 26 10 2025 5 0.

(** The exported words page on its first tab. *)
Definition sample_page : ExportedWords.State :=
  ExportedWords.mkState ExportedWords.all false None None.

(** The section holding the sample comment, and a successful DELETE. *)
Definition sample_section : CommentEditing.State :=
  CommentEditing.mkState (CommentSection.comments sample_comments) false None None []
    false (Some (NInt 3)).

Definition deleted_ok : Fetched (option CommentEditing.DeletePayload) :=
  Responded true (Fulfilled (Some (CommentEditing.mkDeletePayload (Some true) None))).

(** The list [loadComments] brings while a comment is being added: a
    comment made elsewhere, and the one the section already had. *)
Definition loaded_comments : list CommentSection.WordComment :=
  CommentSection.mkWordComment (NInt 4)
    (Some (CommentSection.mkCommentUser (Some (NInt 7)) (Some (lit "admin"))))
    (lit "de acuerdo") Sample.stamp
  :: CommentSection.comments sample_comments.

(** A PUT that succeeds, with the comment as the server stored it. *)
Definition saved_put : CommentSection.FetchResult :=
  CommentSection.FetchResponse true 200
    (Returned
       (Some (CommentSection.mkPutPayload
                (Some (CommentSection.mkPutData
                         (Some (CommentSection.mkWordComment (NInt 5)
                                  (Some (CommentSection.mkCommentUser (Some (NInt 12))
                                           (Some (lit "ana"))))
                                  (lit "hola") Sample.stamp))))))).

(** * Properties *)

(** ** The primitives on concrete values *)

Example lit_accent : lit "Definición" = [68; 101; 102; 105; 110; 105; 99; 105; 243; 110].
Proof. reflexivity. Qed.

Example trim_spaces : trim (lit "  a b  ") = lit "a b".
Proof. reflexivity. Qed.

Example parseInt10_prefix : parseInt10 (lit "  -42abc") = NInt (-42).
Proof. reflexivity. Qed.

Example parseInt10_no_digit : parseInt10 (lit "abc") = NNaN.
Proof. reflexivity. Qed.

Example decode_lone_percent : decodeURIComponent (lit "%") = None.
Proof. reflexivity. Qed.

Example decode_utf8 :
  decodeURIComponent (lit "a%20%C3%B3%F0%9F%98%80") = Some [97; 32; 243; 55357; 56832].
Proof. reflexivity. Qed.

Example decode_overlong : decodeURIComponent (lit "%C0%80") = None.
Proof. reflexivity. Qed.

Example number_to_string_negative : number_to_string (NInt (-120)) = lit "-120".
Proof. reflexivity. Qed.

Example shl32_wraps : shl32 1 31 = (-2147483648)%Z.
Proof. reflexivity. Qed.

Example array_element : own_prop (JArr [JStr (lit "x")]) (lit "0") = JStr (lit "x").
Proof. reflexivity. Qed.

Example array_noncanonical_index : own_prop (JArr [JStr (lit "x")]) (lit "01") = JUndefined.
Proof. reflexivity. Qed.

Example hashString_ana : Globe.hashString (lit "ana") = 96724%Z.
Proof. reflexivity. Qed.

Example hashString_wraps :
  Globe.hashString (lit "lexicografa-principal") = 687032676%Z.
Proof. reflexivity. Qed.

(** ** 32-bit hashing and the palette *)

Section HashBounds.
Local Open Scope Z_scope.

Lemma toInt32_range z : - 2 ^ 31 <= toInt32 z < 2 ^ 31.
Proof.
  unfold toInt32.
  pose proof (Z.mod_pos_bound (z + 2 ^ 31) (2 ^ 32) ltac:(lia)). lia.
Qed.

Lemma hash_fold_range value : forall h,
  - 2 ^ 31 <= h < 2 ^ 31 ->
  - 2 ^ 31 <= foldl Globe.hash_step h value < 2 ^ 31.
Proof.
  induction value as [|c value IH]; intros h Hh; simpl.
  - exact Hh.
  - apply IH. unfold Globe.hash_step. apply toInt32_range.
Qed.

Lemma hashString_range value : 0 <= Globe.hashString value <= 2 ^ 31.
Proof.
  unfold Globe.hashString.
  pose proof (hash_fold_range value 0 ltac:(lia)). lia.
Qed.

Lemma palette_length : length Globe.COLOR_PALETTE = 6%nat.
Proof. reflexivity. Qed.
End HashBounds.

(** C10. For every string [userKey], [hashString userKey] is a
    non-negative number, at most 2^31 (the value [Math.abs] gives on the
    hash -2^31); the index [hashString userKey % COLOR_PALETTE.length]
    lies within the six entries of the palette, so [getPaletteForUser]
    never yields [undefined]; and equal keys get the same entry. *)
Theorem getPaletteForUser_in_bounds (userKey : str) :
  (0 <= Globe.hashString userKey <= 2 ^ 31)%Z
  /\ (0 <= Z.rem (Globe.hashString userKey) (Z.of_nat (length Globe.COLOR_PALETTE)) < 6)%Z
  /\ (exists p, Globe.getPaletteForUser userKey = Some p /\ p ∈ Globe.COLOR_PALETTE)
  /\ (forall userKey', userKey = userKey' ->
        Globe.getPaletteForUser userKey = Globe.getPaletteForUser userKey').
Proof.
  pose proof (hashString_range userKey) as Hh.
  assert (Hi : (0 <= Z.rem (Globe.hashString userKey)
                        (Z.of_nat (length Globe.COLOR_PALETTE)) < 6)%Z).
  { rewrite palette_length. apply Z.rem_bound_pos; lia. }
  repeat split; try lia.
  - unfold Globe.getPaletteForUser.
    destruct (lookup_lt_is_Some_2 Globe.COLOR_PALETTE
                (Z.to_nat (Z.rem (Globe.hashString userKey)
                                 (Z.of_nat (length Globe.COLOR_PALETTE))))) as [p Hp].
    + rewrite palette_length at 2. lia.
    + exists p. split; [exact Hp|]. eapply list_elem_of_lookup_2, Hp.
  - intros userKey' ->. reflexivity.
Qed.

(** A key whose palette entry is looked up twice. *)
Lemma getPaletteForUser_in_bounds_witness :
  Globe.getPaletteForUser (lit "ana") = Globe.getPaletteForUser (lit "ana").
Proof.
  exact (proj2 (proj2 (proj2 (getPaletteForUser_in_bounds (lit "ana")))) (lit "ana") eq_refl).
Defined.

(** ** Normalising a payload *)

(** C9. [resolveAssignedTo] is defined by structural recursion, so it
    returns on every JSON value; it only ever descends into the first
    element of a non-empty array, whatever follows it. It returns the
    value itself for an integer number, the base-10 [parseInt] of a
    string ([null] when that is NaN), its result on the first element of
    a non-empty array, and [null] in every other case: non-integer
    numbers, the empty array, objects, [null], [undefined] and
    booleans. *)
Theorem resolveAssignedTo_cases :
  (forall z, WordsRoute.resolveAssignedTo (JNum (NInt z)) = Some (NInt z))
  /\ (forall r, WordsRoute.resolveAssignedTo (JNum (NFrac r)) = None)
  /\ WordsRoute.resolveAssignedTo (JNum NNaN) = None
  /\ (forall neg, WordsRoute.resolveAssignedTo (JNum (NInf neg)) = None)
  /\ (forall s, WordsRoute.resolveAssignedTo (JStr s)
                = if Number_isNaN (parseInt10 s) then None else Some (parseInt10 s))
  /\ (forall first rest,
        WordsRoute.resolveAssignedTo (JArr (first :: rest))
        = WordsRoute.resolveAssignedTo first)
  /\ (forall depth padding v,
        WordsRoute.resolveAssignedTo (nested depth padding v)
        = WordsRoute.resolveAssignedTo v)
  /\ WordsRoute.resolveAssignedTo (JArr []) = None
  /\ (forall props, WordsRoute.resolveAssignedTo (JObj props) = None)
  /\ WordsRoute.resolveAssignedTo JNull = None
  /\ WordsRoute.resolveAssignedTo JUndefined = None
  /\ (forall b, WordsRoute.resolveAssignedTo (JBool b) = None).
Proof.
  repeat split; try reflexivity.
  intros depth padding v. induction depth as [|depth IH]; simpl; [reflexivity | exact IH].
Qed.

Section MeaningShape.
Variable keys : list str.

Lemma fold_marker_lookup (source : JsVal) (k : str) : forall (ks : list str) (acc : Meaning),
  foldl (fun acc key =>
           let rawValue := own_prop source key in
           if is_string rawValue then <[key := rawValue]> acc
           else <[key := JNull]> acc) acc ks !! k
  = if decide (k ∈ ks) then Some (marker_of source k) else acc !! k.
Proof.
  induction ks as [|x ks IH]; intros acc; cbn [foldl].
  - destruct (decide (k ∈ [])) as [H|_]; [inversion H | reflexivity].
  - rewrite IH. destruct (decide (k ∈ ks)) as [Hin|Hout].
    + rewrite decide_True by (right; exact Hin). reflexivity.
    + destruct (decide (k = x)) as [->|Hne].
      * rewrite decide_True by left. unfold marker_of, is_string.
        destruct (own_prop source x); simpl; by rewrite lookup_insert_eq.
      * rewrite decide_False by (intros H; inversion H; subst; tauto).
        destruct (is_string (own_prop source x)); by rewrite lookup_insert_ne.
Qed.

Lemma extractMarkerValues_lookup (source : JsVal) (k : str) :
  WordsRoute.extractMarkerValues keys source !! k
  = if decide (k ∈ keys) then Some (marker_of source k) else None.
Proof.
  unfold WordsRoute.extractMarkerValues. rewrite fold_marker_lookup.
  destruct (decide (k ∈ keys)); [reflexivity | apply lookup_empty].
Qed.

Lemma createEmptyMarkerValues_lookup (k : str) :
  WordsRoute.createEmptyMarkerValues keys !! k
  = if decide (k ∈ keys) then Some JNull else None.
Proof.
  unfold WordsRoute.createEmptyMarkerValues.
  generalize (∅ : Meaning) (lookup_empty (M := gmap str) (A := JsVal) k).
  induction keys as [|x ks IH]; intros acc Hacc; cbn [foldl].
  - rewrite decide_False by (intros H; inversion H). exact Hacc.
  - destruct (decide (k = x)) as [->|Hne].
    + rewrite decide_True by left.
      clear IH Hacc. generalize (lookup_insert_eq acc x JNull).
      generalize (<[x := JNull]> acc). clear acc.
      induction ks as [|y ks IH]; intros acc Hacc; cbn [foldl]; [exact Hacc|].
      apply IH. destruct (decide (x = y)) as [->|Hxy];
        [apply lookup_insert_eq | by rewrite lookup_insert_ne].
    + rewrite (IH (<[x := JNull]> acc)) by (by rewrite lookup_insert_ne).
      destruct (decide (k ∈ ks)) as [Hin|Hout].
      * rewrite decide_True by (right; exact Hin). reflexivity.
      * rewrite decide_False by (intros H; inversion H; subst; tauto). reflexivity.
Qed.

Lemma spread_marker (fields markers : Meaning) (k : str) (v : JsVal) :
  markers !! k = Some v -> WordsRoute.spread fields markers !! k = Some v.
Proof. intros H. unfold WordsRoute.spread. by apply lookup_union_Some_l. Qed.

Lemma spread_field (fields markers : Meaning) (k : str) :
  markers !! k = None -> WordsRoute.spread fields markers !! k = fields !! k.
Proof. intros H. unfold WordsRoute.spread. by apply lookup_union_r. Qed.

Lemma meaning_fields_lookup (a b c d e f g h : JsVal) :
  let m := WordsRoute.meaning_fields a b c d e f g h in
  m !! lit "number" = Some a /\ m !! lit "meaning" = Some b
  /\ m !! lit "origin" = Some c /\ m !! lit "grammarCategory" = Some d
  /\ m !! lit "remission" = Some e /\ m !! lit "observation" = Some f
  /\ m !! lit "examples" = Some g /\ m !! lit "variant" = Some h.
Proof. repeat split; reflexivity. Qed.
End MeaningShape.

Lemma fixed_field_not_marker (keys : list str) (k : str) :
  Forall (fun key => key ∉ FIXED_FIELDS) keys ->
  k ∈ FIXED_FIELDS ->
  forall source, WordsRoute.extractMarkerValues keys source !! k = None.
Proof.
  intros Hdisj Hk.
  assert (Hout : k ∉ keys).
  { intros Hin. rewrite Forall_forall in Hdisj. exact (Hdisj k Hin Hk). }
  intros source. rewrite extractMarkerValues_lookup. by rewrite decide_False.
Qed.

(** C8. [normalizeMeanings] returns on every input. On a value that is
    not an array it gives the empty list. On an array it keeps, in
    order, the items whose [typeof] is ['object'] and that are not
    [null] (objects and arrays), and gives one meaning per kept item:
    its [number] is the item's [number] when that is a number and the
    item's index among the kept ones plus 1 otherwise; its [meaning] is
    the item's [meaning] when that is a string that does not trim to the
    empty string, and ['Definición '] followed by the number otherwise;
    its [examples] is [null] exactly when [extractExamples] gives an
    empty list; and every key of MEANING_MARKER_KEYS is bound, to the
    item's value when that is a string and to [null] otherwise. The
    marker keys are taken to differ from the names of the fixed
    fields. *)
Theorem normalizeMeanings_shape (keys : list str) (input : JsVal) :
  Forall (fun key => key ∉ FIXED_FIELDS) keys ->
  (Array_isArray input = false -> WordsRoute.normalizeMeanings keys input = [])
  /\ (forall item, WordsRoute.is_record item = true
                   <-> (exists xs, item = JArr xs) \/ (exists ps, item = JObj ps))
  /\ (forall items, input = JArr items ->
        let kept := List.filter WordsRoute.is_record items in
        length (WordsRoute.normalizeMeanings keys input) = length kept
        /\ forall index def, kept !! index = Some def ->
             exists (m : Meaning) (number : number),
               WordsRoute.normalizeMeanings keys input !! index = Some m
               /\ number = match own_prop def (lit "number") with
                           | JNum n => n
                           | _ => NInt (Z.of_nat index + 1)
                           end
               /\ m !! lit "number" = Some (JNum number)
               /\ m !! lit "meaning"
                  = Some (match own_prop def (lit "meaning") with
                          | JStr s =>
                              if bool_decide (trim s = []) 
                              then JStr (lit "Definición " ++ number_to_string number)
                              else JStr s
                          | _ => JStr (lit "Definición " ++ number_to_string number)
                          end)
               /\ (m !! lit "examples" = Some JNull
                   <-> WordsRoute.extractExamples def = [])
               /\ (forall k, k ∈ keys ->
                     m !! k = Some (match own_prop def k with
                                    | JStr s => JStr s
                                    | _ => JNull
                                    end))).
Proof.
  intros Hdisj. split; [|split].
  - destruct input; simpl; intros H; try reflexivity; discriminate.
  - intros item. unfold WordsRoute.is_record. split.
    + destruct item; simpl; intros H; try discriminate; eauto.
    + intros [[xs ->]|[ps ->]]; reflexivity.
  - intros items -> kept. cbn [WordsRoute.normalizeMeanings]. fold kept. split.
    + apply length_imap.
    + intros index def Hdef. rewrite list_lookup_imap, Hdef. cbn [fmap option_fmap option_map].
      eexists _, _. split; [reflexivity|]. split; [reflexivity|].
      unfold WordsRoute.normalize_item.
      match goal with |- context [WordsRoute.meaning_fields ?a ?b ?c ?d ?e ?f ?g ?h] =>
        destruct (meaning_fields_lookup a b c d e f g h)
          as (Hnum & Hmean & _ & _ & _ & _ & Hex & _)
      end.
      repeat split.
      * rewrite spread_field; [exact Hnum|].
        apply (fixed_field_not_marker keys _ Hdisj). repeat constructor.
      * rewrite spread_field;
          [|apply (fixed_field_not_marker keys _ Hdisj); repeat constructor].
        rewrite Hmean. f_equal. unfold is_string.
        destruct (own_prop def (lit "meaning")); cbn [typeof string_of]; try reflexivity.
        rewrite bool_decide_eq_true_2 by reflexivity. cbn [andb].
        destruct (bool_decide (trim s = [])); reflexivity.
      * rewrite spread_field;
          [|apply (fixed_field_not_marker keys _ Hdisj); repeat constructor].
        rewrite Hex. destruct (WordsRoute.extractExamples def); [reflexivity|].
        cbn. intros H. discriminate.
      * rewrite spread_field;
          [|apply (fixed_field_not_marker keys _ Hdisj); repeat constructor].
        rewrite Hex. intros ->. reflexivity.
      * intros k Hk. apply spread_marker. rewrite extractMarkerValues_lookup.
        by rewrite decide_True.
Qed.

Lemma sample_keys_are_not_fields :
  Forall (fun key => key ∉ FIXED_FIELDS) Sample.MEANING_MARKER_KEYS.
Proof. refine (bool_decide_unpack _ _). vm_compute. exact I. Defined.

Lemma normalizeMeanings_shape_witness :
  Forall (fun key => key ∉ FIXED_FIELDS) Sample.MEANING_MARKER_KEYS
  /\ length (WordsRoute.normalizeMeanings Sample.MEANING_MARKER_KEYS sample_values) = 2%nat.
Proof.
  split; [exact sample_keys_are_not_fields|].
  exact (proj1 (proj2 (proj2 (normalizeMeanings_shape Sample.MEANING_MARKER_KEYS sample_values
                                sample_keys_are_not_fields))
                 _ eq_refl)).
Defined.

Example normalizeMeanings_sample :
  let ms := WordsRoute.normalizeMeanings Sample.MEANING_MARKER_KEYS sample_values in
  (fun m : Meaning => (m !! lit "number", m !! lit "meaning", m !! lit "styleMarkers",
                       m !! lit "socialValuations", m !! lit "examples")) <$> ms
  = [(Some (JNum (NInt 1)), Some (JStr (lit "Definición 1")), Some JNull, Some JNull,
      Some JNull);
     (Some (JNum (NInt 7)), Some (JStr (lit "vivienda")), Some (JStr (lit "coloquial")),
      Some JNull, Some (JArr [obj [("value", JStr (lit "mi casa"))]]))].
Proof. vm_compute. reflexivity. Qed.

(** ** Optimistic comments *)

Lemma number_strict_eq_int (z : Z) : number_strict_eq (NInt z) (NInt z) = true.
Proof. unfold number_strict_eq. by rewrite bool_decide_eq_true_2. Qed.

Lemma number_strict_eq_false (a b : number) : a <> b -> number_strict_eq a b = false.
Proof.
  intros Hne. unfold number_strict_eq.
  destruct a, b; try reflexivity; by rewrite bool_decide_eq_false_2.
Qed.

Lemma number_strict_eq_true (a b : number) :
  number_strict_eq a b = true <-> a = b /\ a <> NNaN.
Proof.
  unfold number_strict_eq. split.
  - destruct a, b; try discriminate; intros H; apply bool_decide_eq_true_1 in H;
      (split; [exact H | discriminate]).
  - intros [-> Hn]. destruct b; try (by rewrite bool_decide_eq_true_2). congruence.
Qed.

Lemma remove_optimistic_fresh (optimistic : CommentSection.WordComment)
    (prev : list CommentSection.WordComment) :
  (forall c, c ∈ prev -> CommentSection.id c <> CommentSection.id optimistic) ->
  CommentSection.remove_optimistic optimistic prev = prev.
Proof.
  unfold CommentSection.remove_optimistic.
  induction prev as [|c prev IH]; intros Hfresh; simpl; [reflexivity|].
  rewrite number_strict_eq_false by (apply Hfresh; left). simpl.
  f_equal. apply IH. intros c' Hc'. apply Hfresh. by right.
Qed.

Lemma remove_optimistic_head (optimistic : CommentSection.WordComment) (z : Z)
    (prev : list CommentSection.WordComment) :
  CommentSection.id optimistic = NInt z ->
  CommentSection.remove_optimistic optimistic (optimistic :: prev)
  = CommentSection.remove_optimistic optimistic prev.
Proof.
  intros Hid. unfold CommentSection.remove_optimistic. cbn [List.filter].
  rewrite Hid, number_strict_eq_int. reflexivity.
Qed.

Lemma replace_optimistic_head (optimistic saved : CommentSection.WordComment) (z : Z)
    (prev : list CommentSection.WordComment) :
  CommentSection.id optimistic = NInt z ->
  CommentSection.replace_optimistic optimistic saved (optimistic :: prev) = saved :: prev.
Proof.
  intros Hid. unfold CommentSection.replace_optimistic. cbn [CommentSection.findIndex].
  rewrite Hid, number_strict_eq_int. reflexivity.
Qed.

Lemma findIndex_None {A} (p : A -> bool) (prev : list A) :
  (forall x, x ∈ prev -> p x = false) -> CommentSection.findIndex p prev = None.
Proof.
  induction prev as [|x prev IH]; intros Hnone; cbn [CommentSection.findIndex];
    [reflexivity|].
  rewrite (Hnone x) by (by left).
  rewrite IH; [reflexivity|]. intros y Hy. apply Hnone. by right.
Qed.

Lemma findIndex_lt {A} (p : A -> bool) (prev : list A) (index : nat) :
  CommentSection.findIndex p prev = Some index -> (index < length prev)%nat.
Proof.
  revert index. induction prev as [|x prev IH]; intros index; cbn [CommentSection.findIndex];
    [discriminate|].
  destruct (p x); [intros [= <-]; cbn; lia|].
  destruct (CommentSection.findIndex p prev) as [i|]; [|discriminate].
  intros [= <-]. specialize (IH i eq_refl). cbn. lia.
Qed.

Lemma replace_optimistic_holds_saved (optimistic saved : CommentSection.WordComment)
    (prev : list CommentSection.WordComment) :
  saved ∈ CommentSection.replace_optimistic optimistic saved prev.
Proof.
  unfold CommentSection.replace_optimistic.
  destruct (CommentSection.findIndex _ prev) as [index|] eqn:Hindex; [|by left].
  apply list_elem_of_lookup. exists index.
  apply list_lookup_insert_eq. by apply findIndex_lt in Hindex.
Qed.

(** C5. In [addComment], for a text that does not trim to the empty
    string and a non-empty lemma: the optimistic comment is first put
    at the head of the list (and the error cleared). The updaters after
    the request run on the list of the moment it settles. If the PUT
    request fails (the fetch rejects, the response is not ok, its body
    does not parse, or it lacks [data.comment]), the optimistic comment
    is removed from that list, no comment with its id is left, and the
    error message is set. If it succeeds, the saved comment replaces
    the optimistic one where it stands in that list, and is put at the
    head when no comment has the optimistic id any more. When the list
    was not changed while the request was in flight: after a failure it
    is the list before the call with the optimistic id removed, hence
    the list before the call when no comment in it had that id; after a
    success the saved comment stands at the head, where the optimistic
    one stood. *)
Theorem addComment_optimistic_update
    (lemma : str) (currentId : option number) (username : option str)
    (now : Z) (nowIso : str) (during : CommentSection.State -> CommentSection.State)
    (res : CommentSection.FetchResult) (text : str) (st : CommentSection.State) :
  trim text <> [] ->
  lemma <> [] ->
  let optimistic :=
    CommentSection.optimistic_comment currentId username now nowIso (trim text) in
  let pending := CommentSection.mkState (optimistic :: CommentSection.comments st) None in
  let settling := CommentSection.comments (during pending) in
  let final :=
    CommentSection.addComment lemma currentId username now nowIso during res text st in
  CommentSection.addComment_begin lemma currentId username now nowIso text st
  = inr (optimistic, pending)
  /\ (forall e, CommentSection.saved_comment res = Thrown e ->
        CommentSection.comments final = CommentSection.remove_optimistic optimistic settling
        /\ (forall c, c ∈ CommentSection.comments final -> CommentSection.id c <> NInt now)
        /\ CommentSection.error final
           = Some (lit "No pudimos guardar el comentario. Vuelve a intentarlo."))
  /\ (forall saved, CommentSection.saved_comment res = Returned saved ->
        CommentSection.comments final
        = CommentSection.replace_optimistic optimistic saved settling
        /\ saved ∈ CommentSection.comments final
        /\ ((forall c, c ∈ settling -> CommentSection.id c <> NInt now) ->
            CommentSection.comments final = saved :: settling)
        /\ CommentSection.error final = CommentSection.error (during pending))
  /\ (settling = CommentSection.comments pending ->
      (forall e, CommentSection.saved_comment res = Thrown e ->
         CommentSection.comments final
         = CommentSection.remove_optimistic optimistic (CommentSection.comments st)
         /\ ((forall c, c ∈ CommentSection.comments st -> CommentSection.id c <> NInt now) ->
             CommentSection.comments final = CommentSection.comments st))
      /\ (forall saved, CommentSection.saved_comment res = Returned saved ->
            CommentSection.comments final = saved :: CommentSection.comments st))
  /\ (forall e, CommentSection.saved_comment (CommentSection.FetchRejected e) = Thrown e)
  /\ (forall code json, exists e,
        CommentSection.saved_comment (CommentSection.FetchResponse false code json) = Thrown e)
  /\ (forall code payload,
        (payload ≫= CommentSection.payload_data) ≫= CommentSection.data_comment = None ->
        exists e,
          CommentSection.saved_comment
            (CommentSection.FetchResponse true code (Returned payload)) = Thrown e)
  /\ (forall code payload saved,
        (payload ≫= CommentSection.payload_data) ≫= CommentSection.data_comment = Some saved ->
        CommentSection.saved_comment
          (CommentSection.FetchResponse true code (Returned payload)) = Returned saved).
Proof.
  intros Htext Hlemma optimistic pending settling final.
  assert (Hbegin :
    CommentSection.addComment_begin lemma currentId username now nowIso text st
    = inr (optimistic, pending)).
  { unfold CommentSection.addComment_begin.
    rewrite !bool_decide_eq_false_2 by assumption. reflexivity. }
  split; [exact Hbegin|].
  assert (Hfinal : final = CommentSection.addComment_settle optimistic res (during pending)).
  { unfold final, CommentSection.addComment. rewrite Hbegin. reflexivity. }
  rewrite Hfinal. clear Hfinal. unfold CommentSection.addComment_settle.
  split; [|split; [|split; [|split; [|split; [|split]]]]].
  - intros e ->.
    cbn [CommentSection.setComments CommentSection.setError CommentSection.comments
         CommentSection.error].
    fold settling. split; [reflexivity|]. split; [|reflexivity].
    intros c Hin. unfold CommentSection.remove_optimistic in Hin.
    apply list_elem_of_In, List.filter_In in Hin as [_ Hkept].
    intros Hid. rewrite Hid in Hkept. cbn [CommentSection.id optimistic
      CommentSection.optimistic_comment] in Hkept.
    rewrite number_strict_eq_int in Hkept. discriminate Hkept.
  - intros saved ->.
    cbn [CommentSection.setComments CommentSection.setError CommentSection.comments
         CommentSection.error].
    fold settling. split; [reflexivity|].
    split; [apply replace_optimistic_holds_saved|]. split; [|reflexivity].
    intros Hgone. unfold CommentSection.replace_optimistic.
    rewrite findIndex_None; [reflexivity|].
    intros c Hin. apply number_strict_eq_false. by apply Hgone.
  - intros Hsame. split.
    + intros e ->.
      cbn [CommentSection.setComments CommentSection.setError CommentSection.comments
           CommentSection.error].
      fold settling. rewrite Hsame. cbn [CommentSection.comments pending].
      rewrite (remove_optimistic_head optimistic now) by reflexivity.
      split; [reflexivity|].
      intros Hfresh. apply remove_optimistic_fresh. exact Hfresh.
    + intros saved ->.
      cbn [CommentSection.setComments CommentSection.setError CommentSection.comments
           CommentSection.error].
      fold settling. rewrite Hsame. cbn [CommentSection.comments pending].
      apply (replace_optimistic_head optimistic saved now). reflexivity.
  - reflexivity.
  - intros code json. eexists. reflexivity.
  - intros code payload Hnone. eexists. cbn. rewrite Hnone. reflexivity.
  - intros code payload saved Hsome. cbn. rewrite Hsome. reflexivity.
Qed.

(** A failed call with nothing else written meanwhile: the list is the
    one before the call. *)
Lemma addComment_optimistic_update_witness :
  trim (lit " hola ") <> [] /\ lit "casa" <> []
  /\ CommentSection.comments
       (CommentSection.addComment (lit "casa") (Some (NInt 12)) (Some (lit "ana"))
          1764158400000 Sample.stamp (fun pending => pending) failed_put (lit " hola ")
          sample_comments)
     = CommentSection.comments sample_comments.
Proof.
  assert (Ht : trim (lit " hola ") <> []) by (vm_compute; discriminate).
  assert (Hl : lit "casa" <> []) by (vm_compute; discriminate).
  split; [exact Ht|]. split; [exact Hl|].
  destruct (addComment_optimistic_update (lit "casa") (Some (NInt 12)) (Some (lit "ana"))
              1764158400000 Sample.stamp (fun pending => pending) failed_put (lit " hola ")
              sample_comments Ht Hl)
    as (_ & _ & _ & Hquiet & _).
  destruct (Hquiet eq_refl) as [Hfail _].
  destruct (Hfail _ eq_refl) as (_ & Hrollback).
  apply Hrollback. intros c Hc.
  apply list_elem_of_singleton in Hc. subst c. discriminate.
Defined.

(** C5 as stated fails when the list is written while the request is
    in flight. The section holds the comment 3, no comment has the
    optimistic id, and the response of [loadComments] arrives during
    the [await] with the comments 4 and 3. After a failed PUT the list
    is 4, 3 and not the list before the call. After a successful PUT
    the optimistic comment is not in the list any more: the saved
    comment 5 replaces nothing and is put at the head, and the list is
    5, 4, 3. *)
Lemma addComment_interleaved :
  let now := 1764158400000%Z in
  let run res :=
    CommentSection.addComment (lit "casa") (Some (NInt 12)) (Some (lit "ana")) now
      Sample.stamp (CommentSection.loadComments_arrives loaded_comments) res (lit " hola ")
      sample_comments in
  trim (lit " hola ") <> [] /\ lit "casa" <> []
  /\ (forall c, c ∈ CommentSection.comments sample_comments -> CommentSection.id c <> NInt now)
  /\ CommentSection.id <$> CommentSection.comments sample_comments = [NInt 3]
  /\ (exists e, CommentSection.saved_comment failed_put = Thrown e)
  /\ CommentSection.id <$> CommentSection.comments (run failed_put) = [NInt 4; NInt 3]
  /\ CommentSection.comments (run failed_put) <> CommentSection.comments sample_comments
  /\ (exists saved,
        CommentSection.saved_comment saved_put = Returned saved
        /\ CommentSection.id saved = NInt 5
        /\ CommentSection.comments (run saved_put) = saved :: loaded_comments)
  /\ CommentSection.id <$> CommentSection.comments (run saved_put)
     = [NInt 5; NInt 4; NInt 3].
Proof.
  cbv zeta.
  split; [vm_compute; discriminate|]. split; [vm_compute; discriminate|].
  split.
  { intros c Hc. apply list_elem_of_singleton in Hc. subst c. discriminate. }
  split; [reflexivity|].
  split; [eexists; reflexivity|].
  split; [vm_compute; reflexivity|].
  split.
  { intros Heq. apply (f_equal length) in Heq. vm_compute in Heq. discriminate Heq. }
  split; [|vm_compute; reflexivity].
  eexists. split; [reflexivity|]. split; [reflexivity|].
  vm_compute. reflexivity.
Qed.

(** ** Handlers of /api/words/[lemma] *)

Ltac unfold_handler :=
  unfold try_catch, bind, call_env, call_query, call_mutation, settle, decode_or_throw,
    ret, throw, record_call, fresh, prop;
  cbn [db trace fst snd app].

Ltac not_called H :=
  repeat (apply elem_of_cons in H as [H|H]; [discriminate|]);
  by apply elem_of_nil in H.

Ltac solve_calls :=
  first
    [ let l := fresh "l" in let H := fresh "H" in intros [l H]; not_called H
    | let l := fresh "l" in let H := fresh "H" in intros l H; not_called H
    | intros _; reflexivity
    | reflexivity
    | repeat split; first
        [ reflexivity
        | let l := fresh "l" in let H := fresh "H" in intros [l H]; not_called H ] ].

Section DeleteWord.
Context {Db : Type}.
Variable getSessionUser : Request -> Outcome (option SessionUser).
Variable deleteWordByLemma : str -> Db -> Outcome unit * Db.

(** C1, as the handler has it. For every DELETE request on
    /api/words/[lemma]: with no session user the answer is 401, with a
    session user whose role is neither 'admin' nor 'superadmin' it is
    403, and in both cases [deleteWordByLemma] is not called and the
    database is left as it was. [deleteWordByLemma] is called exactly
    when the session user has role 'admin' or 'superadmin' and the
    lemma parameter is a well-formed URI component; it is then called
    once, on the decoded lemma. Whenever it is not called the database
    is unchanged. *)
Theorem DELETE_requires_admin (request : Request) (lemma : str) (d : Db) :
  let run := WordsRoute.DELETE getSessionUser deleteWordByLemma request lemma (fresh d) in
  (getSessionUser request = Returned None ->
     status_of run.1 = Some 401%Z /\ ~ delete_called (trace run.2) /\ db run.2 = d)
  /\ (forall u, getSessionUser request = Returned (Some u) -> ~ has_admin_role u ->
        status_of run.1 = Some 403%Z /\ ~ delete_called (trace run.2) /\ db run.2 = d)
  /\ (delete_called (trace run.2)
      <-> exists u decoded,
            getSessionUser request = Returned (Some u) /\ has_admin_role u
            /\ decodeURIComponent lemma = Some decoded)
  /\ (forall l, CallDeleteWordByLemma l ∈ trace run.2 ->
        decodeURIComponent lemma = Some l
        /\ trace run.2 = [CallGetSessionUser; CallDeleteWordByLemma l]
        /\ db run.2 = (deleteWordByLemma l d).2)
  /\ (~ delete_called (trace run.2) -> db run.2 = d).
Proof.
  intros run. subst run. unfold WordsRoute.DELETE, delete_called.
  unfold_handler.
  destruct (getSessionUser request) as [[u|]|e] eqn:Hs.
  - assert (Hrole :
      (negb (bool_decide (user_role u = Some (lit "admin")))
       && negb (bool_decide (user_role u = Some (lit "superadmin"))) = true
       /\ ~ has_admin_role u)
      \/ (negb (bool_decide (user_role u = Some (lit "admin")))
          && negb (bool_decide (user_role u = Some (lit "superadmin"))) = false
          /\ has_admin_role u)).
    { unfold has_admin_role.
      destruct (decide (user_role u = Some (lit "admin"))) as [Ha|Ha];
        [rewrite (bool_decide_eq_true_2 _ Ha); right; tauto
        |rewrite (bool_decide_eq_false_2 _ Ha)].
      destruct (decide (user_role u = Some (lit "superadmin"))) as [Hb|Hb];
        [rewrite (bool_decide_eq_true_2 _ Hb); right; tauto
        |rewrite (bool_decide_eq_false_2 _ Hb); left; tauto]. }
    destruct Hrole as [[-> Hno]|[-> Hadm]].
    + cbn [fst snd db trace status_of].
      split; [discriminate|]. split; [intros u' _ _; solve_calls|].
      split; [split; [solve_calls|]|].
      { intros (u' & dec & Hu & Hr & _). assert (u' = u) by congruence. subst u'. tauto. }
      split; solve_calls.
    + destruct (decodeURIComponent lemma) as [decoded|] eqn:Hd;
        cbn [fst snd db trace status_of app];
        [destruct (deleteWordByLemma decoded d) as [[[]|e] d'] eqn:Hdel;
         cbn [fst snd db trace status_of app]|].
      1,2: split; [discriminate|];
        (split; [intros u' Hu Hno; exfalso; apply Hno;
                 assert (u' = u) by congruence; subst u'; exact Hadm|]);
        (split; [split; [intros _; exists u, decoded; tauto
                        |intros _; exists decoded; right; left]|]);
        (split; [|intros Hno; exfalso; apply Hno; exists decoded; right; left]);
        intros l Hl; apply elem_of_cons in Hl as [Hl|Hl]; [discriminate|];
        apply list_elem_of_singleton in Hl; injection Hl as <-;
        rewrite Hdel; done.
      split; [discriminate|].
      split; [intros u' Hu Hno; exfalso; apply Hno;
              assert (u' = u) by congruence; subst u'; exact Hadm|].
      split; [split; [solve_calls|intros (u' & dec & _ & _ & Hdec); discriminate]|].
      split; solve_calls.
  - cbn [fst snd db trace status_of].
    split; [intros _; solve_calls|]. split; [intros u' Hu; discriminate|].
    split; [split; [solve_calls|intros (u' & dec & Hu & _); discriminate]|].
    split; solve_calls.
  - cbn [fst snd db trace status_of].
    split; [discriminate|]. split; [intros u' Hu; discriminate|].
    split; [split; [solve_calls|intros (u' & dec & Hu & _); discriminate]|].
    split; solve_calls.
Qed.
End DeleteWord.

(** A lexicographer asks for a deletion: 403, nothing deleted. *)
Lemma DELETE_requires_admin_witness :
  let run := WordsRoute.DELETE (Sample.session (Some Sample.lexicographer))
               Sample.deleteWordByLemma (Sample.request JNull) (lit "casa")
               (fresh Sample.store) in
  status_of run.1 = Some 403%Z /\ ~ delete_called (trace run.2) /\ db run.2 = Sample.store.
Proof.
  refine (proj1 (proj2 (DELETE_requires_admin (Sample.session (Some Sample.lexicographer))
                          Sample.deleteWordByLemma (Sample.request JNull) (lit "casa")
                          Sample.store))
            Sample.lexicographer eq_refl _).
  intros [H|H]; vm_compute in H; discriminate.
Defined.

(** C1 as stated fails: an administrator is signed in, the lemma
    parameter is ["%"], [decodeURIComponent] throws, the answer is 500
    and [deleteWordByLemma] is not called. *)
Lemma DELETE_admin_malformed_lemma :
  let getSessionUser := Sample.session (Some Sample.admin) in
  let request := Sample.request JNull in
  let run := WordsRoute.DELETE getSessionUser Sample.deleteWordByLemma request (lit "%")
               (fresh Sample.store) in
  status_of run.1 = Some 500%Z
  /\ trace run.2 = [CallGetSessionUser]
  /\ ~ (delete_called (trace run.2)
        <-> exists u, getSessionUser request = Returned (Some u) /\ has_admin_role u).
Proof.
  cbv zeta. split; [reflexivity|]. split; [reflexivity|].
  intros [_ Hcalled].
  destruct Hcalled as [l Hl].
  - exists Sample.admin. split; [reflexivity | left; reflexivity].
  - vm_compute in Hl. not_called Hl.
Qed.

(** *** Rate limiting *)

Section Appends.
Context {Db : Type}.

Lemma appends_ret {A} (a : A) : appends (ret (Db := Db) a).
Proof. intros w. exists []. cbn. by rewrite app_nil_r. Qed.

Lemma appends_throw {A} (e : exn) : appends (throw (Db := Db) (A := A) e).
Proof. intros w. exists []. cbn. by rewrite app_nil_r. Qed.

Lemma appends_settle {A} (o : Outcome A) : appends (settle (Db := Db) o).
Proof. intros w. exists []. cbn. by rewrite app_nil_r. Qed.

Lemma appends_call_env {A} (c : Call) (o : Outcome A) : appends (call_env (Db := Db) c o).
Proof. intros w. exists [c]. reflexivity. Qed.

Lemma appends_call_query {A} (c : Call) (q : Db -> Outcome A) : appends (call_query c q).
Proof. intros w. exists [c]. reflexivity. Qed.

Lemma appends_call_mutation {A} (c : Call) (f : Db -> Outcome A * Db) :
  appends (call_mutation c f).
Proof.
  intros w. exists [c]. unfold call_mutation. destruct (f (db w)). reflexivity.
Qed.

Lemma appends_prop (v : JsVal) (k : string) : appends (prop (Db := Db) v k).
Proof. destruct v; first [apply appends_throw | apply appends_ret]. Qed.

Lemma appends_decode (s : str) : appends (decode_or_throw (Db := Db) s).
Proof.
  unfold decode_or_throw. destruct (decodeURIComponent s);
    [apply appends_ret | apply appends_throw].
Qed.

Lemma appends_bind {A B} (m : M Db A) (k : A -> M Db B) :
  appends m -> (forall a, appends (k a)) -> appends (bind m k).
Proof.
  intros Hm Hk w. unfold bind. destruct (Hm w) as [c1 H1].
  destruct (m w) as [[a|e] w']; cbn [snd] in *.
  - destruct (Hk a w') as [c2 H2]. exists (c1 ++ c2). by rewrite H2, H1, app_assoc.
  - exists c1. exact H1.
Qed.

Lemma appends_try_catch {A} (m : M Db A) (handler : exn -> M Db A) :
  appends m -> (forall e, appends (handler e)) -> appends (try_catch m handler).
Proof.
  intros Hm Hh w. unfold try_catch. destruct (Hm w) as [c1 H1].
  destruct (m w) as [[a|e] w']; cbn [snd] in *.
  - exists c1. exact H1.
  - destruct (Hh e w') as [c2 H2]. exists (c1 ++ c2). by rewrite H2, H1, app_assoc.
Qed.
End Appends.

Create HintDb handler.
#[export] Hint Resolve appends_ret appends_throw appends_settle appends_call_env
  appends_call_query appends_call_mutation appends_prop appends_decode : handler.

Ltac solve_appends :=
  repeat first
    [ apply appends_bind; [|intros ?]
    | apply appends_try_catch; [|intros ?]
    | solve [auto with handler]
    | match goal with
      | |- appends (if ?b then _ else _) => destruct b
      | |- appends (match ?x with _ => _ end) => destruct x
      end ].

Section RateLimit.
Context {Db : Type}.
Variable applyRateLimit : Request -> Outcome bool.
Variable isEditorModeFromHeaders : list (str * str) -> bool.
Variable getWordByLemma : str -> option QueryOptions -> Db -> Outcome (option JsVal).
Variable createWord : Word -> CreateWordOptions -> Db -> Outcome CreateWordResult * Db.
Variable MEANING_MARKER_KEYS : list str.

#[local] Abbreviation GET :=
  (WordsRoute.GET applyRateLimit isEditorModeFromHeaders getWordByLemma).
#[local] Abbreviation POST :=
  (WordsRoute.POST applyRateLimit createWord MEANING_MARKER_KEYS).

Lemma rate_limit_is_first {A} (request : Request) (k : bool -> M Db A) (d : Db) :
  (forall a, appends (k a)) ->
  exists rest,
    trace (bind (call_env CallApplyRateLimit (applyRateLimit request)) k (fresh d)).2
    = CallApplyRateLimit :: rest.
Proof.
  intros Hk. unfold bind, call_env, record_call, fresh. cbn [db trace app].
  destruct (applyRateLimit request) as [a|e]; cbn [snd trace].
  - destruct (Hk a (mkWorld d [CallApplyRateLimit])) as [calls ->]. by exists calls.
  - by exists [].
Qed.

(** C4, for the two handlers that are rate limited. GET and POST on
    /api/words/[lemma] call [applyRateLimit] before anything else: it
    is the first call of every run. Whenever it reports failure the
    handler answers 429 with the text 'Too Many Requests', makes no
    other call, and leaves the database as it was. *)
Theorem GET_POST_rate_limited_first (request : Request) (lemma : JsVal) (d : Db) :
  (applyRateLimit request = Returned false ->
     GET request lemma (fresh d)
     = (Returned WordsRoute.too_many_requests, mkWorld d [CallApplyRateLimit])
     /\ POST request (fresh d)
        = (Returned WordsRoute.too_many_requests, mkWorld d [CallApplyRateLimit])
     /\ turned_away (GET request lemma (fresh d)) d
     /\ turned_away (POST request (fresh d)) d)
  /\ WordsRoute.too_many_requests = mkResponse (TextBody (lit "Too Many Requests")) 429
  /\ (exists rest, trace (GET request lemma (fresh d)).2 = CallApplyRateLimit :: rest)
  /\ (exists rest, trace (POST request (fresh d)).2 = CallApplyRateLimit :: rest).
Proof.
  split; [|split; [reflexivity|split]].
  - intros Hlimit.
    assert (Hget : GET request lemma (fresh d)
                   = (Returned WordsRoute.too_many_requests, mkWorld d [CallApplyRateLimit])).
    { unfold WordsRoute.GET. unfold_handler. rewrite Hlimit. reflexivity. }
    assert (Hpost : POST request (fresh d)
                    = (Returned WordsRoute.too_many_requests, mkWorld d [CallApplyRateLimit])).
    { unfold WordsRoute.POST. unfold_handler. rewrite Hlimit. reflexivity. }
    split; [exact Hget|]. split; [exact Hpost|].
    rewrite Hget, Hpost. unfold turned_away. cbn [fst snd db trace status_of].
    split; (split; [reflexivity|split; [|reflexivity]]);
      intros c Hc; apply list_elem_of_singleton in Hc; subst c; reflexivity.
  - unfold WordsRoute.GET. apply rate_limit_is_first.
    intros a. solve_appends.
  - unfold WordsRoute.POST. apply rate_limit_is_first.
    intros a. solve_appends.
Qed.
End RateLimit.

(** A GET turned away by the limiter. *)
Lemma GET_POST_rate_limited_first_witness :
  turned_away
    (WordsRoute.GET Sample.applyRateLimit_closed Sample.isEditorModeFromHeaders
       Sample.getWordByLemma (Sample.request JNull) (JStr (lit "casa"))
       (fresh Sample.store))
    Sample.store.
Proof.
  exact (proj1 (proj2 (proj2
           (proj1 (GET_POST_rate_limited_first Sample.applyRateLimit_closed
                     Sample.isEditorModeFromHeaders Sample.getWordByLemma Sample.createWord
                     Sample.MEANING_MARKER_KEYS (Sample.request JNull) (JStr (lit "casa"))
                     Sample.store)
              eq_refl)))).
Defined.

(** C4 as stated fails for PUT and DELETE: with a limiter that reports
    failure for the request, PUT still adds the note and answers 200,
    and DELETE still deletes the word and answers 200; neither run
    contains a call to [applyRateLimit]. *)
Lemma PUT_DELETE_not_rate_limited :
  let request := Sample.request (obj [("comment", JStr (lit "revisar"))]) in
  let put := WordsRoute.PUT (Sample.session (Some Sample.admin)) Sample.updateWordByLemma
               Sample.addNoteToWord request (lit "casa") (fresh Sample.store) in
  let delete := WordsRoute.DELETE (Sample.session (Some Sample.admin))
                  Sample.deleteWordByLemma request (lit "casa") (fresh Sample.store) in
  Sample.applyRateLimit_closed request = Returned false
  /\ status_of put.1 = Some 200%Z
  /\ trace put.2
     = [CallGetSessionUser; CallAddNoteToWord (lit "casa") (lit "revisar") (Some (NInt 7))]
  /\ ~ turned_away put Sample.store
  /\ status_of delete.1 = Some 200%Z
  /\ trace delete.2 = [CallGetSessionUser; CallDeleteWordByLemma (lit "casa")]
  /\ Sample.store_words (db delete.2) = []
  /\ ~ turned_away delete Sample.store.
Proof.
  cbv zeta. repeat split; try reflexivity.
  - intros (Hst & _). vm_compute in Hst. discriminate.
  - intros (Hst & _). vm_compute in Hst. discriminate.
Qed.

(** ** Handlers of /api/words/[lemma]/comments/[commentId] *)

Lemma parseInt10_cases (s : str) : (exists z, parseInt10 s = NInt z) \/ parseInt10 s = NNaN.
Proof.
  unfold parseInt10.
  match goal with |- context [let '(_, _) := ?X in _] => destruct X as [negative body] end.
  destruct (parse_digits None body); eauto.
Qed.

Lemma parseCommentId_positive (rawId : str) (n : number) :
  CommentsRoute.parseCommentId rawId = Some n
  <-> exists z, parseInt10 rawId = NInt z /\ (0 < z)%Z /\ n = NInt z.
Proof.
  unfold CommentsRoute.parseCommentId.
  destruct (parseInt10_cases rawId) as [[z ->]| ->]; cbn.
  - destruct (Z.leb_spec z 0); split.
    + discriminate.
    + intros (z' & Hz & Hpos & _). injection Hz as <-. lia.
    + intros [= <-]. eauto.
    + intros (z' & Hz & _ & ->). by injection Hz as <-.
  - split; [discriminate | intros (z & Hz & _); discriminate].
Qed.

Lemma parseCommentId_truthy (rawId : str) (n : number) :
  CommentsRoute.parseCommentId rawId = Some n ->
  CommentsRoute.falsy_id (CommentsRoute.parseCommentId rawId) = false.
Proof.
  intros H. rewrite H. apply parseCommentId_positive in H as (z & _ & Hpos & ->).
  cbn. destruct (Z.eqb_spec z 0); [lia | reflexivity].
Qed.

Lemma isOwner_spec (u : SessionUser) (note : NoteDetails) :
  CommentsRoute.isOwner u note = true <-> owns_note u note.
Proof.
  unfold CommentsRoute.isOwner, CommentsRoute.requesterId, owns_note.
  destruct (user_id u) as [[|c rest]|].
  - split; [discriminate | intros (s & z & [= <-] & Hne & _); congruence].
  - destruct (note_userId note) as [owner|].
    + rewrite number_strict_eq_true. split.
      * intros [-> Hnan]. destruct (parseInt10_cases (c :: rest)) as [[z Hz]|Hz];
          [|congruence]. exists (c :: rest), z. rewrite Hz. done.
      * intros (s & z & [= <-] & _ & Hz & [= ->]). rewrite Hz. done.
    + split; [discriminate | intros (s & z & _ & _ & _ & H); discriminate].
  - split; [discriminate | intros (s & z & H & _); discriminate].
Qed.

Lemma role_is (u : SessionUser) (name : string) :
  lit name <> [] ->
  bool_decide (default [] (user_role u) = lit name) = bool_decide (user_role u = Some (lit name)).
Proof.
  intros Hne. apply bool_decide_ext. destruct (user_role u) as [r|]; cbn.
  - split; congruence.
  - split; [congruence | discriminate].
Qed.

Lemma has_admin_role_spec (u : SessionUser) :
  bool_decide (user_role u = Some (lit "admin"))
  || bool_decide (user_role u = Some (lit "superadmin")) = true
  <-> has_admin_role u.
Proof.
  unfold has_admin_role. rewrite orb_true_iff, !bool_decide_eq_true. reflexivity.
Qed.

Lemma canDelete_spec (u : SessionUser) (note : NoteDetails) :
  CommentsRoute.canDelete u note = true <-> may_delete_note u note.
Proof.
  unfold CommentsRoute.canDelete, may_delete_note.
  rewrite orb_true_iff, andb_true_iff, bool_decide_eq_true, isOwner_spec,
    has_admin_role_spec.
  reflexivity.
Qed.

Lemma canEdit_spec (u : SessionUser) (note : NoteDetails) :
  CommentsRoute.canEdit u note = true <-> may_edit_note u note.
Proof.
  unfold CommentsRoute.canEdit, may_edit_note.
  rewrite !role_is by (vm_compute; discriminate).
  rewrite andb_true_iff, isOwner_spec, <- orb_assoc, orb_true_iff, bool_decide_eq_true,
    has_admin_role_spec.
  reflexivity.
Qed.

Section CommentHandlers.
Context {Db : Type}.
Variable getSessionUser : Request -> Outcome (option SessionUser).
Variable getNoteWithDetails : number -> Db -> Outcome (option NoteDetails).
Variable updateNoteValue : number -> str -> Db -> Outcome SavedNote * Db.
Variable deleteNoteById : number -> Db -> Outcome unit * Db.

#[local] Abbreviation PATCH :=
  (CommentsRoute.PATCH getSessionUser getNoteWithDetails updateNoteValue).
#[local] Abbreviation DELETE :=
  (CommentsRoute.DELETE getSessionUser getNoteWithDetails deleteNoteById).

(** The DELETE run once the user, the id and the note are known. *)
Lemma DELETE_run (request : Request) (lemma commentId : str) (d : Db)
    (u : SessionUser) (noteId : number) (note : NoteDetails) :
  getSessionUser request = Returned (Some u) ->
  CommentsRoute.parseCommentId commentId = Some noteId ->
  getNoteWithDetails noteId d = Returned (Some note) ->
  note_word_lemma note = Some (CommentsRoute.normalizeLemma lemma) ->
  DELETE request lemma commentId (fresh d)
  = if CommentsRoute.canDelete u note
    then
      (match (deleteNoteById noteId d).1 with
       | Returned _ => Returned (deleted_response noteId)
       | Thrown e =>
           Returned (CommentsRoute.error_details "Error al eliminar el comentario." e)
       end,
       mkWorld (deleteNoteById noteId d).2
         [CallGetSessionUser; CallGetNoteWithDetails noteId; CallDeleteNoteById noteId])
    else
      (Returned (CommentsRoute.error_response
                   "No tienes permiso para eliminar este comentario." 403),
       mkWorld d [CallGetSessionUser; CallGetNoteWithDetails noteId]).
Proof.
  intros Hs Hid Hnote Hlemma.
  unfold CommentsRoute.DELETE, CommentsRoute.getAuthorizedNote. unfold_handler.
  rewrite Hs, (parseCommentId_truthy _ _ Hid), Hid. cbn.
  rewrite Hnote, Hlemma, bool_decide_eq_true_2 by reflexivity. cbn [negb].
  destruct (CommentsRoute.canDelete u note); cbn [negb db trace app]; [|reflexivity].
  destruct (deleteNoteById noteId d) as [[[]|e] d']; reflexivity.
Qed.


(** The PATCH run once the user, the id, the body and the note are known. *)
Lemma PATCH_run (request : Request) (lemma commentId : str) (d : Db)
    (u : SessionUser) (noteId : number) (payload : JsVal) (text : str)
    (note : NoteDetails) :
  getSessionUser request = Returned (Some u) ->
  CommentsRoute.parseCommentId commentId = Some noteId ->
  request_json request = Returned payload ->
  own_prop payload (lit "note") = JStr text ->
  trim text <> [] ->
  getNoteWithDetails noteId d = Returned (Some note) ->
  note_word_lemma note = Some (CommentsRoute.normalizeLemma lemma) ->
  PATCH request lemma commentId (fresh d)
  = if CommentsRoute.canEdit u note
    then
      (match (updateNoteValue noteId (trim text) d).1 with
       | Returned updated => Returned (updated_response updated note)
       | Thrown e =>
           Returned (CommentsRoute.error_details "Error al actualizar el comentario." e)
       end,
       mkWorld (updateNoteValue noteId (trim text) d).2
         [CallGetSessionUser; CallGetNoteWithDetails noteId;
          CallUpdateNoteValue noteId (trim text)])
    else
      (Returned (CommentsRoute.error_response
                   "Solo puedes editar tus propios comentarios." 403),
       mkWorld d [CallGetSessionUser; CallGetNoteWithDetails noteId]).
Proof.
  intros Hs Hid Hjson Hprop Htext Hnote Hlemma.
  unfold CommentsRoute.PATCH, CommentsRoute.getAuthorizedNote. unfold_handler.
  rewrite Hs, (parseCommentId_truthy _ _ Hid), Hid, Hjson. cbn.
  assert (Hread : forall w : World Db,
            match payload with
            | JUndefined | JNull =>
                throw (Exn (lit "Cannot read properties of null or undefined"))
            | _ => ret (own_prop payload (lit "note"))
            end w = (Returned (JStr text), w)).
  { intros w. destruct payload; try discriminate Hprop; by rewrite Hprop. }
  unfold ret, throw in Hread. rewrite Hread. cbn [db trace app string_of].
  change (is_string (JStr text)) with true. cbv iota.
  rewrite (bool_decide_eq_false_2 _ Htext). cbn [db trace app].
  rewrite Hnote, Hlemma, bool_decide_eq_true_2 by reflexivity. cbn [negb db trace app].
  destruct (CommentsRoute.canEdit u note); cbn [negb db trace app]; [|reflexivity].
  destruct (updateNoteValue noteId (trim text) d) as [[updated|e] d']; reflexivity.
Qed.

(** C3. For every authenticated PATCH request on a comment with a note
    body that does not trim to the empty string and an existing note of
    the lemma: [updateNoteValue] is called exactly when the requester's
    parsed id is the note's [userId] and the requester's role is
    'lexicographer', 'admin' or 'superadmin'. Otherwise the answer is
    403 and the database is as it was; in particular for an admin or
    superadmin who does not own the note, whose DELETE request on the
    same note does reach [deleteNoteById]. On the client,
    [canEditComment] holds exactly in editor mode for the comment's
    author when lexicographer or admin. *)
Theorem comment_PATCH_permission (request : Request) (lemma commentId : str) (d : Db)
    (u : SessionUser) (noteId : number) (payload : JsVal) (text : str)
    (note : NoteDetails) :
  getSessionUser request = Returned (Some u) ->
  CommentsRoute.parseCommentId commentId = Some noteId ->
  request_json request = Returned payload ->
  own_prop payload (lit "note") = JStr text ->
  trim text <> [] ->
  getNoteWithDetails noteId d = Returned (Some note) ->
  note_word_lemma note = Some (CommentsRoute.normalizeLemma lemma) ->
  let run := PATCH request lemma commentId (fresh d) in
  (CallUpdateNoteValue noteId (trim text) ∈ trace run.2 <-> may_edit_note u note)
  /\ (may_edit_note u note ->
        trace run.2
        = [CallGetSessionUser; CallGetNoteWithDetails noteId;
           CallUpdateNoteValue noteId (trim text)]
        /\ db run.2 = (updateNoteValue noteId (trim text) d).2
        /\ (forall updated, (updateNoteValue noteId (trim text) d).1 = Returned updated ->
              run.1 = Returned (updated_response updated note)))
  /\ (~ may_edit_note u note ->
        status_of run.1 = Some 403%Z
        /\ (forall id value, CallUpdateNoteValue id value ∉ trace run.2)
        /\ db run.2 = d)
  /\ (has_admin_role u -> ~ owns_note u note ->
        status_of run.1 = Some 403%Z
        /\ db run.2 = d
        /\ CallDeleteNoteById noteId ∈ trace (DELETE request lemma commentId (fresh d)).2)
  /\ (forall (editorMode isAdmin isLexicographer : bool) (currentId : option number)
             (comment : CommentSection.WordComment),
        CommentSection.canEditComment editorMode isAdmin isLexicographer currentId comment
        = true
        <-> editorMode = true /\ owns_comment currentId comment
            /\ (isLexicographer = true \/ isAdmin = true)).
Proof.
  intros Hs Hid Hjson Hprop Htext Hnote Hlemma run. subst run.
  rewrite (PATCH_run _ _ _ _ _ _ _ _ _ Hs Hid Hjson Hprop Htext Hnote Hlemma).
  rewrite (DELETE_run _ _ _ _ _ _ _ Hs Hid Hnote Hlemma).
  pose proof (canEdit_spec u note) as Hedit.
  pose proof (canDelete_spec u note) as Hdelete.
  split; [|split; [|split; [|split]]].
  - rewrite <- Hedit. destruct (CommentsRoute.canEdit u note); cbn [fst snd db trace].
    + split; [reflexivity | intros _; do 2 right; left].
    + split; [intros H; not_called H | discriminate].
  - intros Hmay. apply Hedit in Hmay. rewrite Hmay. cbn [fst snd db trace].
    split; [reflexivity|]. split; [reflexivity|]. by intros updated ->.
  - intros Hno. destruct (CommentsRoute.canEdit u note); [destruct Hno; by apply Hedit|].
    cbn [fst snd db trace]. split; [reflexivity|]. split; [|reflexivity].
    intros id value H. not_called H.
  - intros Hadmin Hnot.
    destruct (CommentsRoute.canEdit u note);
      [destruct (proj1 Hedit eq_refl) as [Hown _]; contradiction|].
    assert (Hcan : CommentsRoute.canDelete u note = true)
      by (apply Hdelete; right; exact Hadmin).
    rewrite Hcan. cbn [fst snd db trace]. split; [reflexivity|]. split; [reflexivity|].
    do 2 right. left.
  - intros editorMode isAdmin isLexicographer currentId comment.
    unfold CommentSection.canEditComment, CommentSection.owns, owns_comment.
    destruct editorMode; cbn [negb]; [|split; [discriminate | intros [? _]; discriminate]].
    destruct currentId as [mine|];
      [|split; [discriminate | intros (_ & (n & _ & H & _) & _); discriminate]].
    destruct (CommentSection.user comment ≫= CommentSection.comment_user_id) as [theirs|];
      [|split; [discriminate | intros (_ & (n & _ & _ & H) & _); discriminate]].
    destruct (number_strict_eq theirs mine) eqn:Heq; cbn [negb].
    + apply number_strict_eq_true in Heq as [-> Hnan].
      rewrite orb_true_iff. split; [|tauto].
      intros H. split; [reflexivity|]. split; [|exact H]. by exists mine.
    + split; [discriminate|]. intros (_ & (n & Hnan & [= ->] & [= ->]) & _).
      assert (number_strict_eq n n = true) by (by apply number_strict_eq_true).
      congruence.
Qed.
End CommentHandlers.


(** An administrator who did not write note 3 may not edit it, but may
    delete it. *)
Lemma comment_PATCH_permission_witness :
  let request := Sample.request (obj [("note", JStr (lit " corregido "))]) in
  status_of (CommentsRoute.PATCH (Sample.session (Some Sample.admin))
               Sample.getNoteWithDetails Sample.updateNoteValue request
               (lit "casa") (lit "3") (fresh Sample.store)).1 = Some 403%Z
  /\ CallDeleteNoteById (NInt 3)
     ∈ trace (CommentsRoute.DELETE (Sample.session (Some Sample.admin))
                Sample.getNoteWithDetails Sample.deleteNoteById request
                (lit "casa") (lit "3") (fresh Sample.store)).2.
Proof.
  cbv zeta.
  assert (Htext : trim (lit " corregido ") <> []) by (vm_compute; discriminate).
  destruct (comment_PATCH_permission (Sample.session (Some Sample.admin))
              Sample.getNoteWithDetails Sample.updateNoteValue Sample.deleteNoteById
              (Sample.request (obj [("note", JStr (lit " corregido "))]))
              (lit "casa") (lit "3") Sample.store Sample.admin (NInt 3)
              (obj [("note", JStr (lit " corregido "))]) (lit " corregido ") sample_note
              eq_refl eq_refl eq_refl eq_refl Htext eq_refl eq_refl)
    as (_ & _ & _ & Hadmin & _).
  destruct Hadmin as (Hst & _ & Hdel).
  - left. reflexivity.
  - intros (s & z & Hid & _ & Hparse & Hown).
    injection Hid as <-. injection Hown as <-. vm_compute in Hparse. discriminate.
  - split; [exact Hst | exact Hdel].
Defined.

(** *** GET *)

Lemma invalid_lemma_spec (lemma : JsVal) :
  WordsRoute.invalid_lemma lemma = false <-> exists s, lemma = JStr s /\ trim s <> [].
Proof.
  unfold WordsRoute.invalid_lemma, is_string. split.
  - destruct lemma; cbn [typeof string_of truthy];
      try (rewrite (bool_decide_eq_false_2 (_ = TString)) by discriminate;
           cbn [negb]; rewrite orb_true_r; discriminate).
    intros H. exists s. split; [reflexivity|]. intros Ht.
    rewrite Ht, orb_true_r in H. discriminate.
  - intros (s & -> & Ht). cbn [typeof string_of truthy].
    rewrite (bool_decide_eq_false_2 (s = [])) by (intros ->; by apply Ht).
    rewrite (bool_decide_eq_true_2 (TString = TString)) by reflexivity.
    rewrite (bool_decide_eq_false_2 (length (trim s) = 0%nat))
      by (intros Hlen; by apply Ht, nil_length_inv).
    reflexivity.
Qed.

Section GetWord.
Context {Db : Type}.
Variable applyRateLimit : Request -> Outcome bool.
Variable isEditorModeFromHeaders : list (str * str) -> bool.
Variable getWordByLemma : str -> option QueryOptions -> Db -> Outcome (option JsVal).

#[local] Abbreviation GET :=
  (WordsRoute.GET applyRateLimit isEditorModeFromHeaders getWordByLemma).

(** C7, for the requests the limiter lets through. The answer is 400
    ('Invalid lemma parameter') when the lemma parameter is not a
    string that trims to something, and 400 ('Lemma too long') when the
    decoded trimmed lemma has more than 100 code units; a lemma that
    does not decode is answered 500; none of these runs queries the
    database. Otherwise [getWordByLemma] is called once, on the decoded
    lemma, with [includeDrafts] set exactly when the headers indicate
    editor mode or the query parameter editorMode is 'true'; the answer
    is 404 ('Word not found') when the lookup gives nothing, 200 with
    [{ success: true, data }] when it gives a word, and 500 when it
    throws. The database is never changed. *)
Theorem GET_word (request : Request) (lemma : JsVal) (d : Db) :
  applyRateLimit request = Returned true ->
  let run := GET request lemma (fresh d) in
  let editorMode :=
    isEditorModeFromHeaders (headers request)
    || bool_decide (searchParams_get (lit "editorMode") (searchParams request)
                    = Some (lit "true")) in
  db run.2 = d
  /\ ((forall s, lemma = JStr s -> trim s = []) ->
        run.1 = Returned (WordsRoute.error_response "Invalid lemma parameter" 400)
        /\ trace run.2 = [CallApplyRateLimit])
  /\ (forall s, lemma = JStr s -> trim s <> [] ->
        match decodeURIComponent (trim s) with
        | None =>
            status_of run.1 = Some 500%Z /\ trace run.2 = [CallApplyRateLimit]
        | Some decoded =>
            if (100 <? length decoded)%nat
            then run.1 = Returned (WordsRoute.error_response "Lemma too long" 400)
                 /\ trace run.2 = [CallApplyRateLimit]
            else
              trace run.2
              = [CallApplyRateLimit; CallGetWordByLemma decoded (query_options editorMode)]
              /\ match getWordByLemma decoded (query_options editorMode) d with
                 | Returned None =>
                     run.1 = Returned (WordsRoute.error_response "Word not found" 404)
                 | Returned (Some data) =>
                     run.1 = Returned (found_response data)
                     /\ status_of run.1 = Some 200%Z
                 | Thrown _ => status_of run.1 = Some 500%Z
                 end
        end)
  /\ (query_options editorMode = Some (mkQueryOptions true)
      <-> isEditorModeFromHeaders (headers request) = true
          \/ searchParams_get (lit "editorMode") (searchParams request) = Some (lit "true"))
  /\ (query_options editorMode = None \/ query_options editorMode = Some (mkQueryOptions true)).
Proof.
  intros Hlimit run editorMode. subst run.
  unfold WordsRoute.GET. unfold_handler. rewrite Hlimit. cbn [negb].
  fold editorMode. fold (query_options editorMode).
  assert (Hopts :
    (query_options editorMode = Some (mkQueryOptions true)
     <-> isEditorModeFromHeaders (headers request) = true
         \/ searchParams_get (lit "editorMode") (searchParams request) = Some (lit "true"))
    /\ (query_options editorMode = None
        \/ query_options editorMode = Some (mkQueryOptions true))).
  { split.
    - unfold query_options. rewrite <- (bool_decide_eq_true (_ = Some _)), <- orb_true_iff.
      fold editorMode. destruct editorMode; split; try discriminate; reflexivity.
    - unfold query_options. destruct editorMode; [right | left]; reflexivity. }
  destruct (WordsRoute.invalid_lemma lemma) eqn:Hinv.
  - cbn [fst snd db trace].
    split; [reflexivity|]. split; [intros _; split; reflexivity|].
    split; [|exact Hopts].
    intros s -> Ht. assert (WordsRoute.invalid_lemma (JStr s) = false) as Hf
      by (apply invalid_lemma_spec; eauto).
    congruence.
  - apply invalid_lemma_spec in Hinv as (s & -> & Ht). cbn [string_of].
    destruct (decodeURIComponent (trim s)) as [decoded|] eqn:Hdec; cbn [fst snd db trace].
    + destruct (100 <? length decoded)%nat eqn:Hlen; cbn [fst snd db trace app].
      * split; [reflexivity|]. split; [intros H; destruct Ht; by apply H|].
        split; [|exact Hopts].
        intros s' [= <-] _. rewrite Hdec, Hlen. split; reflexivity.
      * destruct (getWordByLemma decoded (query_options editorMode) d)
          as [[data|]|e] eqn:Hget; cbn [fst snd db trace app].
        all: split; [reflexivity|]; (split; [intros H; destruct Ht; by apply H|]);
          (split; [|exact Hopts]);
          intros s' [= <-] _; rewrite Hdec, Hlen, Hget; repeat split; reflexivity.
    + split; [reflexivity|]. split; [intros H; destruct Ht; by apply H|].
      split; [|exact Hopts].
      intros s' [= <-] _. rewrite Hdec. split; reflexivity.
Qed.
End GetWord.

(** A lookup from the editor includes drafts. *)
Lemma GET_word_witness :
  trace (WordsRoute.GET Sample.applyRateLimit_open Sample.isEditorModeFromHeaders
           Sample.getWordByLemma editor_request (JStr (lit " casa ")) (fresh Sample.store)).2
  = [CallApplyRateLimit; CallGetWordByLemma (lit "casa") (Some (mkQueryOptions true))].
Proof.
  assert (Ht : trim (lit " casa ") <> []) by (vm_compute; discriminate).
  exact (proj1 (proj1 (proj2 (proj2
           (GET_word Sample.applyRateLimit_open Sample.isEditorModeFromHeaders
              Sample.getWordByLemma editor_request (JStr (lit " casa ")) Sample.store
              eq_refl))) (lit " casa ") eq_refl Ht)).
Defined.

(** C7 as stated fails twice. A request the limiter turns away is
    answered 429 even with an empty lemma, where 400 is claimed. And the
    lemma ["%"], which is a non-empty string of one code unit, does not
    decode: the answer is 500 and [getWordByLemma] is not called, where
    a lookup followed by 404 or 200 is claimed. *)
Lemma GET_limited_or_malformed :
  let limited := WordsRoute.GET Sample.applyRateLimit_closed Sample.isEditorModeFromHeaders
                   Sample.getWordByLemma (Sample.request JNull) (JStr [])
                   (fresh Sample.store) in
  let malformed := WordsRoute.GET Sample.applyRateLimit_open Sample.isEditorModeFromHeaders
                     Sample.getWordByLemma (Sample.request JNull) (JStr (lit "%"))
                     (fresh Sample.store) in
  (status_of limited.1 = Some 429%Z /\ status_of limited.1 <> Some 400%Z)
  /\ (trim (lit "%") = lit "%" /\ length (lit "%") = 1%nat
      /\ decodeURIComponent (lit "%") = None
      /\ status_of malformed.1 = Some 500%Z
      /\ trace malformed.2 = [CallApplyRateLimit]
      /\ ~ (exists l o, CallGetWordByLemma l o ∈ trace malformed.2)
      /\ status_of malformed.1 <> Some 400%Z
      /\ status_of malformed.1 <> Some 404%Z
      /\ status_of malformed.1 <> Some 200%Z).
Proof.
  cbv zeta. repeat split; try reflexivity; try (vm_compute; discriminate).
  intros (l & o & H). vm_compute in H. not_called H.
Qed.

(** *** POST *)

Lemma prop_readable {Db} (payload : JsVal) (k : string) (w : World Db) :
  readable payload -> prop payload k w = (Returned (own_prop payload (lit k)), w).
Proof. destruct payload; cbn; tauto. Qed.

Lemma pending_meaning_lookup (keys : list str) :
  Forall (fun key => key ∉ FIXED_FIELDS) keys ->
  let m := WordsRoute.pending_meaning keys in
  m !! lit "number" = Some (JNum (NInt 1))
  /\ m !! lit "meaning" = Some (JStr (lit "Definición pendiente"))
  /\ (forall k, k ∈ [lit "origin"; lit "grammarCategory"; lit "remission";
                     lit "observation"; lit "examples"; lit "variant"] ->
        m !! k = Some JNull)
  /\ (forall k, k ∈ keys -> m !! k = Some JNull)
  /\ (forall k, is_Some (m !! k) <-> k ∈ FIXED_FIELDS \/ k ∈ keys).
Proof.
  intros Hdisj m. subst m. unfold WordsRoute.pending_meaning.
  rewrite Forall_forall in Hdisj.
  assert (Hfield : forall k, k ∈ FIXED_FIELDS ->
            WordsRoute.createEmptyMarkerValues keys !! k = None).
  { intros k Hk. rewrite createEmptyMarkerValues_lookup.
    rewrite decide_False; [reflexivity|]. intros Hin. exact (Hdisj k Hin Hk). }
  assert (Hmarker : forall k, k ∈ keys ->
            WordsRoute.createEmptyMarkerValues keys !! k = Some JNull).
  { intros k Hk. rewrite createEmptyMarkerValues_lookup. by rewrite decide_True. }
  split; [rewrite spread_field by (apply Hfield; repeat constructor); reflexivity|].
  split; [rewrite spread_field by (apply Hfield; repeat constructor); reflexivity|].
  split; [|split].
  - intros k Hk. rewrite spread_field.
    + repeat (apply elem_of_cons in Hk as [->|Hk]; [reflexivity|]).
      by apply elem_of_nil in Hk.
    + apply Hfield. unfold FIXED_FIELDS. do 2 right. exact Hk.
  - intros k Hk. apply spread_marker, Hmarker, Hk.
  - intros k. destruct (decide (k ∈ keys)) as [Hin|Hout].
    + rewrite (spread_marker _ _ _ _ (Hmarker k Hin)). split; [tauto|eauto].
    + rewrite spread_field
        by (rewrite createEmptyMarkerValues_lookup; by rewrite decide_False).
      split.
      * intros Hsome. left. unfold WordsRoute.meaning_fields in Hsome.
        apply elem_of_dom in Hsome. rewrite dom_list_to_map in Hsome.
        apply elem_of_list_to_set in Hsome. exact Hsome.
      * intros [Hk|Hk]; [|contradiction].
        unfold FIXED_FIELDS in Hk.
        repeat (apply elem_of_cons in Hk as [->|Hk]; [eexists; reflexivity|]).
        by apply elem_of_nil in Hk.
Qed.

Section CreateWord.
Context {Db : Type}.
Variable applyRateLimit : Request -> Outcome bool.
Variable createWord : Word -> CreateWordOptions -> Db -> Outcome CreateWordResult * Db.
Variable MEANING_MARKER_KEYS : list str.

#[local] Abbreviation POST :=
  (WordsRoute.POST applyRateLimit createWord MEANING_MARKER_KEYS).
#[local] Abbreviation normalizeMeanings :=
  (WordsRoute.normalizeMeanings MEANING_MARKER_KEYS).

(** The POST run on a readable body with a lemma. *)
Lemma POST_run (request : Request) (payload : JsVal) (s : str) (d : Db) :
  applyRateLimit request = Returned true ->
  request_json request = Returned payload ->
  own_prop payload (lit "lemma") = JStr s ->
  trim s <> [] ->
  exists root options,
    let values := normalizeMeanings (own_prop payload (lit "values")) in
    let word :=
      mkWord (trim s) root
        (if (0 <? length values)%nat then values
         else [WordsRoute.pending_meaning MEANING_MARKER_KEYS]) in
    POST request (fresh d)
    = (match (createWord word options d).1 with
       | Returned result => Returned (created_response result)
       | Thrown e => Returned (WordsRoute.error_details "Error al crear la palabra" e)
       end,
       mkWorld (createWord word options d).2
         [CallApplyRateLimit; CallCreateWord word options]).
Proof.
  intros Hlimit Hjson Hlemma Ht.
  assert (Hread : readable payload) by (destruct payload; try discriminate Hlemma; exact I).
  eexists _, _. cbv zeta.
  unfold WordsRoute.POST.
  unfold try_catch, bind, call_env, call_mutation, settle, ret, record_call, fresh.
  cbn [db trace app].
  rewrite Hlimit, Hjson. cbn [negb].
  rewrite !(prop_readable payload _ _ Hread). rewrite Hlemma. cbn [string_of].
  change (is_string (JStr s)) with true. cbv iota.
  rewrite (bool_decide_eq_false_2 _ Ht).
  rewrite !(prop_readable payload _ _ Hread). cbn [db trace app].
  match goal with |- context [createWord ?w ?o d] =>
    destruct (createWord w o d) as [[result|e] d'] eqn:Hcreate
  end; rewrite Hcreate; reflexivity.
Qed.

(** C6, for the requests the limiter lets through whose body parses to
    a JSON value other than [null]. If the body's [lemma] is not a
    string, or trims to the empty string, the answer is 400 ('El lema
    es obligatorio') and [createWord] is not called. Otherwise
    [createWord] is called once, with the trimmed lemma and, when
    [normalizeMeanings] of the body's [values] is empty, with the single
    pending meaning: number 1, meaning 'Definición pendiente', origin,
    grammarCategory, remission, observation, examples and variant
    [null], every marker key [null], and no other field. When
    [createWord] returns, the answer is 201 with [wordId], [lemma] and
    [letter] in [data]. The marker keys are taken to differ from the
    names of the fixed fields. *)
Theorem POST_word (request : Request) (payload : JsVal) (d : Db) :
  Forall (fun key => key ∉ FIXED_FIELDS) MEANING_MARKER_KEYS ->
  applyRateLimit request = Returned true ->
  request_json request = Returned payload ->
  readable payload ->
  let run := POST request (fresh d) in
  let pending := WordsRoute.pending_meaning MEANING_MARKER_KEYS in
  ((forall s, own_prop payload (lit "lemma") = JStr s -> trim s = []) ->
     run.1 = Returned (WordsRoute.error_response "El lema es obligatorio" 400)
     /\ ~ create_called (trace run.2)
     /\ db run.2 = d)
  /\ (forall s, own_prop payload (lit "lemma") = JStr s -> trim s <> [] ->
        exists word options,
          trace run.2 = [CallApplyRateLimit; CallCreateWord word options]
          /\ word_lemma word = trim s
          /\ (normalizeMeanings (own_prop payload (lit "values")) = [] ->
              word_values word = [pending])
          /\ (normalizeMeanings (own_prop payload (lit "values")) <> [] ->
              word_values word = normalizeMeanings (own_prop payload (lit "values")))
          /\ db run.2 = (createWord word options d).2
          /\ (forall result, (createWord word options d).1 = Returned result ->
                run.1 = Returned (created_response result)
                /\ status_of run.1 = Some 201%Z))
  /\ (pending !! lit "number" = Some (JNum (NInt 1))
      /\ pending !! lit "meaning" = Some (JStr (lit "Definición pendiente"))
      /\ (forall k, k ∈ [lit "origin"; lit "grammarCategory"; lit "remission";
                         lit "observation"; lit "examples"; lit "variant"] ->
            pending !! k = Some JNull)
      /\ (forall k, k ∈ MEANING_MARKER_KEYS -> pending !! k = Some JNull)
      /\ (forall k, is_Some (pending !! k) <-> k ∈ FIXED_FIELDS \/ k ∈ MEANING_MARKER_KEYS)).
Proof.
  intros Hdisj Hlimit Hjson Hread run pending. subst run pending.
  split; [|split; [|exact (pending_meaning_lookup MEANING_MARKER_KEYS Hdisj)]].
  - intros Hbad.
    unfold WordsRoute.POST.
    unfold try_catch, bind, call_env, call_mutation, settle, ret, record_call, fresh.
    cbn [db trace app].
    rewrite Hlimit, Hjson. cbn [negb].
    rewrite (prop_readable payload _ _ Hread).
    assert (Hempty :
      (if is_string (own_prop payload (lit "lemma"))
       then trim (string_of (own_prop payload (lit "lemma"))) else []) = []).
    { destruct (own_prop payload (lit "lemma")) eqn:Hl; try reflexivity.
      change (is_string (JStr s)) with true. cbn [string_of]. by apply Hbad. }
    rewrite Hempty, bool_decide_eq_true_2 by reflexivity.
    cbn [fst snd db trace]. split; [reflexivity|]. split; [|reflexivity].
    intros (word & options & H). not_called H.
  - intros s Hlemma Ht.
    destruct (POST_run request payload s d Hlimit Hjson Hlemma Ht) as (root & options & Hrun).
    cbv zeta in Hrun. rewrite Hrun. cbn [fst snd db trace].
    eexists _, options. split; [reflexivity|]. split; [reflexivity|].
    split; [intros ->; reflexivity|]. split; [|split; [reflexivity|]].
    + intros Hne. cbn [word_values].
      destruct (normalizeMeanings (own_prop payload (lit "values")));
        [contradiction | reflexivity].
    + intros result ->. split; reflexivity.
Qed.
End CreateWord.

(** A word posted with a lemma only gets the pending meaning. *)
Lemma POST_word_witness :
  let run := WordsRoute.POST Sample.applyRateLimit_open Sample.createWord
               Sample.MEANING_MARKER_KEYS
               (Sample.request (obj [("lemma", JStr (lit " perro "))]))
               (fresh Sample.store) in
  exists word options,
    trace run.2 = [CallApplyRateLimit; CallCreateWord word options]
    /\ word_lemma word = lit "perro"
    /\ word_values word = [WordsRoute.pending_meaning Sample.MEANING_MARKER_KEYS].
Proof.
  cbv zeta.
  assert (Ht : trim (lit " perro ") <> []) by (vm_compute; discriminate).
  destruct (proj1 (proj2 (POST_word Sample.applyRateLimit_open Sample.createWord
                            Sample.MEANING_MARKER_KEYS
                            (Sample.request (obj [("lemma", JStr (lit " perro "))]))
                            (obj [("lemma", JStr (lit " perro "))]) Sample.store
                            sample_keys_are_not_fields eq_refl eq_refl I))
              (lit " perro ") eq_refl Ht)
    as (word & options & Htrace & Hlemma & Hpending & _).
  exists word, options. split; [exact Htrace|]. split.
  - rewrite Hlemma. reflexivity.
  - apply Hpending. reflexivity.
Defined.

(** C6 as stated fails twice. A request the limiter turns away is
    answered 429 although its [lemma] is not a string, where 400 is
    claimed. And on the body [null], whose [lemma] cannot be read, the
    answer is 500, where 400 is claimed. *)
Lemma POST_limited_or_null :
  let limited := WordsRoute.POST Sample.applyRateLimit_closed Sample.createWord
                   Sample.MEANING_MARKER_KEYS
                   (Sample.request (obj [("lemma", JNum (NInt 5))])) (fresh Sample.store) in
  let null := WordsRoute.POST Sample.applyRateLimit_open Sample.createWord
                Sample.MEANING_MARKER_KEYS (Sample.request JNull) (fresh Sample.store) in
  (status_of limited.1 = Some 429%Z /\ status_of limited.1 <> Some 400%Z)
  /\ (status_of null.1 = Some 500%Z /\ status_of null.1 <> Some 400%Z
      /\ trace null.2 = [CallApplyRateLimit]).
Proof.
  cbv zeta. repeat split; try reflexivity; vm_compute; discriminate.
Qed.

(** * Further properties of the routes *)

(** ** Every handler answers *)

Section Answers.
Context {Db : Type}.





Lemma answers_within (codes : list Z) (m : M Db Response) :
  answers codes m -> within codes m.
Proof. intros H w. destruct (H w) as (r & -> & Hr). exact Hr. Qed.
End Answers.



Section WordHandlersAnswer.
Context {Db : Type}.
Variable applyRateLimit : Request -> Outcome bool.
Variable isEditorModeFromHeaders : list (str * str) -> bool.
Variable getSessionUser : Request -> Outcome (option SessionUser).
Variable getWordByLemma : str -> option QueryOptions -> Db -> Outcome (option JsVal).
Variable createWord : Word -> CreateWordOptions -> Db -> Outcome CreateWordResult * Db.
Variable updateWordByLemma : str -> JsVal -> JsVal -> JsVal -> Db -> Outcome unit * Db.
Variable deleteWordByLemma : str -> Db -> Outcome unit * Db.
Variable addNoteToWord : str -> str -> option number -> Db -> Outcome SavedNote * Db.
Variable MEANING_MARKER_KEYS : list str.

End WordHandlersAnswer.

(** ** PUT /api/words/[lemma] *)

Section PutWord.
Context {Db : Type}.
Variable getSessionUser : Request -> Outcome (option SessionUser).
Variable updateWordByLemma : str -> JsVal -> JsVal -> JsVal -> Db -> Outcome unit * Db.
Variable addNoteToWord : str -> str -> option number -> Db -> Outcome SavedNote * Db.

#[local] Abbreviation PUT :=
  (WordsRoute.PUT getSessionUser updateWordByLemma addNoteToWord).

Lemma is_object_check (body : JsVal) :
  negb (truthy body) || negb (bool_decide (typeof body = TObject)) = false
  <-> is_object body.
Proof.
  unfold is_object. destruct body; cbn [typeof truthy negb].
  1,3,4,5: rewrite (bool_decide_eq_false_2 (_ = TObject)) by discriminate; cbn [negb];
    rewrite orb_true_r; (split; [discriminate | intros [H _]; discriminate H]).
  - split; [discriminate | intros [_ H]; congruence].
  - rewrite bool_decide_eq_true_2 by reflexivity.
    split; intros _; [split; [reflexivity | discriminate] | reflexivity].
  - rewrite bool_decide_eq_true_2 by reflexivity.
    split; intros _; [split; [reflexivity | discriminate] | reflexivity].
Qed.

Lemma no_comment_check (body : JsVal) :
  is_string (own_prop body (lit "comment"))
  && (0 <? length (trim (string_of (own_prop body (lit "comment")))))%nat = false
  <-> no_comment body.
Proof.
  unfold no_comment, is_string.
  destruct (own_prop body (lit "comment")) as [| | | |c| |]; cbn [typeof string_of];
    try (rewrite bool_decide_eq_false_2 by discriminate; split; [discriminate | reflexivity]).
  rewrite bool_decide_eq_true_2 by reflexivity. cbn [andb]. split.
  - intros H c' [= <-]. apply Nat.ltb_ge in H. apply nil_length_inv. lia.
  - intros H. rewrite (H c eq_refl). reflexivity.
Qed.

(** PUT on a body that is not an object, or that carries neither a
    word nor a comment, answers 400 and does nothing else: no call is
    made, not even to the session, and the database is as it was. *)
Theorem PUT_nothing_to_change (request : Request) (lemma decoded : str) (body : JsVal)
    (d : Db) :
  decodeURIComponent lemma = Some decoded ->
  request_json request = Returned body ->
  (~ is_object body ->
     PUT request lemma (fresh d)
     = (Returned (WordsRoute.error_response
                    "Solicitud inválida: se esperaba un objeto JSON" 400),
        fresh d))
  /\ (is_object body -> truthy (own_prop body (lit "word")) = false -> no_comment body ->
        PUT request lemma (fresh d)
        = (Returned (WordsRoute.error_response
                       "No se proporcionaron cambios para actualizar" 400),
           fresh d)).
Proof.
  intros Hdec Hjson. unfold WordsRoute.PUT. unfold_handler. rewrite Hdec, Hjson.
  split.
  - intros Hno.
    destruct (negb (truthy body) || negb (bool_decide (typeof body = TObject))) eqn:Hc;
      [reflexivity|].
    apply is_object_check in Hc. contradiction.
  - intros Hobj Hword Hnone.
    rewrite (proj2 (is_object_check body) Hobj).
    rewrite (proj2 (no_comment_check body) Hnone), Hword. reflexivity.
Qed.

(** PUT with a word and no comment updates the word without asking who
    is signed in: [updateWordByLemma] is its only call. It answers
    [{ success: true }] when the update returns and 500 when it
    throws. *)
Theorem PUT_word_only (request : Request) (lemma decoded : str) (body : JsVal) (d : Db) :
  decodeURIComponent lemma = Some decoded ->
  request_json request = Returned body ->
  is_object body ->
  no_comment body ->
  truthy (own_prop body (lit "word")) = true ->
  let run := PUT request lemma (fresh d) in
  let update :=
    updateWordByLemma decoded (own_prop body (lit "word")) (own_prop body (lit "status"))
      (own_prop body (lit "assignedTo")) d in
  trace run.2
  = [CallUpdateWordByLemma decoded (own_prop body (lit "word"))
       (own_prop body (lit "status")) (own_prop body (lit "assignedTo"))]
  /\ (CallGetSessionUser ∉ trace run.2)
  /\ db run.2 = update.2
  /\ match update.1 with
     | Returned _ => run.1 = Returned (put_success None) /\ status_of run.1 = Some 200%Z
     | Thrown e =>
         run.1 = Returned (WordsRoute.error_details "Error al actualizar la palabra" e)
     end.
Proof.
  intros Hdec Hjson Hobj Hnone Hword run update. subst run update.
  unfold WordsRoute.PUT. unfold_handler. rewrite Hdec, Hjson.
  rewrite (proj2 (is_object_check body) Hobj).
  rewrite (proj2 (no_comment_check body) Hnone), Hword. cbn [db trace app].
  destruct (updateWordByLemma _ _ _ _ d) as [[[]|e] d']; cbn [fst snd db trace].
  all: (split; [reflexivity|]); (split; [intros H; not_called H|]);
    (split; [reflexivity|]); try split; reflexivity.
Qed.

(** The PUT run on a body with a comment, once the session is known. *)
Lemma PUT_comment_run (request : Request) (lemma decoded : str) (body : JsVal) (c : str)
    (session : option SessionUser) (d : Db) :
  decodeURIComponent lemma = Some decoded ->
  request_json request = Returned body ->
  is_object body ->
  own_prop body (lit "comment") = JStr c ->
  trim c <> [] ->
  getSessionUser request = Returned session ->
  let maybeId := WordsRoute.session_id_number session in
  let userId := if Number_isInteger maybeId then Some maybeId else None in
  let word := own_prop body (lit "word") in
  let add := CallAddNoteToWord decoded (trim c) userId in
  let update :=
    CallUpdateWordByLemma decoded word (own_prop body (lit "status"))
      (own_prop body (lit "assignedTo")) in
  PUT request lemma (fresh d)
  = match addNoteToWord decoded (trim c) userId d with
    | (Thrown e, d1) =>
        (Returned (WordsRoute.error_details "Error al actualizar la palabra" e),
         mkWorld d1 [CallGetSessionUser; add])
    | (Returned created, d1) =>
        if truthy word
        then
          match updateWordByLemma decoded word (own_prop body (lit "status"))
                  (own_prop body (lit "assignedTo")) d1 with
          | (Returned _, d2) =>
              (Returned (put_success (Some (WordsRoute.comment_json created))),
               mkWorld d2 [CallGetSessionUser; add; update])
          | (Thrown e, d2) =>
              (Returned (WordsRoute.error_details "Error al actualizar la palabra" e),
               mkWorld d2 [CallGetSessionUser; add; update])
          end
        else
          (Returned (put_success (Some (WordsRoute.comment_json created))),
           mkWorld d1 [CallGetSessionUser; add])
    end.
Proof.
  intros Hdec Hjson Hobj Hc Ht Hs. cbv zeta.
  unfold WordsRoute.PUT. unfold_handler. rewrite Hdec, Hjson.
  rewrite (proj2 (is_object_check body) Hobj). rewrite Hc. cbn [string_of].
  change (is_string (JStr c)) with true. cbn [andb].
  assert (Hlen : (0 <? length (trim c))%nat = true).
  { apply Nat.ltb_lt. destruct (trim c); [contradiction | cbn; lia]. }
  rewrite Hlen, Hs. cbn [db trace app].
  destruct (addNoteToWord decoded (trim c) _ d) as [[created|e] d1]; cbn [db trace app];
    [|reflexivity].
  destruct (truthy (own_prop body (lit "word"))); [|reflexivity].
  cbn [db trace app].
  destruct (updateWordByLemma decoded _ _ _ d1) as [[[]|e] d2]; reflexivity.
Qed.

(** A comment sent with PUT is stored under the integer that the
    session user's id parses to, and under no user ([null]) when nobody
    is signed in, when the session has no id, or when the id does not
    parse: PUT never answers 401. The note is added to the decoded
    lemma, with the comment trimmed. *)
Theorem PUT_comment_author (request : Request) (lemma decoded : str) (body : JsVal)
    (c : str) (session : option SessionUser) (d : Db) :
  decodeURIComponent lemma = Some decoded ->
  request_json request = Returned body ->
  is_object body ->
  own_prop body (lit "comment") = JStr c ->
  trim c <> [] ->
  getSessionUser request = Returned session ->
  let run := PUT request lemma (fresh d) in
  exists userId rest,
    trace run.2 = CallGetSessionUser :: CallAddNoteToWord decoded (trim c) userId :: rest
    /\ status_of run.1 <> Some 401%Z
    /\ (session = None -> userId = None)
    /\ (forall u, session = Some u -> user_id u = None -> userId = None)
    /\ (forall u, session = Some u -> user_id u = Some [] -> userId = None)
    /\ (forall u s, session = Some u -> user_id u = Some s -> s <> [] ->
          userId = match parseInt10 s with
                   | NInt z => Some (NInt z)
                   | _ => None
                   end).
Proof.
  intros Hdec Hjson Hobj Hc Ht Hs run. subst run.
  rewrite (PUT_comment_run _ _ _ _ _ _ _ Hdec Hjson Hobj Hc Ht Hs). cbv zeta.
  set (userId := if Number_isInteger (WordsRoute.session_id_number session)
                 then Some (WordsRoute.session_id_number session) else None).
  assert (Huser :
    (session = None -> userId = None)
    /\ (forall u, session = Some u -> user_id u = None -> userId = None)
    /\ (forall u, session = Some u -> user_id u = Some [] -> userId = None)
    /\ (forall u s, session = Some u -> user_id u = Some s -> s <> [] ->
          userId = match parseInt10 s with
                   | NInt z => Some (NInt z)
                   | _ => None
                   end)).
  { subst userId. unfold WordsRoute.session_id_number.
    split; [intros ->; reflexivity|].
    split; [intros u -> Hid; cbn; rewrite Hid; reflexivity|].
    split; [intros u -> Hid; cbn; rewrite Hid; reflexivity|].
    intros u s -> Hid Hne. cbn. rewrite Hid.
    destruct s as [|ch s]; [contradiction|].
    destruct (parseInt10 (ch :: s)); reflexivity. }
  destruct (addNoteToWord decoded (trim c) userId d) as [[created|e] d1].
  - destruct (truthy (own_prop body (lit "word"))).
    + destruct (updateWordByLemma decoded _ _ _ d1) as [[[]|e] d2];
        eexists userId, _; (split; [reflexivity|]); (split; [discriminate | exact Huser]).
    + exists userId, []. split; [reflexivity|]. split; [discriminate | exact Huser].
  - exists userId, []. split; [reflexivity|]. split; [discriminate | exact Huser].
Qed.

(** When PUT carries both a comment and a word, the note is added
    first and the word updated on the database the insertion left. If
    adding the note throws, the word is not updated. If the update
    throws, the answer is 500 although the note has been added: the
    database is the one the two calls left, nothing is undone. When
    both return, the answer carries the created comment. *)
Theorem PUT_comment_then_word (request : Request) (lemma decoded : str) (body : JsVal)
    (c : str) (session : option SessionUser) (d : Db) :
  decodeURIComponent lemma = Some decoded ->
  request_json request = Returned body ->
  is_object body ->
  own_prop body (lit "comment") = JStr c ->
  trim c <> [] ->
  getSessionUser request = Returned session ->
  truthy (own_prop body (lit "word")) = true ->
  let run := PUT request lemma (fresh d) in
  exists userId,
    let add := CallAddNoteToWord decoded (trim c) userId in
    let update :=
      CallUpdateWordByLemma decoded (own_prop body (lit "word"))
        (own_prop body (lit "status")) (own_prop body (lit "assignedTo")) in
    match addNoteToWord decoded (trim c) userId d with
    | (Thrown e, d1) =>
        trace run.2 = [CallGetSessionUser; add]
        /\ db run.2 = d1
        /\ status_of run.1 = Some 500%Z
    | (Returned created, d1) =>
        trace run.2 = [CallGetSessionUser; add; update]
        /\ db run.2
           = (updateWordByLemma decoded (own_prop body (lit "word"))
                (own_prop body (lit "status")) (own_prop body (lit "assignedTo")) d1).2
        /\ match (updateWordByLemma decoded (own_prop body (lit "word"))
                    (own_prop body (lit "status")) (own_prop body (lit "assignedTo"))
                    d1).1 with
           | Returned _ =>
               run.1 = Returned (put_success (Some (WordsRoute.comment_json created)))
           | Thrown _ => status_of run.1 = Some 500%Z
           end
    end.
Proof.
  intros Hdec Hjson Hobj Hc Ht Hs Hword run. subst run.
  rewrite (PUT_comment_run _ _ _ _ _ _ _ Hdec Hjson Hobj Hc Ht Hs). cbv zeta.
  set (userId := if Number_isInteger (WordsRoute.session_id_number session)
                 then Some (WordsRoute.session_id_number session) else None).
  exists userId. rewrite Hword.
  destruct (addNoteToWord decoded (trim c) userId d) as [[created|e] d1].
  - destruct (updateWordByLemma decoded _ _ _ d1) as [[[]|e] d2];
      repeat split; reflexivity.
  - repeat split; reflexivity.
Qed.
End PutWord.

Lemma PUT_nothing_to_change_witness :
  WordsRoute.PUT (Sample.session None) Sample.updateWordByLemma Sample.addNoteToWord
    (Sample.request JNull) (lit "casa") (fresh Sample.store)
  = (Returned (WordsRoute.error_response
                 "Solicitud inválida: se esperaba un objeto JSON" 400),
     fresh Sample.store).
Proof.
  refine (proj1 (PUT_nothing_to_change (Sample.session None) Sample.updateWordByLemma
                   Sample.addNoteToWord (Sample.request JNull) (lit "casa") (lit "casa")
                   JNull Sample.store eq_refl eq_refl) _).
  intros [_ H]. congruence.
Defined.

Lemma PUT_word_only_witness :
  trace (WordsRoute.PUT (Sample.session None) Sample.updateWordByLemma Sample.addNoteToWord
           (Sample.request put_word_body) (lit "casa") (fresh Sample.store)).2
  = [CallUpdateWordByLemma (lit "casa") (obj [("lemma", JStr (lit "casa"))])
       (JStr (lit "redacted")) JUndefined].
Proof.
  assert (Hobj : is_object put_word_body) by (split; [reflexivity | discriminate]).
  assert (Hnone : no_comment put_word_body)
    by (intros c H; vm_compute in H; discriminate).
  exact (proj1 (PUT_word_only (Sample.session None) Sample.updateWordByLemma
                  Sample.addNoteToWord (Sample.request put_word_body) (lit "casa")
                  (lit "casa") put_word_body Sample.store eq_refl eq_refl Hobj Hnone
                  eq_refl)).
Defined.

(** Nobody is signed in: the note is stored without an author. *)
Lemma PUT_comment_author_witness :
  exists rest,
    trace (WordsRoute.PUT (Sample.session None) Sample.updateWordByLemma
             Sample.addNoteToWord (Sample.request put_comment_body) (lit "casa")
             (fresh Sample.store)).2
    = CallGetSessionUser :: CallAddNoteToWord (lit "casa") (lit "revisar") None :: rest.
Proof.
  assert (Hobj : is_object put_comment_body) by (split; [reflexivity | discriminate]).
  assert (Ht : trim (lit " revisar ") <> []) by (vm_compute; discriminate).
  destruct (PUT_comment_author (Sample.session None) Sample.updateWordByLemma
              Sample.addNoteToWord (Sample.request put_comment_body) (lit "casa")
              (lit "casa") put_comment_body (lit " revisar ") None Sample.store
              eq_refl eq_refl Hobj eq_refl Ht eq_refl)
    as (userId & rest & Htrace & _ & Hnone & _).
  exists rest. rewrite Htrace, (Hnone eq_refl). reflexivity.
Defined.

Lemma PUT_comment_then_word_witness :
  exists userId,
    trace (WordsRoute.PUT (Sample.session (Some Sample.admin)) Sample.updateWordByLemma
             Sample.addNoteToWord (Sample.request put_both_body) (lit "casa")
             (fresh Sample.store)).2
    = [CallGetSessionUser;
       CallAddNoteToWord (lit "casa") (lit "revisar") userId;
       CallUpdateWordByLemma (lit "casa") (obj [("lemma", JStr (lit "casa"))])
         JUndefined JUndefined].
Proof.
  assert (Hobj : is_object put_both_body) by (split; [reflexivity | discriminate]).
  assert (Ht : trim (lit " revisar ") <> []) by (vm_compute; discriminate).
  destruct (PUT_comment_then_word (Sample.session (Some Sample.admin))
              Sample.updateWordByLemma Sample.addNoteToWord (Sample.request put_both_body)
              (lit "casa") (lit "casa") put_both_body (lit " revisar ")
              (Some Sample.admin) Sample.store eq_refl eq_refl Hobj eq_refl Ht eq_refl
              eq_refl)
    as (userId & H).
  exists userId. exact (proj1 H).
Defined.

(** ** The comment handlers: validation and authorisation *)

Ltac in_calls H :=
  repeat (apply elem_of_cons in H as [H|H]; [try discriminate H|]);
  try (by apply elem_of_nil in H).

Lemma prop_cases {Db} (payload : JsVal) (k : string) (w : World Db) :
  prop payload k w = (Returned (own_prop payload (lit k)), w)
  \/ exists e, prop payload k w = (Thrown e, w).
Proof. destruct payload; cbn; eauto. Qed.

Section CommentValidation.
Context {Db : Type}.
Variable getSessionUser : Request -> Outcome (option SessionUser).
Variable getNoteWithDetails : number -> Db -> Outcome (option NoteDetails).
Variable updateNoteValue : number -> str -> Db -> Outcome SavedNote * Db.
Variable deleteNoteById : number -> Db -> Outcome unit * Db.

#[local] Abbreviation PATCH :=
  (CommentsRoute.PATCH getSessionUser getNoteWithDetails updateNoteValue).
#[local] Abbreviation DELETE :=
  (CommentsRoute.DELETE getSessionUser getNoteWithDetails deleteNoteById).


Lemma falsy_id_parse (commentId : str) :
  CommentsRoute.falsy_id (CommentsRoute.parseCommentId commentId) = false ->
  exists id, CommentsRoute.parseCommentId commentId = Some id.
Proof. destruct (CommentsRoute.parseCommentId commentId); [eauto | discriminate]. Qed.

(** Whatever the request, a comment handler reaches a mutation only
    for a signed-in user who is allowed to make it, on the note the id
    in the URL names, and only if that note belongs to the word in the
    URL. DELETE calls [deleteNoteById] only under the deletion rule,
    PATCH calls [updateNoteValue] only under the edition rule and with
    the trimmed, non-empty note of the body; DELETE never updates and
    PATCH never deletes. *)
Theorem comment_mutations_are_authorised (request : Request) (lemma commentId : str)
    (d : Db) :
  (forall id, CallDeleteNoteById id ∈ trace (DELETE request lemma commentId (fresh d)).2 ->
     exists u note,
       getSessionUser request = Returned (Some u)
       /\ CommentsRoute.parseCommentId commentId = Some id
       /\ getNoteWithDetails id d = Returned (Some note)
       /\ note_word_lemma note = Some (CommentsRoute.normalizeLemma lemma)
       /\ may_delete_note u note)
  /\ (forall id value,
        CallUpdateNoteValue id value ∈ trace (PATCH request lemma commentId (fresh d)).2 ->
        exists u note payload text,
          getSessionUser request = Returned (Some u)
          /\ CommentsRoute.parseCommentId commentId = Some id
          /\ request_json request = Returned payload
          /\ own_prop payload (lit "note") = JStr text
          /\ value = trim text /\ value <> []
          /\ getNoteWithDetails id d = Returned (Some note)
          /\ note_word_lemma note = Some (CommentsRoute.normalizeLemma lemma)
          /\ may_edit_note u note)
  /\ (forall id value,
        CallUpdateNoteValue id value ∉ trace (DELETE request lemma commentId (fresh d)).2)
  /\ (forall id, CallDeleteNoteById id ∉ trace (PATCH request lemma commentId (fresh d)).2).
Proof.
  assert (Hdel : forall c, c ∈ trace (DELETE request lemma commentId (fresh d)).2 ->
            c = CallGetSessionUser
            \/ (exists id, c = CallGetNoteWithDetails id)
            \/ (exists u note id,
                  c = CallDeleteNoteById id
                  /\ getSessionUser request = Returned (Some u)
                  /\ CommentsRoute.parseCommentId commentId = Some id
                  /\ getNoteWithDetails id d = Returned (Some note)
                  /\ note_word_lemma note = Some (CommentsRoute.normalizeLemma lemma)
                  /\ may_delete_note u note)).
  { unfold CommentsRoute.DELETE, CommentsRoute.getAuthorizedNote. unfold_handler.
    destruct (getSessionUser request) as [[u|]|e] eqn:Hs; cbn [fst snd db trace];
      [|intros c H; in_calls H; auto..].
    destruct (CommentsRoute.falsy_id (CommentsRoute.parseCommentId commentId)) eqn:Hf;
      cbn [fst snd db trace]; [intros c H; in_calls H; auto|].
    destruct (falsy_id_parse _ Hf) as [n Hid]. rewrite Hid. cbn [from_option id].
    cbn [db trace app].
    destruct (getNoteWithDetails n d) as [[note|]|e] eqn:Hnote; cbn [fst snd db trace];
      [|intros c H; in_calls H; eauto..].
    destruct (bool_decide (note_word_lemma note = Some (CommentsRoute.normalizeLemma lemma)))
      eqn:Hl; cbn [negb fst snd db trace];
      [apply bool_decide_eq_true_1 in Hl | intros c H; in_calls H; eauto].
    destruct (CommentsRoute.canDelete u note) eqn:Hcan; cbn [negb fst snd db trace app];
      [|intros c H; in_calls H; eauto].
    apply canDelete_spec in Hcan.
    destruct (deleteNoteById n d) as [[[]|e] d']; cbn [fst snd db trace];
      intros c H; in_calls H; subst c; eauto 12. }
  assert (Hpat : forall c, c ∈ trace (PATCH request lemma commentId (fresh d)).2 ->
            c = CallGetSessionUser
            \/ (exists id, c = CallGetNoteWithDetails id)
            \/ (exists u note payload text id,
                  c = CallUpdateNoteValue id (trim text)
                  /\ getSessionUser request = Returned (Some u)
                  /\ CommentsRoute.parseCommentId commentId = Some id
                  /\ request_json request = Returned payload
                  /\ own_prop payload (lit "note") = JStr text
                  /\ trim text <> []
                  /\ getNoteWithDetails id d = Returned (Some note)
                  /\ note_word_lemma note = Some (CommentsRoute.normalizeLemma lemma)
                  /\ may_edit_note u note)).
  { unfold CommentsRoute.PATCH, CommentsRoute.getAuthorizedNote.
    unfold try_catch, bind, call_env, call_query, call_mutation, settle, ret, throw,
      record_call, fresh.
    cbn [db trace fst snd app].
    destruct (getSessionUser request) as [[u|]|e] eqn:Hs; cbn [fst snd db trace];
      [|intros c H; in_calls H; auto..].
    destruct (CommentsRoute.falsy_id (CommentsRoute.parseCommentId commentId)) eqn:Hf;
      cbn [fst snd db trace]; [intros c H; in_calls H; auto|].
    destruct (falsy_id_parse _ Hf) as [n Hid]. rewrite Hid. cbn [from_option id].
    destruct (request_json request) as [payload|e] eqn:Hjson; cbn [fst snd db trace];
      [|intros c H; in_calls H; auto].
    match goal with |- context [prop payload "note" ?w] =>
      destruct (prop_cases payload "note" w) as [Hp|[e Hp]]; rewrite Hp
    end; cbn [fst snd db trace]; [|intros c H; in_calls H; auto].
    destruct (own_prop payload (lit "note")) as [| | | |text| |] eqn:Hnoteval;
      cbn [fst snd db trace string_of];
      try (change (is_string _) with false; cbv iota;
           rewrite bool_decide_eq_true_2 by reflexivity; cbn [fst snd db trace];
           intros c H; in_calls H; auto; fail).
    change (is_string (JStr text)) with true; cbv iota.
    destruct (bool_decide (trim text = [])) eqn:Ht; cbn [fst snd db trace];
      [intros c H; in_calls H; auto | apply bool_decide_eq_false_1 in Ht].
    cbn [db trace app].
    destruct (getNoteWithDetails n d) as [[note|]|e] eqn:Hnote;
      cbn [fst snd db trace]; [|intros c H; in_calls H; eauto..].
    destruct (bool_decide (note_word_lemma note
                           = Some (CommentsRoute.normalizeLemma lemma))) eqn:Hl;
      cbn [negb fst snd db trace];
      [apply bool_decide_eq_true_1 in Hl | intros c H; in_calls H; eauto].
    destruct (CommentsRoute.canEdit u note) eqn:Hcan; cbn [negb fst snd db trace app];
      [|intros c H; in_calls H; eauto].
    apply canEdit_spec in Hcan.
    destruct (updateNoteValue n (trim text) d) as [[updated|e] d'];
      cbn [fst snd db trace];
      intros c H; in_calls H; subst c; eauto;
      right; right; exists u, note, payload, text, n; auto 12. }
  split; [|split; [|split]].
  - intros id H. destruct (Hdel _ H) as [Hc|[[id' Hc]|(u & note & id' & Hc & Hrest)]];
      try discriminate Hc.
    injection Hc as <-. eauto.
  - intros id value H.
    destruct (Hpat _ H)
      as [Hc|[[id' Hc]|(u & note & payload & text & id' & Hc & H1 & H2 & H3 & H4 & H5 & Hrest)]];
      try discriminate Hc.
    injection Hc as <- ->. exists u, note, payload, text. auto 12.
  - intros id value H. destruct (Hdel _ H) as [Hc|[[id' Hc]|(u & note & id' & Hc & _)]];
      discriminate Hc.
  - intros id H.
    destruct (Hpat _ H) as [Hc|[[id' Hc]|(u & note & payload & text & id' & Hc & _)]];
      discriminate Hc.
Qed.

(** A comment handler turns a request away before it looks anything up
    in the database: with 401 when nobody is signed in, with 400 when
    the comment id does not parse to a positive integer, and, for
    PATCH, with 400 when the body's note is not a string or trims to
    the empty string. In each case the session lookup is the only call
    made. The id is refused exactly when [parseInt] gives NaN or a
    number that is not above zero. *)
Theorem comment_rejected_before_lookup (request : Request) (lemma commentId : str) (d : Db) :
  let patch := PATCH request lemma commentId (fresh d) in
  let delete := DELETE request lemma commentId (fresh d) in
  let asked := mkWorld d [CallGetSessionUser] in
  (getSessionUser request = Returned None ->
     patch = (Returned (CommentsRoute.error_response "Autenticación requerida." 401), asked)
     /\ delete
        = (Returned (CommentsRoute.error_response "Autenticación requerida." 401), asked))
  /\ (forall u, getSessionUser request = Returned (Some u) ->
        CommentsRoute.parseCommentId commentId = None ->
        patch = (Returned (CommentsRoute.error_response
                             "Identificador de comentario inválido." 400), asked)
        /\ delete = (Returned (CommentsRoute.error_response
                                 "Identificador de comentario inválido." 400), asked))
  /\ (forall u noteId payload,
        getSessionUser request = Returned (Some u) ->
        CommentsRoute.parseCommentId commentId = Some noteId ->
        request_json request = Returned payload ->
        readable payload ->
        (forall text, own_prop payload (lit "note") = JStr text -> trim text = []) ->
        patch = (Returned (CommentsRoute.error_response
                             "El comentario no puede estar vacío." 400), asked))
  /\ (CommentsRoute.parseCommentId commentId = None
      <-> ~ exists z, parseInt10 commentId = NInt z /\ (0 < z)%Z).
Proof.
  intros patch delete asked. subst patch delete asked.
  unfold CommentsRoute.PATCH, CommentsRoute.DELETE.
  unfold try_catch, bind, call_env, call_query, call_mutation, settle, ret, throw,
    record_call, fresh.
  cbn [db trace app].
  split; [|split; [|split]].
  - intros ->. split; reflexivity.
  - intros u -> ->. split; reflexivity.
  - intros u noteId payload -> Hid Hjson Hread Hblank.
    rewrite (parseCommentId_truthy _ _ Hid), Hid, Hjson. cbn [from_option id].
    rewrite (prop_readable payload "note" _ Hread).
    assert (Hempty :
      (if is_string (own_prop payload (lit "note"))
       then trim (string_of (own_prop payload (lit "note"))) else []) = []).
    { destruct (own_prop payload (lit "note")) eqn:Hl; try reflexivity.
      change (is_string (JStr s)) with true. cbn [string_of]. by apply Hblank. }
    rewrite Hempty, bool_decide_eq_true_2 by reflexivity. reflexivity.
  - destruct (CommentsRoute.parseCommentId commentId) as [n|] eqn:Hid.
    + apply parseCommentId_positive in Hid as (z & Hz & Hpos & _).
      split; [discriminate | intros Hno; destruct Hno; eauto].
    + split; [|reflexivity]. intros _ (z & Hz & Hpos).
      assert (CommentsRoute.parseCommentId commentId = Some (NInt z))
        by (apply parseCommentId_positive; eauto).
      congruence.
Qed.

(** A note that does not exist, or that belongs to another word than
    the one in the URL, is answered 404 by both handlers: the note is
    looked up, and nothing is updated or deleted. DELETE does so
    whatever the body of the request is, and without one; PATCH once
    the body carries a note that does not trim to the empty string. *)
Theorem comment_of_another_word (request : Request) (lemma commentId : str) (d : Db)
    (u : SessionUser) (noteId : number) (found : option NoteDetails) :
  getSessionUser request = Returned (Some u) ->
  CommentsRoute.parseCommentId commentId = Some noteId ->
  getNoteWithDetails noteId d = Returned found ->
  (forall note, found = Some note ->
     note_word_lemma note <> Some (CommentsRoute.normalizeLemma lemma)) ->
  let looked_up := mkWorld d [CallGetSessionUser; CallGetNoteWithDetails noteId] in
  DELETE request lemma commentId (fresh d)
  = (Returned (CommentsRoute.error_response "Comentario no encontrado." 404), looked_up)
  /\ (forall payload text,
        request_json request = Returned payload ->
        own_prop payload (lit "note") = JStr text ->
        trim text <> [] ->
        PATCH request lemma commentId (fresh d)
        = (Returned (CommentsRoute.error_response "Comentario no encontrado." 404),
           looked_up)).
Proof.
  intros Hs Hid Hnote Hother looked_up. subst looked_up. split.
  - unfold CommentsRoute.DELETE, CommentsRoute.getAuthorizedNote.
    unfold try_catch, bind, call_env, call_query, call_mutation, settle, ret, throw,
      record_call, fresh.
    cbn [db trace app].
    rewrite Hs, (parseCommentId_truthy _ _ Hid), Hid. cbn [from_option id].
    cbn [db trace app]. rewrite Hnote.
    destruct found as [note|]; [|reflexivity].
    rewrite (bool_decide_eq_false_2 _ (Hother note eq_refl)). reflexivity.
  - intros payload text Hjson Hprop Htext.
    assert (Hread : readable payload)
      by (destruct payload; try discriminate Hprop; exact I).
    unfold CommentsRoute.PATCH, CommentsRoute.getAuthorizedNote.
    unfold try_catch, bind, call_env, call_query, call_mutation, settle, ret, throw,
      record_call, fresh.
    cbn [db trace app].
    rewrite Hs, (parseCommentId_truthy _ _ Hid), Hid, Hjson. cbn [from_option id].
    rewrite (prop_readable payload "note" _ Hread), Hprop. cbn [string_of].
    change (is_string (JStr text)) with true. cbv iota.
    rewrite (bool_decide_eq_false_2 _ Htext). cbn [db trace app]. rewrite Hnote.
    destruct found as [note|]; [|reflexivity].
    rewrite (bool_decide_eq_false_2 _ (Hother note eq_refl)). reflexivity.
Qed.
End CommentValidation.

(** Whoever may edit a comment may delete it, on the server and in the
    comment section alike, and an administrator may delete any
    comment. A session user without a role
    may do neither, and outside editor mode the section offers
    neither. In editor mode the section offers deletion to
    lexicographers on their own comments and to administrators on any
    comment. *)
Theorem edit_implies_delete :
  (forall u note, CommentsRoute.canEdit u note = true -> CommentsRoute.canDelete u note = true)
  /\ (forall u note, user_role u = None ->
        CommentsRoute.canEdit u note = false /\ CommentsRoute.canDelete u note = false)
  /\ (forall u note, user_role u = Some (lit "admin") -> CommentsRoute.canDelete u note = true)
  /\ (forall editorMode isAdmin isLexicographer currentId comment,
        CommentSection.canEditComment editorMode isAdmin isLexicographer currentId comment
        = true ->
        CommentSection.canDeleteComment editorMode isAdmin isLexicographer currentId comment
        = true)
  /\ (forall isAdmin isLexicographer currentId comment,
        CommentSection.canEditComment false isAdmin isLexicographer currentId comment = false
        /\ CommentSection.canDeleteComment false isAdmin isLexicographer currentId comment
           = false)
  /\ (forall isAdmin isLexicographer currentId comment,
        CommentSection.canDeleteComment true isAdmin isLexicographer currentId comment = true
        <-> (isLexicographer = true /\ owns_comment currentId comment) \/ isAdmin = true).
Proof.
  split; [|split; [|split; [|split; [|split]]]].
  - intros u note H. apply canEdit_spec in H as [Hown [Hlex|Hadm]];
      apply canDelete_spec; [left; tauto | right; exact Hadm].
  - intros u note Hrole. split.
    + destruct (CommentsRoute.canEdit u note) eqn:H; [|reflexivity].
      apply canEdit_spec in H as [_ [H|[H|H]]]; congruence.
    + destruct (CommentsRoute.canDelete u note) eqn:H; [|reflexivity].
      apply canDelete_spec in H as [[H _]|[H|H]]; congruence.
  - intros u note Hrole. apply canDelete_spec. right. left. exact Hrole.
  - intros editorMode isAdmin isLexicographer currentId comment.
    unfold CommentSection.canEditComment, CommentSection.canDeleteComment.
    destruct editorMode; cbn [negb]; [|discriminate].
    destruct (CommentSection.owns currentId comment); cbn [negb]; [|discriminate].
    by rewrite andb_true_r.
  - intros. split; reflexivity.
  - intros isAdmin isLexicographer currentId comment.
    unfold CommentSection.canDeleteComment. cbn [negb].
    rewrite orb_true_iff, andb_true_iff.
    assert (Howns : CommentSection.owns currentId comment = true
                    <-> owns_comment currentId comment).
    { unfold CommentSection.owns, owns_comment.
      destruct currentId as [mine|];
        [|split; [discriminate | intros (n & _ & H & _); discriminate]].
      destruct (CommentSection.user comment ≫= CommentSection.comment_user_id)
        as [theirs|]; [|split; [discriminate | intros (n & _ & _ & H); discriminate]].
      rewrite number_strict_eq_true. split.
      - intros [-> Hnan]. by exists mine.
      - intros (n & Hnan & [= ->] & [= ->]). split; [reflexivity | exact Hnan]. }
    rewrite Howns. reflexivity.
Qed.

(** ** Meanings handed to [createWord] *)

Lemma trimStart_keeps (c : N) (s : str) :
  is_white_space c = false -> c ∈ s -> c ∈ trimStart s.
Proof.
  intros Hc. induction s as [|x s IH]; intros Hin; cbn [trimStart]; [exact Hin|].
  destruct (is_white_space x) eqn:Hx; [|exact Hin].
  apply elem_of_cons in Hin as [->|Hin]; [congruence | by apply IH].
Qed.

Lemma trim_not_blank (c : N) (s : str) :
  is_white_space c = false -> c ∈ s -> trim s <> [].
Proof.
  intros Hc Hin. unfold trim, trimEnd.
  assert (H : c ∈ trimStart (reverse (trimStart s))).
  { apply trimStart_keeps; [exact Hc|]. apply elem_of_reverse.
    by apply trimStart_keeps. }
  intros Hnil. apply (f_equal reverse) in Hnil. rewrite reverse_involutive in Hnil.
  rewrite Hnil in H. cbn in H. by apply elem_of_nil in H.
Qed.

Lemma definition_label_not_blank (suffix : str) :
  trim (lit "Definición " ++ suffix) <> [].
Proof.
  apply (trim_not_blank 68); [reflexivity|].
  apply elem_of_app. left. vm_compute. left.
Qed.

Lemma normalize_item_filled (keys : list str) (index : nat) (def : JsVal) :
  Forall (fun key => key ∉ FIXED_FIELDS) keys ->
  let m := WordsRoute.normalize_item keys index def in
  (exists n, m !! lit "number" = Some (JNum n))
  /\ (exists s, m !! lit "meaning" = Some (JStr s) /\ trim s <> [])
  /\ (m !! lit "examples" = Some JNull
      \/ exists x xs, m !! lit "examples" = Some (JArr (x :: xs)))
  /\ (forall k, k ∈ [lit "origin"; lit "grammarCategory"; lit "remission";
                     lit "observation"; lit "variant"] ->
        m !! k = Some JNull \/ exists s, m !! k = Some (JStr s))
  /\ (forall k, k ∈ keys -> m !! k = Some JNull \/ exists s, m !! k = Some (JStr s))
  /\ (forall k, is_Some (m !! k) <-> k ∈ FIXED_FIELDS \/ k ∈ keys).
Proof.
  intros Hdisj m. subst m. unfold WordsRoute.normalize_item.
  match goal with |- context [WordsRoute.meaning_fields ?a ?b ?c ?d ?e ?f ?g ?h] =>
    pose proof (meaning_fields_lookup a b c d e f g h) as Hfields;
    set (fields := WordsRoute.meaning_fields a b c d e f g h) in *
  end.
  cbv zeta in Hfields.
  destruct Hfields as (Hnum & Hmean & Hori & Hgram & Hrem & Hobs & Hex & Hvar).
  assert (Hfield : forall k, k ∈ FIXED_FIELDS ->
            WordsRoute.spread fields (WordsRoute.extractMarkerValues keys def) !! k
            = fields !! k).
  { intros k Hk. apply spread_field. by apply fixed_field_not_marker. }
  assert (Hstr : forall v, WordsRoute.string_or_null v = JNull
                           \/ exists s, WordsRoute.string_or_null v = JStr s).
  { intros v. unfold WordsRoute.string_or_null, is_string.
    destruct v; cbn [typeof];
      try (rewrite bool_decide_eq_false_2 by discriminate; by left).
    rewrite bool_decide_eq_true_2 by reflexivity. right. by eexists. }
  split; [|split; [|split; [|split; [|split]]]].
  - rewrite Hfield by repeat constructor. rewrite Hnum. by eexists.
  - rewrite Hfield by repeat constructor. rewrite Hmean. unfold is_string.
    destruct (own_prop def (lit "meaning")) as [| | | |s| |] eqn:Hm;
      cbn [typeof string_of];
      try (rewrite bool_decide_eq_false_2 by discriminate; cbn [andb];
           eexists; split; [reflexivity | apply definition_label_not_blank]).
    rewrite bool_decide_eq_true_2 by reflexivity. cbn [andb].
    destruct (bool_decide (trim s = [])) eqn:Ht; cbn [negb].
    + eexists; split; [reflexivity | apply definition_label_not_blank].
    + apply bool_decide_eq_false_1 in Ht. by exists s.
  - rewrite Hfield by repeat constructor. rewrite Hex.
    destruct (WordsRoute.extractExamples def) as [|x xs]; cbn; [by left | right; eauto].
  - intros k Hk. rewrite Hfield.
    + repeat (apply elem_of_cons in Hk as [->|Hk];
              [first [rewrite Hori | rewrite Hgram | rewrite Hrem | rewrite Hobs
                     | rewrite Hvar];
               match goal with |- context [WordsRoute.string_or_null ?v] =>
                 destruct (Hstr v) as [->|[s ->]]; [by left | right; by eexists]
               end|]).
      by apply elem_of_nil in Hk.
    + unfold FIXED_FIELDS.
      repeat (apply elem_of_cons in Hk as [->|Hk]; [repeat constructor|]).
      by apply elem_of_nil in Hk.
  - intros k Hk.
    rewrite (spread_marker _ _ _ (marker_of def k)).
    + unfold marker_of. destruct (own_prop def k); try (by left). right. by eexists.
    + rewrite extractMarkerValues_lookup. by rewrite decide_True.
  - intros k. destruct (decide (k ∈ keys)) as [Hin|Hout].
    + rewrite (spread_marker _ _ _ (marker_of def k))
        by (rewrite extractMarkerValues_lookup; by rewrite decide_True).
      split; [tauto | eauto].
    + rewrite spread_field by (rewrite extractMarkerValues_lookup; by rewrite decide_False).
      split.
      * intros Hsome. left. subst fields. unfold WordsRoute.meaning_fields in Hsome.
        apply elem_of_dom in Hsome. rewrite dom_list_to_map in Hsome.
        apply elem_of_list_to_set in Hsome. exact Hsome.
      * intros [Hk|Hk]; [|contradiction].
        unfold FIXED_FIELDS in Hk.
        repeat (apply elem_of_cons in Hk as [->|Hk];
                [first [rewrite Hnum | rewrite Hmean | rewrite Hori | rewrite Hgram
                       | rewrite Hrem | rewrite Hobs | rewrite Hex | rewrite Hvar];
                 eexists; reflexivity|]).
        by apply elem_of_nil in Hk.
Qed.

Lemma normalized_meanings_are_filled_aux (keys : list str) (input : JsVal) (m : Meaning) :
  Forall (fun key => key ∉ FIXED_FIELDS) keys ->
  m ∈ WordsRoute.normalizeMeanings keys input ->
  (exists n, m !! lit "number" = Some (JNum n))
  /\ (exists s, m !! lit "meaning" = Some (JStr s) /\ trim s <> [])
  /\ (m !! lit "examples" = Some JNull
      \/ exists x xs, m !! lit "examples" = Some (JArr (x :: xs)))
  /\ (forall k, k ∈ [lit "origin"; lit "grammarCategory"; lit "remission";
                     lit "observation"; lit "variant"] ->
        m !! k = Some JNull \/ exists s, m !! k = Some (JStr s))
  /\ (forall k, k ∈ keys -> m !! k = Some JNull \/ exists s, m !! k = Some (JStr s))
  /\ (forall k, is_Some (m !! k) <-> k ∈ FIXED_FIELDS \/ k ∈ keys).
Proof.
  intros Hdisj Hin.
  destruct input; try (by apply elem_of_nil in Hin).
  cbn [WordsRoute.normalizeMeanings] in Hin.
  apply list_elem_of_lookup in Hin as [i Hi].
  rewrite list_lookup_imap in Hi.
  destruct (List.filter WordsRoute.is_record items !! i) as [def|]; [|discriminate].
  injection Hi as <-.
  exact (normalize_item_filled keys i def Hdisj).
Qed.

(** Every meaning [normalizeMeanings] gives is filled in: its [number]
    is a number, its [meaning] is a string that does not trim to the
    empty string, its [examples] is [null] or a non-empty array, its
    other fixed fields and its marker keys are [null] or strings, and it
    has no field besides the eight fixed ones and the marker keys (these
    taken to differ from the fixed names). There are never more
    meanings than items. *)
Theorem normalized_meanings_are_filled (keys : list str) (input : JsVal) (m : Meaning) :
  Forall (fun key => key ∉ FIXED_FIELDS) keys ->
  m ∈ WordsRoute.normalizeMeanings keys input ->
  (exists n, m !! lit "number" = Some (JNum n))
  /\ (exists s, m !! lit "meaning" = Some (JStr s) /\ trim s <> [])
  /\ (m !! lit "examples" = Some JNull
      \/ exists x xs, m !! lit "examples" = Some (JArr (x :: xs)))
  /\ (forall k, k ∈ [lit "origin"; lit "grammarCategory"; lit "remission";
                     lit "observation"; lit "variant"] ->
        m !! k = Some JNull \/ exists s, m !! k = Some (JStr s))
  /\ (forall k, k ∈ keys -> m !! k = Some JNull \/ exists s, m !! k = Some (JStr s))
  /\ (forall k, is_Some (m !! k) <-> k ∈ FIXED_FIELDS \/ k ∈ keys)
  /\ (forall items, input = JArr items ->
        (length (WordsRoute.normalizeMeanings keys input) <= length items)%nat).
Proof.
  intros Hdisj Hin.
  assert (Hlen : forall items, input = JArr items ->
            (length (WordsRoute.normalizeMeanings keys input) <= length items)%nat).
  { intros items ->. cbn [WordsRoute.normalizeMeanings]. rewrite length_imap.
    apply List.filter_length_le. }
  destruct (normalized_meanings_are_filled_aux keys input m Hdisj Hin)
    as (H1 & H2 & H3 & H4 & H5 & H6).
  repeat split; try assumption; try (apply H6); apply Hlen.
Qed.

(** When no kept item carries a numeric [number], the meanings are
    numbered 1, 2, 3, ... in the order of the kept items: the items
    that were dropped leave no gap. *)
Theorem meanings_numbered_in_order (keys : list str) (items : list JsVal) :
  Forall (fun key => key ∉ FIXED_FIELDS) keys ->
  (forall def, def ∈ items -> WordsRoute.is_record def = true ->
     typeof (own_prop def (lit "number")) <> TNumber) ->
  (fun m : Meaning => m !! lit "number") <$> WordsRoute.normalizeMeanings keys (JArr items)
  = (fun i => Some (JNum (NInt (Z.of_nat i + 1))))
      <$> seq 0 (length (List.filter WordsRoute.is_record items)).
Proof.
  intros Hdisj Hnone. cbn [WordsRoute.normalizeMeanings].
  apply list_eq. intros i.
  rewrite !list_lookup_fmap, list_lookup_imap.
  destruct (List.filter WordsRoute.is_record items !! i) as [def|] eqn:Hdef.
  - rewrite (lookup_seq_lt _ _ _ (lookup_lt_Some _ _ _ Hdef)). cbn.
    assert (Hin : def ∈ List.filter WordsRoute.is_record items)
      by (eapply list_elem_of_lookup_2; exact Hdef).
    apply list_elem_of_In, List.filter_In in Hin as [Hin Hrec].
    apply list_elem_of_In in Hin.
    specialize (Hnone def Hin Hrec).
    unfold WordsRoute.normalize_item.
    rewrite spread_field by (apply (fixed_field_not_marker keys _ Hdisj); repeat constructor).
    match goal with |- context [WordsRoute.meaning_fields ?a ?b ?c ?d ?e ?f ?g ?h] =>
      rewrite (proj1 (meaning_fields_lookup a b c d e f g h))
    end.
    destruct (own_prop def (lit "number")); try reflexivity. by destruct Hnone.
  - rewrite lookup_seq_ge by (by apply lookup_ge_None). reflexivity.
Qed.

Lemma is_string_inv (v : JsVal) : is_string v = true -> exists s, v = JStr s.
Proof.
  unfold is_string. destruct v; cbn [typeof]; intros H;
    try (apply bool_decide_eq_true_1 in H; discriminate H).
  by eexists.
Qed.

Lemma prop_all_or_none {Db} (payload : JsVal) :
  (forall k (w : World Db), prop payload k w = (Returned (own_prop payload (lit k)), w))
  \/ (forall k (w : World Db), exists e, prop payload k w = (Thrown e, w)).
Proof. destruct payload; cbn; eauto. Qed.

Lemma resolveAssignedTo_not_NaN (v : JsVal) : WordsRoute.resolveAssignedTo v <> Some NNaN.
Proof.
  revert v. fix IH 1. intros v. destruct v as [| | |n|s|items|props].
  - discriminate.
  - discriminate.
  - discriminate.
  - cbn. destruct n; cbn; discriminate.
  - cbn. destruct (parseInt10 s); cbn; discriminate.
  - destruct items as [|first rest]; [discriminate | exact (IH first)].
  - discriminate.
Qed.

Section CreateWordArguments.
Context {Db : Type}.
Variable applyRateLimit : Request -> Outcome bool.
Variable createWord : Word -> CreateWordOptions -> Db -> Outcome CreateWordResult * Db.
Variable MEANING_MARKER_KEYS : list str.

(** Whatever the request, the word POST hands to [createWord] is
    filled in: the limiter has let the request through, the lemma is
    the trimmed [lemma] of the body and is not empty, there is at least
    one meaning, and every meaning has a text that does not trim to the
    empty string. [assignedTo] and [createdBy] are never NaN.
    The marker keys are taken to differ from the fixed field names. *)
Theorem createWord_receives_a_filled_word (request : Request) (d : Db) (word : Word)
    (options : CreateWordOptions) :
  Forall (fun key => key ∉ FIXED_FIELDS) MEANING_MARKER_KEYS ->
  CallCreateWord word options
  ∈ trace (WordsRoute.POST applyRateLimit createWord MEANING_MARKER_KEYS request
             (fresh d)).2 ->
  applyRateLimit request = Returned true
  /\ (exists payload s,
        request_json request = Returned payload
        /\ own_prop payload (lit "lemma") = JStr s
        /\ word_lemma word = trim s)
  /\ word_lemma word <> []
  /\ word_values word <> []
  /\ (forall m, m ∈ word_values word ->
        exists s, m !! lit "meaning" = Some (JStr s) /\ trim s <> [])
  /\ opt_assignedTo options <> Some NNaN
  /\ opt_createdBy options <> Some NNaN.
Proof.
  intros Hdisj. unfold WordsRoute.POST.
  unfold try_catch, bind, call_env, call_mutation, settle, ret, throw, record_call, fresh.
  cbn [db trace app].
  destruct (applyRateLimit request) as [[|]|e] eqn:Hlimit; cbn [negb fst snd db trace];
    [|intros H; in_calls H..].
  destruct (request_json request) as [payload|e] eqn:Hjson; cbn [fst snd db trace];
    [|intros H; in_calls H].
  destruct (prop_all_or_none (Db := Db) payload) as [Hread|Hfail].
  2: { destruct (Hfail "lemma" (mkWorld d [CallApplyRateLimit])) as [e ->].
       cbn [fst snd db trace]. intros H. in_calls H. }
  rewrite Hread. cbv beta iota.
  destruct (is_string (own_prop payload (lit "lemma"))) eqn:Hstr;
    [|rewrite bool_decide_eq_true_2 by reflexivity; cbn [fst snd db trace];
      intros H; in_calls H].
  destruct (is_string_inv _ Hstr) as [s Hlemma]. rewrite Hlemma. cbn [string_of].
  destruct (bool_decide (trim s = [])) eqn:Ht; cbn [fst snd db trace];
    [intros H; in_calls H | apply bool_decide_eq_false_1 in Ht].
  repeat (rewrite Hread; cbv beta iota). cbn [db trace app].
  match goal with |- context [createWord ?w ?o d] =>
    set (sent := w); set (opts := o);
    destruct (createWord sent opts d) as [[result|e] d']
  end; cbn [fst snd db trace]; intros H; in_calls H.
  all: injection H as -> ->; subst sent opts; cbn [word_lemma word_values opt_assignedTo
                                                     opt_createdBy].
  all: split; [reflexivity|]; (split; [by exists payload, s|]); (split; [exact Ht|]).
  all: split; [destruct (WordsRoute.normalizeMeanings _ _); discriminate|].
  all: split; [|split; apply resolveAssignedTo_not_NaN].
  all: intros m Hm.
  all: destruct (WordsRoute.normalizeMeanings MEANING_MARKER_KEYS
                   (own_prop payload (lit "values"))) as [|m0 ms] eqn:Hvals;
    cbn [length Nat.ltb Nat.leb] in Hm.
  all: try (apply list_elem_of_singleton in Hm; subst m;
            exists (lit "Definición pendiente");
            split; [apply (pending_meaning_lookup MEANING_MARKER_KEYS Hdisj)|];
            vm_compute; discriminate).
  all: rewrite <- Hvals in Hm;
    exact (proj1 (proj2 (normalized_meanings_are_filled_aux MEANING_MARKER_KEYS _ m Hdisj Hm))).
Qed.
End CreateWordArguments.

(** ** Lemmas without escapes *)

Lemma uri_tokens_cons (c : N) (rest : str) :
  c <> 37 -> uri_tokens (c :: rest) = (fun ts => Raw c :: ts) <$> uri_tokens rest.
Proof.
  intros Hc. cbn [uri_tokens].
  repeat match goal with
         | |- context [match ?x with _ => _ end] => is_var x; destruct x
         end; try reflexivity; congruence.
Qed.

Lemma uri_tokens_plain (s : str) : 37 ∉ s -> uri_tokens s = Some (Raw <$> s).
Proof.
  induction s as [|c s IH]; intros H; [reflexivity|].
  apply not_elem_of_cons in H as [Hc H].
  rewrite uri_tokens_cons by congruence. rewrite (IH H). reflexivity.
Qed.

Lemma utf8_units_raw (s : str) : utf8_units (Raw <$> s) = Some s.
Proof.
  induction s as [|c s IH]; [reflexivity|].
  cbn [fmap list_fmap utf8_units]. fold (Raw <$> s). rewrite IH. reflexivity.
Qed.

Lemma decodeURIComponent_plain (s : str) : 37 ∉ s -> decodeURIComponent s = Some s.
Proof.
  intros H. unfold decodeURIComponent. rewrite (uri_tokens_plain s H). cbn [mbind option_bind].
  apply utf8_units_raw.
Qed.

Lemma trimStart_subset (c : N) (s : str) : c ∈ trimStart s -> c ∈ s.
Proof.
  induction s as [|x s IH]; cbn [trimStart]; [intros H; exact H|].
  destruct (is_white_space x); [|intros H; exact H]. intros H. right. by apply IH.
Qed.

Lemma trim_subset (c : N) (s : str) : c ∈ trim s -> c ∈ s.
Proof.
  unfold trim, trimEnd. intros H.
  rewrite elem_of_reverse in H. apply trimStart_subset in H.
  rewrite elem_of_reverse in H. apply trimStart_subset, H.
Qed.

(** [normalizeLemma] never throws, and it changes a lemma only when the
    lemma holds a ['%'] and decodes: a lemma without escapes is used as
    it is, and so is a lemma whose escapes are malformed. *)
Theorem normalizeLemma_changes_escapes_only (rawLemma : str) :
  (CommentsRoute.normalizeLemma rawLemma = rawLemma
   \/ (37 ∈ rawLemma
       /\ decodeURIComponent rawLemma = Some (CommentsRoute.normalizeLemma rawLemma)))
  /\ (decodeURIComponent rawLemma = None -> CommentsRoute.normalizeLemma rawLemma = rawLemma)
  /\ (37 ∉ rawLemma -> CommentsRoute.normalizeLemma rawLemma = rawLemma).
Proof.
  unfold CommentsRoute.normalizeLemma.
  destruct (decide (37 ∈ rawLemma)) as [Hin|Hout].
  - destruct (decodeURIComponent rawLemma) as [decoded|] eqn:Hdec.
    + split; [right; by split|]. split; [discriminate | contradiction].
    + split; [by left|]. split; [reflexivity | contradiction].
  - rewrite (decodeURIComponent_plain _ Hout).
    split; [by left|]. split; [discriminate | reflexivity].
Qed.

Section PlainLemma.
Context {Db : Type}.
Variable applyRateLimit : Request -> Outcome bool.
Variable isEditorModeFromHeaders : list (str * str) -> bool.
Variable getWordByLemma : str -> option QueryOptions -> Db -> Outcome (option JsVal).

(** A GET the limiter lets through, for a lemma without ['%'] that
    trims to between 1 and 100 code units, looks up exactly the trimmed
    lemma, once, and is not answered 400 or 429. *)
Theorem GET_plain_lemma (request : Request) (s : str) (d : Db) :
  applyRateLimit request = Returned true ->
  37 ∉ s ->
  trim s <> [] ->
  (length (trim s) <= 100)%nat ->
  let run := WordsRoute.GET applyRateLimit isEditorModeFromHeaders getWordByLemma
               request (JStr s) (fresh d) in
  exists options,
    trace run.2 = [CallApplyRateLimit; CallGetWordByLemma (trim s) options]
    /\ status_of run.1 <> Some 400%Z
    /\ status_of run.1 <> Some 429%Z.
Proof.
  intros Hlimit Hplain Ht Hlen run. subst run.
  unfold WordsRoute.GET. unfold_handler. rewrite Hlimit. cbn [negb].
  rewrite (proj2 (invalid_lemma_spec (JStr s))) by eauto. cbn [string_of].
  rewrite decodeURIComponent_plain
    by (intros Hin; apply Hplain; by apply trim_subset).
  rewrite (proj2 (Nat.ltb_ge 100 (length (trim s)))) by exact Hlen.
  cbn [db trace app].
  eexists.
  destruct (getWordByLemma (trim s) _ d) as [[data|]|e]; cbn [fst snd db trace];
    (split; [reflexivity|]); split; discriminate.
Qed.
End PlainLemma.

(** ** Runs on the sample store *)

(** Note 3 asked for under another word: a DELETE that carries no
    body, and a PATCH with a note. *)
Lemma comment_of_another_word_witness :
  CommentsRoute.DELETE (Sample.session (Some Sample.admin)) Sample.getNoteWithDetails
    Sample.deleteNoteById bodiless_request (lit "perro") (lit "3") (fresh Sample.store)
  = (Returned (CommentsRoute.error_response "Comentario no encontrado." 404),
     mkWorld Sample.store [CallGetSessionUser; CallGetNoteWithDetails (NInt 3)])
  /\ CommentsRoute.PATCH (Sample.session (Some Sample.admin)) Sample.getNoteWithDetails
       Sample.updateNoteValue (Sample.request patch_body) (lit "perro") (lit "3")
       (fresh Sample.store)
     = (Returned (CommentsRoute.error_response "Comentario no encontrado." 404),
        mkWorld Sample.store [CallGetSessionUser; CallGetNoteWithDetails (NInt 3)]).
Proof.
  assert (Ht : trim (lit " corregido ") <> []) by (vm_compute; discriminate).
  assert (Hother : forall note, Some sample_note = Some note ->
            note_word_lemma note <> Some (CommentsRoute.normalizeLemma (lit "perro"))).
  { intros note [= <-]. vm_compute. discriminate. }
  split.
  - exact (proj1 (comment_of_another_word (Sample.session (Some Sample.admin))
                    Sample.getNoteWithDetails Sample.updateNoteValue Sample.deleteNoteById
                    bodiless_request (lit "perro") (lit "3") Sample.store
                    Sample.admin (NInt 3) (Some sample_note)
                    eq_refl eq_refl eq_refl Hother)).
  - exact (proj2 (comment_of_another_word (Sample.session (Some Sample.admin))
                    Sample.getNoteWithDetails Sample.updateNoteValue Sample.deleteNoteById
                    (Sample.request patch_body) (lit "perro") (lit "3") Sample.store
                    Sample.admin (NInt 3) (Some sample_note)
                    eq_refl eq_refl eq_refl Hother)
             patch_body (lit " corregido ") eq_refl eq_refl Ht).
Defined.

Lemma comment_rejected_before_lookup_witness :
  CommentsRoute.DELETE (Sample.session None) Sample.getNoteWithDetails
    Sample.deleteNoteById (Sample.request JNull) (lit "casa") (lit "3") (fresh Sample.store)
  = (Returned (CommentsRoute.error_response "Autenticación requerida." 401),
     mkWorld Sample.store [CallGetSessionUser]).
Proof.
  exact (proj2 (proj1 (comment_rejected_before_lookup (Sample.session None)
                         Sample.getNoteWithDetails Sample.updateNoteValue
                         Sample.deleteNoteById (Sample.request JNull) (lit "casa") (lit "3")
                         Sample.store) eq_refl)).
Defined.

(** The deletion made for the administrator was checked against the
    deletion rule. *)
Lemma comment_mutations_are_authorised_witness :
  exists u note,
    Sample.session (Some Sample.admin) (Sample.request JNull) = Returned (Some u)
    /\ CommentsRoute.parseCommentId (lit "3") = Some (NInt 3)
    /\ Sample.getNoteWithDetails (NInt 3) Sample.store = Returned (Some note)
    /\ note_word_lemma note = Some (CommentsRoute.normalizeLemma (lit "casa"))
    /\ may_delete_note u note.
Proof.
  refine (proj1 (comment_mutations_are_authorised (Sample.session (Some Sample.admin))
                   Sample.getNoteWithDetails Sample.updateNoteValue Sample.deleteNoteById
                   (Sample.request JNull) (lit "casa") (lit "3") Sample.store)
            (NInt 3) _).
  vm_compute. do 2 right. left.
Defined.

Lemma edit_implies_delete_witness :
  CommentsRoute.canDelete Sample.lexicographer sample_note = true.
Proof. exact (proj1 edit_implies_delete Sample.lexicographer sample_note eq_refl). Defined.

Lemma normalizeLemma_changes_escapes_only_witness :
  CommentsRoute.normalizeLemma (lit "100%") = lit "100%".
Proof.
  exact (proj1 (proj2 (normalizeLemma_changes_escapes_only (lit "100%"))) eq_refl).
Defined.

Lemma normalized_meanings_are_filled_witness :
  forall_filled_sample.
Proof.
  unfold forall_filled_sample.
  assert (Hin : WordsRoute.normalize_item Sample.MEANING_MARKER_KEYS 0
                  (obj [("meaning", JStr (lit "  "))])
                ∈ WordsRoute.normalizeMeanings Sample.MEANING_MARKER_KEYS sample_values)
    by (vm_compute; left).
  exact (proj1 (proj2 (normalized_meanings_are_filled Sample.MEANING_MARKER_KEYS
                         sample_values _ sample_keys_are_not_fields Hin))).
Defined.

Lemma meanings_numbered_in_order_witness :
  (fun m : Meaning => m !! lit "number")
    <$> WordsRoute.normalizeMeanings Sample.MEANING_MARKER_KEYS unnumbered_values
  = [Some (JNum (NInt 1)); Some (JNum (NInt 2))].
Proof.
  refine (meanings_numbered_in_order Sample.MEANING_MARKER_KEYS
            [JNull; obj [("meaning", JStr (lit "uno"))]; JNum (NInt 9);
             obj [("meaning", JStr (lit "dos"))]]
            sample_keys_are_not_fields _).
  intros def Hdef _.
  repeat (apply elem_of_cons in Hdef as [->|Hdef]; [vm_compute; discriminate|]).
  by apply elem_of_nil in Hdef.
Defined.

Lemma createWord_receives_a_filled_word_witness :
  Sample.applyRateLimit_open (Sample.request (obj [("lemma", JStr (lit " perro "))]))
  = Returned true.
Proof.
  refine (proj1 (createWord_receives_a_filled_word Sample.applyRateLimit_open
                   Sample.createWord Sample.MEANING_MARKER_KEYS
                   (Sample.request (obj [("lemma", JStr (lit " perro "))])) Sample.store
                   (mkWord (lit "perro") []
                      [WordsRoute.pending_meaning Sample.MEANING_MARKER_KEYS])
                   (mkCreateWordOptions None None None None)
                   sample_keys_are_not_fields _)).
  vm_compute. right. left.
Defined.

Lemma GET_plain_lemma_witness :
  exists options,
    trace (WordsRoute.GET Sample.applyRateLimit_open Sample.isEditorModeFromHeaders
             Sample.getWordByLemma (Sample.request JNull) (JStr (lit " casa "))
             (fresh Sample.store)).2
    = [CallApplyRateLimit; CallGetWordByLemma (lit "casa") options].
Proof.
  assert (Hplain : 37 ∉ lit " casa ").
  { intros H. vm_compute in H. in_calls H. }
  assert (Ht : trim (lit " casa ") <> []) by (vm_compute; discriminate).
  assert (Hlen : (length (trim (lit " casa ")) <= 100)%nat) by (vm_compute; lia).
  destruct (GET_plain_lemma Sample.applyRateLimit_open Sample.isEditorModeFromHeaders
              Sample.getWordByLemma (Sample.request JNull) (lit " casa ") Sample.store
              eq_refl Hplain Ht Hlen) as (options & Htrace & _).
  exists options. exact Htrace.
Defined.

(** * The words report *)

Section ReportRoute.
Variable getSessionUser : Outcome (option Report.User).
Variable getWordsByStatus : list str -> Outcome (list Report.RawRedactedWord).
Variable generatePDFreport : list Report.PDFWord -> str -> Outcome (list N).

#[local] Abbreviation report_GET :=
  (Report.GET getSessionUser getWordsByStatus generatePDFreport).

(** The report route asks for the session before anything else,
    and without a session it answers 401 and makes no other call: the
    words are only queried, and the PDF only generated, for a signed-in
    user. A PDF is generated only from the words the query returned,
    mapped in their order, and for the requested type. *)
Theorem report_needs_a_session (request : Request) :
  let run := report_GET request in
  (exists rest, run.2 = Report.GetSessionUser :: rest)
  /\ (getSessionUser = Returned None ->
      run = (Returned
               (Report.Json
                  (NextResponse_json
                     (obj [("error", JStr (lit "Authentication required"))])
                     (Some 401%Z))),
             [Report.GetSessionUser]))
  /\ (forall c, c ∈ run.2 -> c <> Report.GetSessionUser ->
        exists u, getSessionUser = Returned (Some u))
  /\ (forall words type, Report.GeneratePDFreport words type ∈ run.2 ->
        type = Report.report_type request
        /\ exists statuses raw,
             Report.GetWordsByStatus statuses ∈ run.2
             /\ getWordsByStatus statuses = Returned raw
             /\ words = Report.mapWordsByStatusToPdf raw).
Proof.
  intros run. subst run.
  unfold Report.GET, Report.authenticateAndFetchWordsByStatus, Report.catch,
    Report.and_then, Report.call, Report.done.
  destruct getSessionUser as [[u|]|e]; cbn [fst snd app].
  - set (statuses := if bool_decide (Report.report_type request = lit "both")
                     then _ else _).
    destruct (getWordsByStatus statuses) as [raw|e] eqn:Hraw; cbn [fst snd app].
    + destruct (generatePDFreport _ _) as [bytes|e]; cbn [fst snd app].
      all: split; [eexists; reflexivity|].
      all: split; [discriminate|].
      all: split; [intros; eexists; reflexivity|].
      all: intros words type Hin.
      all: repeat (apply elem_of_cons in Hin as [Hin|Hin]; try discriminate Hin).
      all: try (by apply elem_of_nil in Hin).
      all: injection Hin as -> ->; split; [reflexivity|].
      all: exists statuses, raw; split; [|split]; [|exact Hraw|reflexivity].
      all: right; left.
    + split; [eexists; reflexivity|].
      split; [discriminate|].
      split; [intros; eexists; reflexivity|].
      intros words type Hin.
      repeat (apply elem_of_cons in Hin as [Hin|Hin]; try discriminate Hin).
      by apply elem_of_nil in Hin.
  - split; [eexists; reflexivity|].
    split; [reflexivity|].
    split.
    + intros c Hin Hc. apply list_elem_of_singleton in Hin. contradiction.
    + intros words type Hin. apply list_elem_of_singleton in Hin. discriminate.
  - split; [eexists; reflexivity|].
    split; [discriminate|].
    split.
    + intros c Hin Hc. apply list_elem_of_singleton in Hin. contradiction.
    + intros words type Hin. apply list_elem_of_singleton in Hin. discriminate.
Qed.

(** The report route always answers, with status 200, 401 or
    500. It answers 500 exactly when one of the calls it made threw,
    and 200 exactly when it returns the file, whose content is what
    [generatePDFreport] returned. *)
Theorem report_answers (request : Request) :
  let run := report_GET request in
  exists reply,
    run.1 = Returned reply
    /\ Report.reply_status reply ∈ [200; 401; 500]%Z
    /\ (Report.reply_status reply = 500%Z
        <-> (exists e, getSessionUser = Thrown e)
            \/ (exists statuses e,
                  Report.GetWordsByStatus statuses ∈ run.2
                  /\ getWordsByStatus statuses = Thrown e)
            \/ (exists words type e,
                  Report.GeneratePDFreport words type ∈ run.2
                  /\ generatePDFreport words type = Thrown e))
    /\ (Report.reply_status reply = 200%Z
        <-> exists words type content disposition,
              Report.GeneratePDFreport words type ∈ run.2
              /\ generatePDFreport words type = Returned content
              /\ reply = Report.File content 200 (lit "application/pdf") disposition).
Proof.
  intros run. subst run.
  unfold Report.GET, Report.authenticateAndFetchWordsByStatus, Report.catch,
    Report.and_then, Report.call, Report.done.
  destruct getSessionUser as [[u|]|e]; cbn [fst snd app].
  - set (statuses := if bool_decide (Report.report_type request = lit "both")
                     then _ else _).
    destruct (getWordsByStatus statuses) as [raw|e] eqn:Hraw; cbn [fst snd app].
    + destruct (generatePDFreport _ _) as [bytes|e] eqn:Hpdf; cbn [fst snd app].
      * eexists. split; [reflexivity|]. cbn [Report.reply_status].
        split; [repeat constructor|]. split.
        -- split; [discriminate|].
           intros [[e He]|[(s & e & Hin & He)|(w & t & e & Hin & He)]].
           ++ discriminate He.
           ++ repeat (apply elem_of_cons in Hin as [Hin|Hin]; try discriminate Hin).
              ** injection Hin as ->. congruence.
              ** by apply elem_of_nil in Hin.
           ++ repeat (apply elem_of_cons in Hin as [Hin|Hin]; try discriminate Hin).
              ** injection Hin as -> ->. congruence.
              ** by apply elem_of_nil in Hin.
        -- split; [|reflexivity]. intros _.
           eexists _, _, bytes, _. split; [do 2 right; left|].
           split; [exact Hpdf|reflexivity].
      * eexists. split; [reflexivity|]. cbn [Report.reply_status NextResponse_json status
                                               from_option id].
        split; [repeat constructor|]. split.
        -- split; [|reflexivity]. intros _. do 2 right.
           eexists _, _, e. split; [do 2 right; left|exact Hpdf].
        -- split; [discriminate|].
           intros (w & t & content & disposition & _ & _ & [=]).
    + eexists. split; [reflexivity|]. cbn [Report.reply_status NextResponse_json status
                                             from_option id].
      split; [repeat constructor|]. split.
      * split; [|reflexivity]. intros _. right. left.
        exists statuses, e. split; [right; left|exact Hraw].
      * split; [discriminate|].
        intros (w & t & content & disposition & _ & _ & [=]).
  - eexists. split; [reflexivity|]. cbn [Report.reply_status NextResponse_json status
                                           from_option id].
    split; [repeat constructor|]. split.
    + split; [discriminate|].
      intros [[e He]|[(s & e & Hin & He)|(w & t & e & Hin & He)]].
      * discriminate He.
      * apply list_elem_of_singleton in Hin. discriminate Hin.
      * apply list_elem_of_singleton in Hin. discriminate Hin.
    + split; [discriminate|].
      intros (w & t & content & disposition & _ & _ & [=]).
  - eexists. split; [reflexivity|]. cbn [Report.reply_status NextResponse_json status
                                           from_option id].
    split; [repeat constructor|]. split.
    + split; [|reflexivity]. intros _. left. by exists e.
    + split; [discriminate|].
      intros (w & t & content & disposition & _ & _ & [=]).
Qed.

(** A download for a signed-in user, when the query and the PDF
    generator return. The type is the [type] parameter, ['redacted']
    when it is absent or empty; the statuses queried are both statuses
    for ['both'] and the type itself otherwise, whatever it is; the words
    go to the generator in the order of the query; the answer is the
    PDF, and for the three report types its file name is the one of
    [filenameMap]. *)
Theorem report_download (request : Request) (u : Report.User)
    (raw : list Report.RawRedactedWord) (content : list N) :
  let type := Report.report_type request in
  let statuses :=
    if bool_decide (type = lit "both") then [lit "redacted"; lit "reviewedLex"]
    else [type] in
  getSessionUser = Returned (Some u) ->
  getWordsByStatus statuses = Returned raw ->
  generatePDFreport (Report.mapWordsByStatusToPdf raw) type = Returned content ->
  report_GET request
  = (Returned (Report.File content 200 (lit "application/pdf")
                 (Report.contentDisposition type)),
     [Report.GetSessionUser; Report.GetWordsByStatus statuses;
      Report.GeneratePDFreport (Report.mapWordsByStatusToPdf raw) type])
  /\ (type <> [])
  /\ (searchParams_get (lit "type") (searchParams request) = None -> type = lit "redacted")
  /\ (forall t, t <> [] ->
        searchParams_get (lit "type") (searchParams request) = Some t -> type = t)
  /\ (type = lit "redacted" ->
      Report.contentDisposition type
      = Some (lit "attachment; filename=" ++ [34] ++ lit "reporte_redactadas.pdf" ++ [34]))
  /\ (type = lit "reviewedLex" ->
      Report.contentDisposition type
      = Some (lit "attachment; filename=" ++ [34] ++ lit "reporte_revisadas.pdf" ++ [34]))
  /\ (type = lit "both" ->
      Report.contentDisposition type
      = Some (lit "attachment; filename=" ++ [34] ++ lit "reporte_completo.pdf" ++ [34])).
Proof.
  intros type statuses Hu Hraw Hpdf.
  split.
  { unfold Report.GET, Report.authenticateAndFetchWordsByStatus, Report.catch,
      Report.and_then, Report.call, Report.done.
    rewrite Hu. cbn [fst snd app]. fold type. fold statuses.
    rewrite Hraw. cbn [fst snd app]. rewrite Hpdf. reflexivity. }
  split.
  { subst type. unfold Report.report_type.
    destruct (searchParams_get _ _) as [[|c rest]|]; [|discriminate|];
      vm_compute; discriminate. }
  split.
  { intros Hnone. subst type. unfold Report.report_type. rewrite Hnone. reflexivity. }
  split.
  { intros t Ht Hsome. subst type. unfold Report.report_type. rewrite Hsome.
    destruct t; [contradiction|reflexivity]. }
  repeat split; intros ->; reflexivity.
Qed.

End ReportRoute.

(** [mapWordsByStatusToPdf] keeps the words in their order, with
    their lemma and status, and gives each word either no notes
    ([null]) or a non-empty list of as many notes as the word has: the
    notes of a PDF word are never an empty list. *)
Theorem pdf_words_keep_order (words : list Report.RawRedactedWord) :
  let mapped := Report.mapWordsByStatusToPdf words in
  Report.pdf_lemma <$> mapped = Report.raw_lemma <$> words
  /\ Report.pdf_status <$> mapped = Report.raw_status <$> words
  /\ (forall i word, words !! i = Some word ->
        exists pdf,
          mapped !! i = Some pdf
          /\ match Report.raw_notes word with
             | None | Some [] => Report.pdf_notes pdf = None
             | Some notes =>
                 exists pdfNotes,
                   Report.pdf_notes pdf = Some pdfNotes
                   /\ Report.pdf_note <$> pdfNotes = Report.raw_note <$> notes
                   /\ Report.pdf_date <$> pdfNotes = Report.raw_createdAt <$> notes
             end)
  /\ (forall pdf, pdf ∈ mapped -> Report.pdf_notes pdf <> Some []).
Proof.
  intros mapped. subst mapped. unfold Report.mapWordsByStatusToPdf.
  split; [by rewrite <- list_fmap_compose|].
  split; [by rewrite <- list_fmap_compose|].
  split.
  - intros i word Hi. rewrite list_lookup_fmap, Hi. cbn.
    eexists. split; [reflexivity|]. cbn [Report.pdf_notes].
    destruct (Report.raw_notes word) as [[|note notes]|]; cbn [Report.mapNotes];
      [reflexivity| |reflexivity].
    eexists. split; [reflexivity|].
    split; rewrite <- list_fmap_compose; reflexivity.
  - intros pdf Hin. apply list_elem_of_fmap in Hin as (word & -> & _).
    cbn [Report.pdf_notes].
    destruct (Report.raw_notes word) as [[|note notes]|]; cbn; discriminate.
Qed.

(** * The email helpers *)

Lemma attachments_copy (attachments : option (list Email.Attachment)) :
  (fun atts : list Email.Attachment =>
     (fun att => Email.mkAttachment (Email.filename att) (Email.content att)) <$> atts)
    <$> attachments
  = attachments.
Proof.
  destruct attachments as [atts|]; [|reflexivity]. cbn. f_equal.
  induction atts as [|[name bytes] atts IH]; [reflexivity|].
  cbn. f_equal. exact IH.
Qed.

Section Mailer.
Variable Resend Element : Type.
Variable RESEND_API_KEY : option str.
Variable newResend : option str -> Settled Resend.
Variable emails_send : Resend -> Email.Message -> Settled Email.SendResult.

#[local] Abbreviation sendEmail :=
  (Email.sendEmail Resend Element RESEND_API_KEY newResend emails_send).

Lemma sendEmail_with_client (to subject html logPrefix : str)
    (attachments : option (list Email.Attachment)) (resend : Resend) :
  let message := Email.mkMessage Email.FROM_EMAIL to subject html attachments in
  sendEmail to subject html logPrefix attachments (Some resend)
  = (Fulfilled
       match emails_send resend message with
       | Fulfilled result =>
           match Email.result_error result with
           | Some reason => Email.mkSent false (Some reason)
           | None => Email.mkSent true None
           end
       | Rejected (ErrorInstance reason) => Email.mkSent false (Some reason)
       | Rejected NotAnError => Email.mkSent false (Some (lit "Unknown error"))
       end,
     Some resend, [Email.EmailsSend resend message]).
Proof.
  intros message. unfold Email.sendEmail, Email.try_catch, Email.bind, Email.getResend,
    Email.call, Email.ret.
  rewrite attachments_copy. fold message.
  destruct (emails_send resend message) as [[[reason|]]|[reason|]]; reflexivity.
Qed.

Lemma sendEmail_without_client (to subject html logPrefix : str)
    (attachments : option (list Email.Attachment)) :
  sendEmail to subject html logPrefix attachments None
  = match newResend RESEND_API_KEY with
    | Fulfilled resend =>
        let '(sent, instance, calls) :=
          sendEmail to subject html logPrefix attachments (Some resend) in
        (sent, instance, Email.NewResend RESEND_API_KEY :: calls)
    | Rejected (ErrorInstance reason) =>
        (Fulfilled (Email.mkSent false (Some reason)), None,
         [Email.NewResend RESEND_API_KEY])
    | Rejected NotAnError =>
        (Fulfilled (Email.mkSent false (Some (lit "Unknown error"))), None,
         [Email.NewResend RESEND_API_KEY])
    end.
Proof.
  destruct (newResend RESEND_API_KEY) as [resend|[reason|]] eqn:Hnew.
  - rewrite sendEmail_with_client.
    unfold Email.sendEmail, Email.try_catch, Email.bind, Email.getResend,
      Email.call, Email.ret.
    rewrite Hnew, attachments_copy.
    destruct (emails_send resend _) as [[[reason|]]|[reason|]]; reflexivity.
  - unfold Email.sendEmail, Email.try_catch, Email.bind, Email.getResend,
      Email.call, Email.ret.
    rewrite Hnew. reflexivity.
  - unfold Email.sendEmail, Email.try_catch, Email.bind, Email.getResend,
      Email.call, Email.ret.
    rewrite Hnew. reflexivity.
Qed.

Lemma sendEmail_sent_spec (to subject html : str)
    (attachments : option (list Email.Attachment)) (resend : Resend)
    (before : list (Email.Event Resend Element)) :
  let message := Email.mkMessage Email.FROM_EMAIL to subject html attachments in
  let sent :=
    match emails_send resend message with
    | Fulfilled result =>
        match Email.result_error result with
        | Some reason => Email.mkSent false (Some reason)
        | None => Email.mkSent true None
        end
    | Rejected (ErrorInstance reason) => Email.mkSent false (Some reason)
    | Rejected NotAnError => Email.mkSent false (Some (lit "Unknown error"))
    end in
  let calls := before ++ [Email.EmailsSend resend message] in
  (forall r m, Email.EmailsSend r m ∉ before) ->
  (Email.success sent = true
   <-> exists r,
         Email.EmailsSend r message ∈ calls
         /\ emails_send r message = Fulfilled (Email.mkSendResult None))
  /\ (Email.success sent = true -> Email.error sent = None)
  /\ (Email.success sent = false -> exists reason, Email.error sent = Some reason)
  /\ (forall r sentMessage, Email.EmailsSend r sentMessage ∈ calls -> sentMessage = message).
Proof.
  intros message sent calls Hbefore.
  assert (Hcalls : forall r m, Email.EmailsSend r m ∈ calls -> r = resend /\ m = message).
  { intros r m Hin. apply elem_of_app in Hin as [Hin|Hin]; [by apply Hbefore in Hin|].
    apply list_elem_of_singleton in Hin. by injection Hin as -> ->. }
  assert (Hlast : Email.EmailsSend resend message ∈ calls).
  { apply elem_of_app. right. by apply list_elem_of_singleton. }
  repeat split.
  - intros Hsuccess. exists resend. split; [exact Hlast|]. subst sent.
    destruct (emails_send resend message) as [[[reason|]]|[reason|]];
      try discriminate Hsuccess; reflexivity.
  - intros (r & Hin & Hr). apply Hcalls in Hin as [-> _]. subst sent.
    rewrite Hr. reflexivity.
  - subst sent.
    destruct (emails_send resend message) as [[[reason|]]|[reason|]];
      try discriminate; reflexivity.
  - subst sent.
    destruct (emails_send resend message) as [[[reason|]]|[reason|]];
      try discriminate; intros _; eexists; reflexivity.
  - intros r sentMessage Hin. by apply Hcalls in Hin as [_ ->].
Qed.

(** What the helpers built on [sendEmail] use of it. *)
Lemma sendEmail_resolves (to subject html logPrefix : str)
    (attachments : option (list Email.Attachment)) (instance : option Resend) :
  let run := sendEmail to subject html logPrefix attachments instance in
  let message := Email.mkMessage Email.FROM_EMAIL to subject html attachments in
  (exists sent, run.1.1 = Fulfilled sent)
  /\ (forall resend sentMessage,
        Email.EmailsSend resend sentMessage ∈ run.2 -> sentMessage = message).
Proof.
  intros run message. subst run.
  destruct instance as [resend|].
  - rewrite sendEmail_with_client. cbn [fst snd]. split; [by eexists|].
    intros r m Hin. apply list_elem_of_singleton in Hin. by injection Hin as _ ->.
  - rewrite sendEmail_without_client.
    destruct (newResend RESEND_API_KEY) as [resend|[reason|]].
    + rewrite sendEmail_with_client. cbn [fst snd]. split; [by eexists|].
      intros r m Hin.
      apply elem_of_cons in Hin as [Hin|Hin]; [discriminate Hin|].
      apply list_elem_of_singleton in Hin. by injection Hin as _ ->.
    + cbn [fst snd]. split; [by eexists|].
      intros r m Hin. apply list_elem_of_singleton in Hin. discriminate Hin.
    + cbn [fst snd]. split; [by eexists|].
      intros r m Hin. apply list_elem_of_singleton in Hin. discriminate Hin.
Qed.

(** [sendEmail] never rejects: whatever the [Resend] constructor
    or [emails.send] does, it resolves to a result. The result is a
    success exactly when a message was handed to [emails.send] and the
    call resolved without an error, and a failure always carries an
    error text. Any message handed over is from [FROM_EMAIL], with the
    recipient, subject, content and attachments given. *)
Theorem sendEmail_never_rejects (to subject html logPrefix : str)
    (attachments : option (list Email.Attachment)) (instance : option Resend) :
  let run := sendEmail to subject html logPrefix attachments instance in
  let message := Email.mkMessage Email.FROM_EMAIL to subject html attachments in
  exists sent,
    run.1.1 = Fulfilled sent
    /\ (Email.success sent = true
        <-> exists resend,
              Email.EmailsSend resend message ∈ run.2
              /\ emails_send resend message = Fulfilled (Email.mkSendResult None))
    /\ (Email.success sent = true -> Email.error sent = None)
    /\ (Email.success sent = false -> exists reason, Email.error sent = Some reason)
    /\ (forall resend sentMessage,
          Email.EmailsSend resend sentMessage ∈ run.2 -> sentMessage = message).
Proof.
  intros run message. subst run.
  assert (Hfailed : forall reason,
    let sent := Email.mkSent false (Some reason) in
    let calls : list (Email.Event Resend Element) := [Email.NewResend RESEND_API_KEY] in
    (Email.success sent = true
     <-> exists r,
           Email.EmailsSend r message ∈ calls
           /\ emails_send r message = Fulfilled (Email.mkSendResult None))
    /\ (Email.success sent = true -> Email.error sent = None)
    /\ (Email.success sent = false -> exists text, Email.error sent = Some text)
    /\ (forall r sentMessage,
          Email.EmailsSend r sentMessage ∈ calls -> sentMessage = message)).
  { intros reason sent calls. subst sent calls. cbn [Email.success Email.error].
    split; [split; [discriminate|]|].
    { intros (r & Hin & _). apply list_elem_of_singleton in Hin. discriminate Hin. }
    split; [discriminate|]. split; [intros _; eexists; reflexivity|].
    intros r sentMessage Hin. apply list_elem_of_singleton in Hin. discriminate Hin. }
  destruct instance as [resend|].
  - rewrite sendEmail_with_client. cbn [fst snd]. eexists. split; [reflexivity|].
    apply (sendEmail_sent_spec to subject html attachments resend []).
    intros r m Hin. by apply elem_of_nil in Hin.
  - rewrite sendEmail_without_client.
    destruct (newResend RESEND_API_KEY) as [resend|[reason|]] eqn:Hnew.
    + rewrite sendEmail_with_client. cbn [fst snd]. eexists. split; [reflexivity|].
      apply (sendEmail_sent_spec to subject html attachments resend
               [Email.NewResend RESEND_API_KEY]).
      intros r m Hin. apply list_elem_of_singleton in Hin. discriminate Hin.
    + cbn [fst snd]. eexists. split; [reflexivity|]. apply Hfailed.
    + cbn [fst snd]. eexists. split; [reflexivity|]. apply Hfailed.
Qed.


#[local] Abbreviation send_in_turn jobs :=
  (in_turn
     ((fun job =>
         sendEmail (args_to job) (args_subject job) (args_htmlContent job)
           (args_logPrefix job) (args_attachments job)) <$> jobs)).

Lemma in_turn_with_client (jobs : list SendEmailArgs) (resend : Resend) :
  (send_in_turn jobs (Some resend)).1 = Some resend
  /\ forall c, c ∈ (send_in_turn jobs (Some resend)).2 ->
       exists message, c = Email.EmailsSend resend message.
Proof.
  induction jobs as [|job jobs [IH1 IH2]]; cbn [in_turn fmap list_fmap].
  - split; [reflexivity|]. intros c Hin. by apply elem_of_nil in Hin.
  - rewrite sendEmail_with_client.
    destruct (in_turn _ (Some resend)) as [final calls]. cbn [fst snd] in *.
    split; [exact IH1|].
    intros c Hin. apply elem_of_app in Hin as [Hin|Hin]; [|by apply IH2].
    apply list_elem_of_singleton in Hin. by eexists.
Qed.

(** The [Resend] client is built once. In any series of
    [sendEmail] calls that starts without a client, when the
    constructor returns, the series opens with the one construction,
    every message goes through the client it gave, and that client is
    kept. When the constructor throws, no message is handed over and no
    client is kept, so the next call tries again. *)
Theorem resend_client_is_built_once (job : SendEmailArgs) (jobs : list SendEmailArgs) :
  let run := send_in_turn (job :: jobs) None in
  (forall resend, newResend RESEND_API_KEY = Fulfilled resend ->
     run.1 = Some resend
     /\ exists calls,
          run.2 = Email.NewResend RESEND_API_KEY :: calls
          /\ forall c, c ∈ calls -> exists message, c = Email.EmailsSend resend message)
  /\ (forall reason, newResend RESEND_API_KEY = Rejected reason ->
        run.1 = None
        /\ forall c, c ∈ run.2 -> c = Email.NewResend RESEND_API_KEY).
Proof.
  intros run. subst run. split.
  - intros resend Hnew. cbn [in_turn fmap list_fmap].
    rewrite sendEmail_without_client, Hnew, sendEmail_with_client.
    destruct (in_turn_with_client jobs resend) as [H1 H2].
    destruct (in_turn _ (Some resend)) as [final calls]. cbn [fst snd app] in *.
    split; [exact H1|]. eexists. split; [reflexivity|].
    intros c Hin. apply elem_of_cons in Hin as [->|Hin]; [by eexists|by apply H2].
  - intros reason Hnew.
    induction (job :: jobs) as [|first rest [IH1 IH2]]; cbn [in_turn fmap list_fmap].
    + split; [reflexivity|]. intros c Hin. by apply elem_of_nil in Hin.
    + rewrite sendEmail_without_client, Hnew.
      destruct reason as [reason|]; cbv beta iota.
      all: destruct (in_turn _ None) as [final calls]; cbn [fst snd app] in *.
      all: split; [exact IH1|].
      all: intros c Hin; apply elem_of_cons in Hin as [->|Hin]; [reflexivity|by apply IH2].
Qed.

End Mailer.

Section PasswordEmails.
Variable Date Resend Element : Type.
Variable RESEND_API_KEY HOST_URL : option str.
Variable newResend : option str -> Settled Resend.
Variable emails_send : Resend -> Email.Message -> Settled Email.SendResult.
Variable PasswordEmail : Email.PasswordEmailProps -> Settled Element.
Variable WordsReportEmail : Email.WordsReportEmailProps -> Settled Element.
Variable render : Element -> Settled str.
Variable formatSpanishDate : Date -> str.
Variable toISOString : Date -> str.
Variable toLocaleString : Date -> str.

#[local] Abbreviation sendPasswordEmailWithVariant :=
  (Email.sendPasswordEmailWithVariant Date Resend Element RESEND_API_KEY newResend
     emails_send PasswordEmail render toLocaleString).
#[local] Abbreviation sendWelcomeEmail :=
  (Email.sendWelcomeEmail Date Resend Element RESEND_API_KEY HOST_URL newResend
     emails_send PasswordEmail render toLocaleString).
#[local] Abbreviation sendPasswordResetEmail :=
  (Email.sendPasswordResetEmail Date Resend Element RESEND_API_KEY HOST_URL newResend
     emails_send PasswordEmail render toLocaleString).
#[local] Abbreviation sendPasswordChangeConfirmation :=
  (Email.sendPasswordChangeConfirmation Date Resend Element RESEND_API_KEY newResend
     emails_send PasswordEmail render toLocaleString).
#[local] Abbreviation sendWordsReport :=
  (Email.sendWordsReport Date Resend Element RESEND_API_KEY newResend emails_send
     WordsReportEmail render formatSpanishDate toISOString).

(** The welcome and the reset email are built with a button whose
    link is [http://<host>/cambiar-contrasena?token=<token>], the token
    as given and the host [HOST_URL], or [editor.localhost:3000] when
    that is unset or empty. The confirmation of a changed password has
    no button and no link, and shows the information box. *)
Theorem password_email_link (now : Date) (email username resetToken : str)
    (instance : option Resend) :
  let host :=
    match HOST_URL with
    | Some (c :: rest) => c :: rest
    | _ => lit "editor.localhost:3000"
    end in
  let link := lit "http://" ++ host ++ lit "/cambiar-contrasena?token=" ++ resetToken in
  host <> []
  /\ (forall variant run,
        (variant = Email.welcome
         /\ run = sendWelcomeEmail now email username resetToken instance)
        \/ (variant = Email.reset
            /\ run = sendPasswordResetEmail now email username resetToken instance) ->
        exists props rest,
          run.2 = Email.CallPasswordEmail props :: rest
          /\ Email.buttonLink props = Some link
          /\ is_Some (Email.buttonText props)
          /\ Email.props_username props = username
          /\ Email.props_variant props = variant)
  /\ (exists props rest,
        (sendPasswordChangeConfirmation now email username instance).2
        = Email.CallPasswordEmail props :: rest
        /\ Email.buttonLink props = None
        /\ Email.buttonText props = None
        /\ Email.showInfoBox props = Some true
        /\ Email.props_username props = username).
Proof.
  intros host link.
  assert (Hhost : host <> []).
  { subst host. destruct HOST_URL as [[|c rest]|]; [|discriminate|];
      vm_compute; discriminate. }
  assert (Hlink : exists c rest, Email.createResetLink HOST_URL resetToken = c :: rest
                                 /\ c :: rest = link).
  { unfold Email.createResetLink. fold host. fold link.
    destruct link as [|c rest] eqn:Hl; [|by eexists _, _].
    subst link. vm_compute in Hl. discriminate Hl. }
  destruct Hlink as (c & rest & Hcreate & Hlink).
  assert (Hfirst : forall variant resetLink,
    exists calls,
      (sendPasswordEmailWithVariant now email username variant resetLink instance).2
      = Email.CallPasswordEmail
          (Email.emailProps Date toLocaleString now username variant resetLink) :: calls).
  { intros variant resetLink.
    unfold Email.sendPasswordEmailWithVariant, Email.bind, Email.call.
    destruct (PasswordEmail _) as [element|reason]; [|by eexists].
    destruct (render element) as [emailHtml|reason]; cbn [app]; [|by eexists].
    destruct (Email.sendEmail _ _ _ _ _ _ _ _ _ _ _) as [[sent instance'] calls].
    by eexists. }
  split; [exact Hhost|]. split.
  - intros variant run [[-> ->]|[-> ->]].
    all: unfold Email.sendWelcomeEmail, Email.sendPasswordResetEmail.
    all: match goal with
         | |- context [Email.sendPasswordEmailWithVariant _ _ _ _ _ _ _ _ _ _ _ _ ?v ?l] =>
             destruct (Hfirst v l) as [calls ->]
         end.
    all: eexists _, _; split; [reflexivity|].
    all: unfold Email.emailProps; rewrite Hcreate;
      cbn [Email.PASSWORD_EMAIL_CONFIGS Email.needsButton Email.getButtonText
             Email.buttonLink Email.buttonText Email.props_username Email.props_variant
             mbind option_bind].
    all: rewrite Hlink; repeat split; by eexists.
  - destruct (Hfirst Email.changed None) as [calls Hcalls].
    unfold Email.sendPasswordChangeConfirmation. rewrite Hcalls.
    eexists _, _. split; [reflexivity|]. repeat split.
Qed.

(** A password email is sent only once its template is rendered.
    When the template or [render] rejects, the sending function rejects
    with the same reason and neither builds the client nor hands over a
    message. When they return, it resolves, and any message handed over
    goes to the address given, with the subject of the variant, the
    rendered text and no attachment. *)
Theorem password_email_outcome (now : Date) (to username : str)
    (variant : Email.PasswordEmailVariant) (resetLink : option str)
    (instance : option Resend) :
  let props := Email.emailProps Date toLocaleString now username variant resetLink in
  let run := sendPasswordEmailWithVariant now to username variant resetLink instance in
  let subject :=
    match variant with
    | Email.welcome => lit "Bienvenido a DUECh en línea"
    | Email.reset => lit "Restablece tu contraseña de DUECh en línea"
    | Email.changed => lit "Tu contraseña ha sido actualizada"
    end in
  (forall reason, PasswordEmail props = Rejected reason ->
     run = (Rejected reason, instance, [Email.CallPasswordEmail props]))
  /\ (forall element reason,
        PasswordEmail props = Fulfilled element -> render element = Rejected reason ->
        run = (Rejected reason, instance,
               [Email.CallPasswordEmail props; Email.Render element]))
  /\ (forall element emailHtml,
        PasswordEmail props = Fulfilled element -> render element = Fulfilled emailHtml ->
        (exists sent, run.1.1 = Fulfilled sent)
        /\ forall resend message, Email.EmailsSend resend message ∈ run.2 ->
             message = Email.mkMessage Email.FROM_EMAIL to subject emailHtml None).
Proof.
  intros props run subject. subst run.
  unfold Email.sendPasswordEmailWithVariant, Email.bind, Email.call. fold props.
  split; [|split].
  - intros reason ->. reflexivity.
  - intros element reason -> ->. reflexivity.
  - intros element emailHtml -> ->.
    assert (Hsubject : Email.config_subject
                         (Email.PASSWORD_EMAIL_CONFIGS Date toLocaleString now variant)
                       = subject) by (destruct variant; reflexivity).
    rewrite Hsubject.
    destruct (sendEmail_resolves Resend Element RESEND_API_KEY newResend emails_send
                to subject emailHtml (Email.variant_name variant ++ lit " email") None
                instance) as ([sent Hsent] & Hmessage).
    destruct (Email.sendEmail _ _ _ _ _ _ _ _ _ _ _) as [[result instance'] calls].
    cbn [fst snd app] in *. split; [by exists sent|].
    intros resend message Hin.
    repeat (apply elem_of_cons in Hin as [Hin|Hin]; try discriminate Hin).
    by apply (Hmessage resend).
Qed.

(** The words report is sent to the address given with one
    attachment: the PDF, named [reporte_palabras_<date>.pdf] after the
    date part of the ISO time of sending. The template is given the
    user name and the date formatted by [formatSpanishDate]. *)
Theorem words_report_attachment (now : Date) (email username : str) (pdfBuffer : list N)
    (instance : option Resend) (date time : str) :
  toISOString now = date ++ [84] ++ time ->
  84 ∉ date ->
  let run := sendWordsReport now email username pdfBuffer instance in
  (exists rest,
     run.2 = Email.CallWordsReportEmail
               (Email.mkWordsReportEmailProps username (formatSpanishDate now)) :: rest)
  /\ forall resend message, Email.EmailsSend resend message ∈ run.2 ->
       Email.to message = email
       /\ Email.subject message = lit "Reporte de palabras - DUECh en línea"
       /\ Email.attachments message
          = Some [Email.mkAttachment (lit "reporte_palabras_" ++ date ++ lit ".pdf")
                    pdfBuffer].
Proof.
  intros Hiso Hdate run. subst run.
  assert (Hbefore : Email.before_first 84 (toISOString now) = date).
  { rewrite Hiso. clear Hiso.
    induction date as [|c date IH]; cbn [app Email.before_first].
    - rewrite bool_decide_eq_true_2 by reflexivity. reflexivity.
    - rewrite bool_decide_eq_false_2.
      + f_equal. apply IH. intros Hin. apply Hdate. by right.
      + intros ->. apply Hdate. by left. }
  unfold Email.sendWordsReport, Email.bind, Email.call. rewrite Hbefore.
  destruct (WordsReportEmail _) as [element|reason].
  2: { split; [by eexists|]. intros resend message Hin.
       apply list_elem_of_singleton in Hin. discriminate Hin. }
  destruct (render element) as [emailHtml|reason]; cbn [app].
  2: { split; [by eexists|]. intros resend message Hin.
       repeat (apply elem_of_cons in Hin as [Hin|Hin]; try discriminate Hin).
       by apply elem_of_nil in Hin. }
  match goal with
  | |- context [Email.sendEmail _ _ _ _ _ ?t ?s ?h ?l ?a ?i] =>
      destruct (sendEmail_resolves Resend Element RESEND_API_KEY newResend
                  emails_send t s h l a i) as (_ & Hmessage);
      destruct (Email.sendEmail _ _ _ _ _ t s h l a i) as [[result instance'] calls]
  end.
  cbn [fst snd app] in *. split; [by eexists|].
  intros resend message Hin.
  repeat (apply elem_of_cons in Hin as [Hin|Hin]; try discriminate Hin).
  rewrite (Hmessage resend message Hin). repeat split.
Qed.

End PasswordEmails.

(** * The comment card *)

Lemma two_digits_below_100 (n : Z) : (0 <= n < 100)%Z -> two_digits n = true.
Proof.
  intros Hn.
  assert (Hall : forallb (fun i => two_digits (Z.of_nat i)) (seq 0 100) = true)
    by (vm_compute; reflexivity).
  rewrite forallb_forall in Hall.
  specialize (Hall (Z.to_nat n)). rewrite Z2Nat.id in Hall by lia.
  apply Hall, in_seq. lia.
Qed.

(** [formatDateTime] on a valid local time prints
    [DD-MM-YYYY, h:mm a.m.|p.m.]: day, month and minutes as two digits
    that read back as the day, the month counted from 1 and the
    minutes; the hour on a twelve-hour clock, between 1 and 12, with
    [p.m.] from noon on, so that midnight is 12 a.m. and noon is
    12 p.m. *)
Theorem formatDateTime_twelve_hour_clock (date : GlobeCard.LocalTime) :
  valid_time date ->
  exists day month minutes hour period,
    GlobeCard.formatDateTime date
    = day ++ lit "-" ++ month ++ lit "-" ++ Z_to_str (GlobeCard.getFullYear date)
      ++ lit ", " ++ Z_to_str hour ++ lit ":" ++ minutes ++ lit " " ++ period
    /\ (length day = 2%nat /\ parseInt10 day = NInt (GlobeCard.getDate date))
    /\ (length month = 2%nat /\ parseInt10 month = NInt (GlobeCard.getMonth date + 1))
    /\ (length minutes = 2%nat /\ parseInt10 minutes = NInt (GlobeCard.getMinutes date))
    /\ (1 <= hour <= 12)%Z
    /\ (GlobeCard.getHours date < 12 /\ period = lit "a.m."
        /\ GlobeCard.getHours date = hour mod 12
        \/ 12 <= GlobeCard.getHours date /\ period = lit "p.m."
           /\ GlobeCard.getHours date = hour mod 12 + 12)%Z.
Proof.
  intros (Hday & Hmonth & Hminutes & Hhours).
  unfold GlobeCard.formatDateTime.
  pose proof (two_digits_below_100 (GlobeCard.getDate date) ltac:(lia)) as Hd.
  pose proof (two_digits_below_100 (GlobeCard.getMonth date + 1) ltac:(lia)) as Hm.
  pose proof (two_digits_below_100 (GlobeCard.getMinutes date) ltac:(lia)) as Hmi.
  unfold two_digits in Hd, Hm, Hmi.
  apply andb_prop in Hd as [Hd1 Hd2], Hm as [Hm1 Hm2], Hmi as [Hmi1 Hmi2].
  apply bool_decide_eq_true in Hd1, Hd2, Hm1, Hm2, Hmi1, Hmi2.
  eexists _, _, _, _, _. split; [reflexivity|].
  split; [by split|]. split; [by split|]. split; [by split|].
  set (h := GlobeCard.getHours date) in *.
  destruct (Z.eqb_spec (Z.rem h 12) 0) as [Hzero|Hnonzero],
    (Z.leb_spec 12 h) as [Hpm|Ham].
  all: split; [Z.quot_rem_to_equations; lia|].
  all: first
    [ left; split; [lia|]; split; [reflexivity|];
      Z.quot_rem_to_equations; Z.div_mod_to_equations; lia
    | right; split; [lia|]; split; [reflexivity|];
      Z.quot_rem_to_equations; Z.div_mod_to_equations; lia ].
Qed.

Lemma trimStart_head (s : str) :
  trimStart s = [] \/ exists c rest, trimStart s = c :: rest /\ is_white_space c = false.
Proof.
  induction s as [|x s IH]; cbn [trimStart]; [by left|].
  destruct (is_white_space x) eqn:Hx; [exact IH|]. right. by eexists _, _.
Qed.

Lemma trimStart_fixed (c : N) (s : str) :
  is_white_space c = false -> trimStart (c :: s) = c :: s.
Proof. intros Hc. cbn [trimStart]. by rewrite Hc. Qed.

Lemma trimStart_snoc (s : str) (c : N) :
  is_white_space c = false -> trimStart (s ++ [c]) = trimStart s ++ [c].
Proof.
  intros Hc. induction s as [|x s IH]; cbn [app trimStart].
  - by rewrite Hc.
  - destruct (is_white_space x); [exact IH|reflexivity].
Qed.

Lemma trimStart_idempotent (s : str) : trimStart (trimStart s) = trimStart s.
Proof.
  destruct (trimStart_head s) as [->|(c & rest & -> & Hc)]; [reflexivity|].
  by apply trimStart_fixed.
Qed.

(** Trimming the end keeps a first unit that is not white space. *)
Lemma trimEnd_head (c : N) (s : str) :
  is_white_space c = false -> exists rest, trimEnd (c :: s) = c :: rest.
Proof.
  intros Hc. unfold trimEnd.
  rewrite reverse_cons, trimStart_snoc by exact Hc.
  rewrite reverse_app. by eexists.
Qed.

Lemma trim_idempotent (s : str) : trim (trim s) = trim s.
Proof.
  unfold trim at 1.
  assert (Hstart : trimStart (trim s) = trim s).
  { unfold trim. destruct (trimStart_head s) as [->|(c & rest & -> & Hc)]; [reflexivity|].
    destruct (trimEnd_head c rest Hc) as [rest' ->]. by apply trimStart_fixed. }
  rewrite Hstart. unfold trim, trimEnd.
  rewrite reverse_involutive, trimStart_idempotent. reflexivity.
Qed.

Lemma palette_exists (userKey : str) : is_Some (Globe.getPaletteForUser userKey).
Proof.
  unfold Globe.getPaletteForUser. apply lookup_lt_is_Some_2.
  pose proof (hashString_range userKey) as Hh.
  rewrite palette_length.
  pose proof (Z.rem_bound_pos (Globe.hashString userKey) 6 ltac:(lia) ltac:(lia)).
  change (Z.of_nat 6) with 6%Z. lia.
Qed.

(** The card of a comment always has a name and a palette. The name is
    the user name trimmed when that is not empty, and [Anónimo] when
    there is no user, no user name, or a blank one; it is never empty
    and has no white space around it. The palette is the one of the
    user id printed as a string when the comment has an id other than
    0 and NaN, whatever the name, so that comments with the same id
    share it; it is the one of the name otherwise, so that all
    anonymous comments share one palette. *)
Theorem card_name_and_palette (comment : CommentSection.WordComment) :
  let name := GlobeCard.username comment in
  let given := CommentSection.user comment ≫= CommentSection.comment_user_username in
  let id := CommentSection.user comment ≫= CommentSection.comment_user_id in
  name <> []
  /\ trim name = name
  /\ (forall text, given = Some text -> trim text <> [] -> name = trim text)
  /\ (forall text, given = Some text -> trim text = [] -> name = lit "Anónimo")
  /\ (given = None -> name = lit "Anónimo")
  /\ (exists p, GlobeCard.palette comment = Some p /\ p ∈ Globe.COLOR_PALETTE)
  /\ (forall n, id = Some n -> number_truthy n = true ->
        GlobeCard.palette comment = Globe.getPaletteForUser (number_to_string n))
  /\ (forall n other,
        id = Some n -> number_truthy n = true ->
        CommentSection.user other ≫= CommentSection.comment_user_id = Some n ->
        GlobeCard.palette other = GlobeCard.palette comment)
  /\ ((id = None \/ id = Some (NInt 0) \/ id = Some NNaN) ->
      GlobeCard.palette comment = Globe.getPaletteForUser name).
Proof.
  intros name given id. subst name given id.
  assert (Hname : GlobeCard.username comment <> []
                  /\ trim (GlobeCard.username comment) = GlobeCard.username comment).
  { unfold GlobeCard.username.
    destruct (CommentSection.user comment ≫= CommentSection.comment_user_username)
      as [text|]; [|split; vm_compute; congruence].
    destruct (decide (trim text = [])) as [Hblank|Hfull].
    - rewrite bool_decide_eq_true_2 by exact Hblank. split; vm_compute; congruence.
    - rewrite bool_decide_eq_false_2 by exact Hfull. split; [exact Hfull|].
      apply trim_idempotent. }
  destruct Hname as [Hfull Htrim].
  split; [exact Hfull|]. split; [exact Htrim|].
  split.
  { intros text Hgiven Htext. unfold GlobeCard.username.
    rewrite Hgiven, bool_decide_eq_false_2 by exact Htext. reflexivity. }
  split.
  { intros text Hgiven Htext. unfold GlobeCard.username.
    rewrite Hgiven, bool_decide_eq_true_2 by exact Htext. reflexivity. }
  split.
  { intros Hgiven. unfold GlobeCard.username. rewrite Hgiven. reflexivity. }
  split.
  { destruct (palette_exists (GlobeCard.userKey comment)) as [p Hp].
    exists p. split; [exact Hp|]. eapply list_elem_of_lookup_2, Hp. }
  split.
  { intros n Hid Hn. unfold GlobeCard.palette, GlobeCard.userKey.
    rewrite Hid, Hn. reflexivity. }
  split.
  - intros n other Hid Hn Hother. unfold GlobeCard.palette, GlobeCard.userKey.
    rewrite Hid, Hother, Hn. reflexivity.
  - unfold GlobeCard.palette, GlobeCard.userKey.
    intros [->|[->| ->]]; reflexivity.
Qed.

(** * The exported words page *)

Section Download.
Variable getSessionUser : Outcome (option Report.User).
Variable getWordsByStatus : list str -> Outcome (list Report.RawRedactedWord).
Variable generatePDFreport : list Report.PDFWord -> str -> Outcome (list N).

(** The download link of the exported words page asks the report
    route for the words its tab shows: on the tab of all words, the
    redacted words followed by the reviewed ones, and the route queries
    the statuses [redacted] and [reviewedLex] in that order; on the
    other two tabs, the one list and the one status. The type of the
    link is always one the route has a file name for. *)
Theorem download_matches_tab (redactedWords reviewedLexWords : list ExportedWords.ExportedWord)
    (st : ExportedWords.State) (request : Request) (u : Report.User) :
  searchParams request = ExportedWords.download_query st ->
  getSessionUser = Returned (Some u) ->
  let run := Report.GET getSessionUser getWordsByStatus generatePDFreport request in
  let shown := ExportedWords.displayWords redactedWords reviewedLexWords st in
  let queried statuses :=
    exists rest, run.2 = Report.GetSessionUser :: Report.GetWordsByStatus statuses :: rest in
  match ExportedWords.activeTab st with
  | ExportedWords.all =>
      shown = redactedWords ++ reviewedLexWords
      /\ queried [lit "redacted"; lit "reviewedLex"]
  | ExportedWords.redacted => shown = redactedWords /\ queried [lit "redacted"]
  | ExportedWords.reviewed => shown = reviewedLexWords /\ queried [lit "reviewedLex"]
  end
  /\ is_Some (Report.contentDisposition (Report.report_type request)).
Proof.
  intros Hquery Hu run shown queried. subst run shown queried.
  assert (Htype : Report.report_type request = ExportedWords.getReportType st).
  { unfold Report.report_type. rewrite Hquery.
    unfold ExportedWords.download_query, ExportedWords.getReportType.
    destruct (ExportedWords.activeTab st); reflexivity. }
  unfold Report.GET, Report.authenticateAndFetchWordsByStatus, Report.catch,
    Report.and_then, Report.call, Report.done.
  rewrite Hu, Htype. cbn [fst snd app].
  unfold ExportedWords.getReportType, ExportedWords.displayWords, ExportedWords.allWords.
  destruct (ExportedWords.activeTab st).
  - rewrite bool_decide_eq_true_2 by reflexivity.
    split; [split; [reflexivity|]|by eexists].
    destruct (getWordsByStatus _) as [raw|e]; cbn [fst snd app]; [|by eexists].
    destruct (generatePDFreport _ _); by eexists.
  - rewrite bool_decide_eq_false_2 by (vm_compute; discriminate).
    split; [split; [reflexivity|]|by eexists].
    destruct (getWordsByStatus _) as [raw|e]; cbn [fst snd app]; [|by eexists].
    destruct (generatePDFreport _ _); by eexists.
  - rewrite bool_decide_eq_false_2 by (vm_compute; discriminate).
    split; [split; [reflexivity|]|by eexists].
    destruct (getWordsByStatus _) as [raw|e]; cbn [fst snd app]; [|by eexists].
    destruct (generatePDFreport _ _); by eexists.
Qed.

End Download.

Lemma not_empty_app_lit (prefix : string) (text : str) :
  lit prefix <> [] -> lit prefix ++ text <> [].
Proof. destruct (lit prefix); [contradiction|discriminate]. Qed.

(** Sending the report by email always ends with the sending
    flag off, the tab unchanged and exactly one message to show: either
    a success text and no error, or an error that is truthy and no
    success text. The success text is shown exactly when the response
    was ok, its body parsed, [data.success] was truthy and [data.email]
    could be printed. *)
Theorem handleSendEmail_shows_one_message (template_text : JsVal -> Settled str)
    (res : Fetched JsVal) (st : ExportedWords.State) :
  let final := ExportedWords.handleSendEmail template_text res st in
  ExportedWords.isSending final = false
  /\ ExportedWords.activeTab final = ExportedWords.activeTab st
  /\ ((exists text,
         ExportedWords.successMessage final = Some text /\ text <> []
         /\ ExportedWords.errorMessage final = None)
      \/ (ExportedWords.successMessage final = None
          /\ exists e, ExportedWords.errorMessage final = Some e /\ truthy e = true))
  /\ (is_Some (ExportedWords.successMessage final)
      <-> exists data success email text,
            res = Responded true (Fulfilled data)
            /\ ExportedWords.read data "success" = Fulfilled success
            /\ truthy success = true
            /\ ExportedWords.read data "email" = Fulfilled email
            /\ template_text email = Fulfilled text).
Proof.
  intros final. subst final.
  unfold ExportedWords.handleSendEmail, ExportedWords.handleSendEmail_settle,
    ExportedWords.handleSendEmail_begin, ExportedWords.send_attempt.
  cbn [snd].
  assert (Hcaught : forall P : Prop,
    (P -> False) ->
    false = false /\ ExportedWords.activeTab st = ExportedWords.activeTab st
    /\ ((exists text, @None str = Some text /\ text <> [] /\
           Some (JStr (lit "Error al enviar el correo. Por favor, intenta nuevamente."))
           = None)
        \/ (@None str = None
            /\ exists e,
                 Some (JStr (lit "Error al enviar el correo. Por favor, intenta nuevamente."))
                 = Some e /\ truthy e = true))
    /\ (is_Some (@None str) <-> P)).
  { intros P HP. split; [reflexivity|]. split; [reflexivity|]. split.
    - right. split; [reflexivity|]. eexists. split; [reflexivity|].
      vm_compute. reflexivity.
    - split; [intros [x [=]]|intros H; destruct (HP H)]. }
  destruct res as [reason|ok [data|reason]].
  - apply Hcaught. intros (data & success & email & text & [=] & _).
  - destruct ok; cbn [negb].
    + destruct (ExportedWords.read data "success") as [success|reason] eqn:Hsuccess.
      2: { apply Hcaught. intros (d & s & e & t & [= <-] & Hs & _). congruence. }
      destruct (truthy success) eqn:Htruthy; cbn [negb].
      * destruct (ExportedWords.read data "email") as [email|reason] eqn:Hemail.
        2: { apply Hcaught. intros (d & s & e & t & [= <-] & _ & _ & He & _).
             congruence. }
        destruct (template_text email) as [text|reason] eqn:Htext.
        2: { apply Hcaught. intros (d & s & e & t & [= <-] & _ & _ & He & Ht).
             congruence. }
        cbn. split; [reflexivity|]. split; [reflexivity|]. split.
        -- left. eexists. split; [reflexivity|]. split; [|reflexivity].
           apply not_empty_app_lit. vm_compute. discriminate.
        -- split; [|by eexists]. intros _. by exists data, success, email, text.
      * assert (Hno : ~ exists d s e t,
                  Responded true (Fulfilled data) = Responded true (Fulfilled d)
                  /\ ExportedWords.read d "success" = Fulfilled s
                  /\ truthy s = true
                  /\ ExportedWords.read d "email" = Fulfilled e
                  /\ template_text e = Fulfilled t).
        { intros (d & s & e & t & [= <-] & Hs & Ht & _). congruence. }
        destruct (ExportedWords.read data "error") as [error|reason].
        2: { by apply Hcaught. }
        cbn. split; [reflexivity|]. split; [reflexivity|]. split.
        -- right. split; [reflexivity|]. eexists. split; [reflexivity|].
           destruct (truthy error) eqn:He; [exact He|vm_compute; reflexivity].
        -- split; [intros [x [=]]|intros H; destruct (Hno H)].
    + assert (Hno : ~ exists d s e t,
                @Responded JsVal false (Fulfilled data) = Responded true (Fulfilled d)
                /\ ExportedWords.read d "success" = Fulfilled s
                /\ truthy s = true
                /\ ExportedWords.read d "email" = Fulfilled e
                /\ template_text e = Fulfilled t).
      { intros (d & s & e & t & [=] & _). }
      destruct (ExportedWords.read data "error") as [error|reason].
      2: { by apply Hcaught. }
      cbn. split; [reflexivity|]. split; [reflexivity|]. split.
      * right. split; [reflexivity|]. eexists. split; [reflexivity|].
        destruct (truthy error) eqn:He; [exact He|vm_compute; reflexivity].
      * split; [intros [x [=]]|intros H; destruct (Hno H)].
  - apply Hcaught. intros (data & success & email & text & [=] & _).
Qed.

(** * Editing and deleting a comment in the section *)

Lemma number_strict_eq_eq (a b : number) : number_strict_eq a b = true -> a = b.
Proof.
  unfold number_strict_eq.
  destruct a, b; try discriminate; intros H; by apply bool_decide_eq_true in H.
Qed.

Lemma number_strict_eq_refl (a : number) : a <> NNaN -> number_strict_eq a a = true.
Proof.
  intros Ha. unfold number_strict_eq.
  destruct a; try contradiction; by apply bool_decide_eq_true.
Qed.

Section Editing.
Variable lemma : str.
Variable null_read_message : string -> str.

#[local] Abbreviation saveEditing_begin := (CommentEditing.saveEditing_begin lemma).
#[local] Abbreviation saveEditing_settle :=
  (CommentEditing.saveEditing_settle null_read_message).
#[local] Abbreviation patched_comment := (CommentEditing.patched_comment null_read_message).
#[local] Abbreviation deleteComment_begin := (CommentEditing.deleteComment_begin lemma).
#[local] Abbreviation deleteComment_settle :=
  (CommentEditing.deleteComment_settle null_read_message).
#[local] Abbreviation deleted := (CommentEditing.deleted null_read_message).

(** Saving an edit never adds, removes or reorders comments:
    whatever the request gives and whatever the state has become
    meanwhile, the list keeps its ids in their order, and the saving
    flag is off at the end. When the request fails, the comments, the
    comment being edited and the text typed are left as they are and an
    error is set, so the text is not lost. When it succeeds, editing
    ends, and every comment that has the id of the updated one is the
    updated one. A request is only made for an editing id other than 0
    and a text that does not trim to nothing; it carries that id and
    the trimmed text. *)
Theorem saveEditing_keeps_the_list (res : Fetched (option CommentEditing.PatchPayload))
    (st : CommentEditing.State) :
  let final := saveEditing_settle res st in
  CommentEditing.savingEdit final = false
  /\ CommentSection.id <$> CommentEditing.comments final
     = CommentSection.id <$> CommentEditing.comments st
  /\ (forall reason, patched_comment res = Rejected reason ->
        CommentEditing.comments final = CommentEditing.comments st
        /\ CommentEditing.editingId final = CommentEditing.editingId st
        /\ CommentEditing.editingValue final = CommentEditing.editingValue st
        /\ exists message, CommentEditing.error final = Some message)
  /\ (forall updated, patched_comment res = Fulfilled updated ->
        CommentEditing.editingId final = None
        /\ CommentEditing.editingValue final = []
        /\ CommentEditing.error final = CommentEditing.error st
        /\ forall c, c ∈ CommentEditing.comments final ->
             CommentSection.id c = CommentSection.id updated
             /\ CommentSection.id c <> NNaN ->
             c = updated)
  /\ (forall request pending, saveEditing_begin st = inr (request, pending) ->
        CommentEditing.editingId st = Some (CommentEditing.patch_commentId request)
        /\ number_truthy (CommentEditing.patch_commentId request) = true
        /\ CommentEditing.patch_note request = trim (CommentEditing.editingValue st)
        /\ CommentEditing.patch_note request <> []
        /\ CommentEditing.patch_lemma request = lemma
        /\ CommentEditing.savingEdit pending = true
        /\ CommentEditing.error pending = None
        /\ CommentEditing.comments pending = CommentEditing.comments st).
Proof.
  intros final. subst final. unfold CommentEditing.saveEditing_settle.
  split; [reflexivity|]. split; [|split; [|split]].
  - destruct (patched_comment res) as [updated|reason]; [|reflexivity].
    cbn [CommentEditing.setSavingEdit CommentEditing.setEditingValue
           CommentEditing.setEditingId CommentEditing.setComments CommentEditing.comments].
    rewrite <- list_fmap_compose. apply list_fmap_ext. intros i c _. cbn.
    destruct (number_strict_eq _ _) eqn:Heq; [|reflexivity].
    symmetry. by apply number_strict_eq_eq.
  - intros reason ->. cbn. repeat split. by eexists.
  - intros updated ->. cbn. repeat split.
    intros c Hin [Hid Hnan]. apply list_elem_of_fmap in Hin as (c0 & -> & Hin).
    destruct (number_strict_eq _ _) eqn:Heq; [reflexivity|].
    rewrite Hid, number_strict_eq_refl in Heq; [discriminate|]. by rewrite <- Hid.
  - intros request pending. unfold CommentEditing.saveEditing_begin.
    destruct (CommentEditing.editingId st) as [editing|]; [|discriminate].
    destruct (number_truthy editing) eqn:Htruthy; cbn [negb]; [|discriminate].
    destruct (decide (trim (CommentEditing.editingValue st) = [])) as [Hblank|Hfull].
    + rewrite bool_decide_eq_true_2 by exact Hblank. discriminate.
    + rewrite bool_decide_eq_false_2 by exact Hfull. intros [= <- <-]. cbn.
      repeat split; assumption.
Qed.

(** Deleting a comment removes that comment and nothing else.
    When the request succeeds, the comments left are those of the
    moment with another id, in their order; the edit in progress ends
    if the handler saw that comment being edited, and is left alone
    otherwise. When the request fails, the comments and the edit are
    untouched and an error is set. Either way the comment is no longer
    marked as being deleted. Declining the confirmation changes
    nothing and sends nothing. *)
Theorem deleteComment_removes_only_that_comment (editing : option number)
    (commentId : number) (res : Fetched (option CommentEditing.DeletePayload))
    (st : CommentEditing.State) :
  commentId <> NNaN ->
  let final := deleteComment_settle editing commentId res st in
  CommentEditing.deletingId final <> Some commentId
  /\ (deleted res = Fulfilled tt ->
        (forall c, c ∈ CommentEditing.comments final
                   <-> c ∈ CommentEditing.comments st /\ CommentSection.id c <> commentId)
        /\ CommentEditing.comments final `sublist_of` CommentEditing.comments st
        /\ CommentEditing.error final = CommentEditing.error st
        /\ (editing = Some commentId ->
            CommentEditing.editingId final = None /\ CommentEditing.editingValue final = [])
        /\ (editing <> Some commentId ->
            CommentEditing.editingId final = CommentEditing.editingId st
            /\ CommentEditing.editingValue final = CommentEditing.editingValue st))
  /\ (forall reason, deleted res = Rejected reason ->
        CommentEditing.comments final = CommentEditing.comments st
        /\ CommentEditing.editingId final = CommentEditing.editingId st
        /\ CommentEditing.editingValue final = CommentEditing.editingValue st
        /\ exists message, CommentEditing.error final = Some message)
  /\ deleteComment_begin false commentId st = inl st
  /\ deleteComment_begin true commentId st
     = inr (CommentEditing.mkDeleteRequest lemma commentId,
            CommentEditing.setError None
              (CommentEditing.setDeletingId (fun _ => Some commentId) st)).
Proof.
  intros Hnan final. subst final. unfold CommentEditing.deleteComment_settle.
  assert (Hsame : forall current,
    CommentEditing.is_number current commentId = true <-> current = Some commentId).
  { intros [c|]; cbn [CommentEditing.is_number]; [|split; discriminate].
    split.
    - intros H. f_equal. by apply number_strict_eq_eq.
    - intros [= ->]. by apply number_strict_eq_refl. }
  split; [|split; [|split; [|split; reflexivity]]].
  - cbn [CommentEditing.setDeletingId CommentEditing.deletingId].
    match goal with |- context [CommentEditing.is_number ?cur commentId] =>
      destruct (CommentEditing.is_number cur commentId) eqn:Hcur; [discriminate|];
      intros Heq; apply Hsame in Heq; congruence
    end.
  - intros ->.
    assert (Hfilter : forall c,
      c ∈ List.filter
            (fun comment => negb (number_strict_eq (CommentSection.id comment) commentId))
            (CommentEditing.comments st)
      <-> c ∈ CommentEditing.comments st /\ CommentSection.id c <> commentId).
    { intros c. rewrite list_elem_of_In, List.filter_In, <- list_elem_of_In.
      split; intros [Hin Hid]; (split; [exact Hin|]).
      - intros Heq. rewrite Heq, number_strict_eq_refl in Hid by exact Hnan.
        discriminate Hid.
      - destruct (number_strict_eq _ _) eqn:Heq; [|reflexivity].
        apply number_strict_eq_eq in Heq. contradiction. }
    assert (Hsub : List.filter
                     (fun comment =>
                        negb (number_strict_eq (CommentSection.id comment) commentId))
                     (CommentEditing.comments st)
                   `sublist_of` CommentEditing.comments st).
    { clear Hfilter.
      induction (CommentEditing.comments st) as [|c l IH]; cbn [List.filter];
        [constructor|].
      destruct (negb _); [by apply sublist_skip|by apply sublist_cons]. }
    destruct (CommentEditing.is_number editing commentId) eqn:Hediting; cbn.
    + apply Hsame in Hediting.
      split; [exact Hfilter|]. split; [exact Hsub|]. split; [reflexivity|].
      split; [by split|]. intros Hne. contradiction.
    + split; [exact Hfilter|]. split; [exact Hsub|]. split; [reflexivity|].
      split; [|by split]. intros Heq. apply Hsame in Heq. congruence.
  - intros reason ->. cbn. repeat split. by eexists.
Qed.

End Editing.

(** ** Runs of the report, the emails and the components *)

Lemma report_download_witness :
  Report.GET SampleReport.getSessionUser SampleReport.getWordsByStatus
    SampleReport.generatePDFreport (SampleReport.request (lit "both"))
  = (Returned (Report.File [37; 80; 68; 70] 200 (lit "application/pdf")
                 (Report.contentDisposition (lit "both"))),
     [Report.GetSessionUser;
      Report.GetWordsByStatus [lit "redacted"; lit "reviewedLex"];
      Report.GeneratePDFreport (Report.mapWordsByStatusToPdf [SampleReport.word])
        (lit "both")]).
Proof.
  exact (proj1 (report_download SampleReport.getSessionUser SampleReport.getWordsByStatus
                  SampleReport.generatePDFreport (SampleReport.request (lit "both"))
                  SampleReport.user [SampleReport.word] [37; 80; 68; 70]
                  eq_refl eq_refl eq_refl)).
Defined.

Lemma words_report_attachment_witness :
  exists rest,
    (Email.sendWordsReport str str str (Some (lit "re_123")) SampleReport.newResend
       SampleReport.emails_send SampleReport.WordsReportEmail SampleReport.render
       SampleReport.formatSpanishDate SampleReport.toISOString Sample.stamp
       (lit "ana@duech.cl") (lit "ana") [37; 80; 68; 70] None).2
    = Email.CallWordsReportEmail
        (Email.mkWordsReportEmailProps (lit "ana")
           (SampleReport.formatSpanishDate Sample.stamp)) :: rest.
Proof.
  assert (Hiso : SampleReport.toISOString Sample.stamp
                 = lit "2025-11-26" ++ [84] ++ lit "12:00:00.000Z")
    by (vm_compute; reflexivity).
  assert (Hdate : 84 ∉ lit "2025-11-26").
  { intros H. vm_compute in H.
    repeat (apply elem_of_cons in H as [H|H]; [discriminate H|]).
    by apply elem_of_nil in H. }
  exact (proj1 (words_report_attachment str str str (Some (lit "re_123"))
                  SampleReport.newResend SampleReport.emails_send
                  SampleReport.WordsReportEmail SampleReport.render
                  SampleReport.formatSpanishDate SampleReport.toISOString Sample.stamp
                  (lit "ana@duech.cl") (lit "ana") [37; 80; 68; 70] None
                  (lit "2025-11-26") (lit "12:00:00.000Z") Hiso Hdate)).
Defined.

Lemma formatDateTime_twelve_hour_clock_witness :
  exists day month minutes hour period,
    GlobeCard.formatDateTime sample_midnight
    = day ++ lit "-" ++ month ++ lit "-" ++ Z_to_str 2025 ++ lit ", " ++ Z_to_str hour
      ++ lit ":" ++ minutes ++ lit " " ++ period
    /\ (1 <= hour <= 12)%Z.
Proof.
  assert (Hvalid : valid_time sample_midnight) by (repeat split; vm_compute; discriminate).
  destruct (formatDateTime_twelve_hour_clock sample_midnight Hvalid)
    as (day & month & minutes & hour & period & Heq & _ & _ & _ & Hhour & _).
  by exists day, month, minutes, hour, period.
Defined.

Lemma download_matches_tab_witness :
  is_Some (Report.contentDisposition
             (Report.report_type
                (mkRequest [] (ExportedWords.download_query sample_page) (Returned JNull)))).
Proof.
  exact (proj2 (download_matches_tab SampleReport.getSessionUser
                  SampleReport.getWordsByStatus SampleReport.generatePDFreport [] []
                  sample_page
                  (mkRequest [] (ExportedWords.download_query sample_page) (Returned JNull))
                  SampleReport.user eq_refl eq_refl)).
Defined.

Lemma deleteComment_removes_only_that_comment_witness :
  CommentEditing.comments
    (CommentEditing.deleteComment_settle (fun _ => lit "null") None (NInt 3) deleted_ok
       sample_section)
  `sublist_of` CommentEditing.comments sample_section.
Proof.
  assert (Hnan : NInt 3 <> NNaN) by discriminate.
  exact (proj1 (proj2 (proj1 (proj2 (deleteComment_removes_only_that_comment (lit "casa")
                 (fun _ => lit "null") None (NInt 3) deleted_ok sample_section Hnan))
                 eq_refl))).
Defined.
